(** * Ticketing platform: the reservation and settlement core

    A shallow embedding of the order routes ([routes/orders.js]), the tier
    routes ([routes/tickets.js]), the Stripe webhook handlers
    ([config/stripe.js]), the queue consumers
    ([services/messageProcessors.js]) and the order validator
    ([middleware/validation.js]), over a model of the MySQL tables declared
    in [config/database.js].

    Conventions.
    - A table is the list of its rows, oldest first.  A [SELECT] is a
      [filter], an [UPDATE ... WHERE] a [map], a [DELETE] a [filter].
    - Money ([DECIMAL(10,2)]) is counted in cents; dates are milliseconds
      since the epoch.  The numbers of a request body ([eventId], [tierId],
      [quantity]) are integers, as the API reference gives them.
    - Every call that leaves the process (a statement sent to the store, a
      message published, the checkout session) is numbered; an oracle says
      which of them fail.  A handler is a function from the world before
      to the world after and what it answered. *)

From Stdlib Require Import ZArith List String Bool Lia DecimalString.
Import ListNotations.

Local Open Scope string_scope.
Local Open Scope Z_scope.

(** ** The schema *)

Module Schema.

Inductive role := admin | organizer | customer.
Inductive event_status := draft | published | event_cancelled | completed.
Inductive order_status := pending | paid | cancelled | refunded.
Inductive ticket_status := active | used | ticket_cancelled | ticket_refunded.

Record user := {
  u_id : Z;
  u_email : string;
  u_first_name : string;
  u_last_name : string;
  u_role : role
}.

Record event := {
  e_id : Z;
  e_organizer_id : Z;
  e_title : string;
  e_status : event_status
}.

Record ticket_tier := {
  tt_id : Z;
  tt_event_id : Z;
  tt_name : string;
  tt_description : option string;
  tt_price : Z;
  tt_quantity : Z;
  tt_sold_quantity : Z;
  tt_sales_start_date : option Z;
  tt_sales_end_date : option Z;
  tt_is_active : bool
}.

Record billing := {
  billing_email : string;
  billing_name : string;
  billing_address : option string;
  billing_city : option string;
  billing_state : option string;
  billing_country : option string;
  billing_postal_code : option string
}.

Record order := {
  o_id : Z;
  o_user_id : Z;
  o_event_id : Z;
  o_order_number : string;
  o_total_amount : Z;
  o_status : order_status;
  o_stripe_payment_intent_id : option string;
  o_stripe_session_id : option string;
  o_billing : billing
}.

Record ticket := {
  t_id : Z;
  t_order_id : Z;
  t_ticket_tier_id : Z;
  t_ticket_code : string;
  t_attendee_name : string;
  t_attendee_email : string;
  t_status : ticket_status;
  t_qr_code : option string
}.

(** The tables, and the two AUTO_INCREMENT counters the core draws from. *)
Record db := {
  users : list user;
  events : list event;
  ticket_tiers : list ticket_tier;
  orders : list order;
  tickets : list ticket;
  next_order_id : Z;
  next_ticket_id : Z
}.

Definition with_ticket_tiers (d : db) (l : list ticket_tier) : db :=
  {| users := users d; events := events d; ticket_tiers := l;
     orders := orders d; tickets := tickets d;
     next_order_id := next_order_id d; next_ticket_id := next_ticket_id d |}.

Definition with_orders (d : db) (l : list order) : db :=
  {| users := users d; events := events d; ticket_tiers := ticket_tiers d;
     orders := l; tickets := tickets d;
     next_order_id := next_order_id d; next_ticket_id := next_ticket_id d |}.

Definition with_tickets (d : db) (l : list ticket) : db :=
  {| users := users d; events := events d; ticket_tiers := ticket_tiers d;
     orders := orders d; tickets := l;
     next_order_id := next_order_id d; next_ticket_id := next_ticket_id d |}.

Definition set_sold_quantity (tt : ticket_tier) (n : Z) : ticket_tier :=
  {| tt_id := tt_id tt; tt_event_id := tt_event_id tt; tt_name := tt_name tt;
     tt_description := tt_description tt; tt_price := tt_price tt;
     tt_quantity := tt_quantity tt; tt_sold_quantity := n;
     tt_sales_start_date := tt_sales_start_date tt;
     tt_sales_end_date := tt_sales_end_date tt;
     tt_is_active := tt_is_active tt |}.

Definition set_status (o : order) (s : order_status) : order :=
  {| o_id := o_id o; o_user_id := o_user_id o; o_event_id := o_event_id o;
     o_order_number := o_order_number o; o_total_amount := o_total_amount o;
     o_status := s;
     o_stripe_payment_intent_id := o_stripe_payment_intent_id o;
     o_stripe_session_id := o_stripe_session_id o;
     o_billing := o_billing o |}.

Definition set_payment_intent (o : order) (p : string) : order :=
  {| o_id := o_id o; o_user_id := o_user_id o; o_event_id := o_event_id o;
     o_order_number := o_order_number o; o_total_amount := o_total_amount o;
     o_status := o_status o;
     o_stripe_payment_intent_id := Some p;
     o_stripe_session_id := o_stripe_session_id o;
     o_billing := o_billing o |}.

Definition set_session (o : order) (s : string) : order :=
  {| o_id := o_id o; o_user_id := o_user_id o; o_event_id := o_event_id o;
     o_order_number := o_order_number o; o_total_amount := o_total_amount o;
     o_status := o_status o;
     o_stripe_payment_intent_id := o_stripe_payment_intent_id o;
     o_stripe_session_id := Some s;
     o_billing := o_billing o |}.

Definition order_status_eqb (a b : order_status) : bool :=
  match a, b with
  | pending, pending | paid, paid | cancelled, cancelled
  | refunded, refunded => true
  | _, _ => false
  end.

Definition is_published (e : event) : bool :=
  match e_status e with published => true | _ => false end.

Definition is_admin (r : role) : bool :=
  match r with admin => true | _ => false end.

(** [COALESCE(?, column)]. *)
Definition coalesce {A} (x : option A) (old : A) : A :=
  match x with Some v => v | None => old end.

Definition coalesce_opt {A} (x : option A) (old : option A) : option A :=
  match x with Some v => Some v | None => old end.

(** [SELECT * FROM tickets WHERE order_id = ?]. *)
Definition tickets_of_order (d : db) (id : Z) : list ticket :=
  filter (fun t => t_order_id t =? id) (tickets d).

(** Two databases hold the same rows (the counters may differ: InnoDB
    does not give back an AUTO_INCREMENT value on rollback). *)
Definition same_rows (d d' : db) : Prop :=
  users d' = users d /\ events d' = events d /\
  ticket_tiers d' = ticket_tiers d /\ orders d' = orders d /\
  tickets d' = tickets d.

End Schema.
Export Schema.

(** ** What a handler answers, and what it publishes *)

Module Http.

Record order_data := {
  orderId : Z;
  orderNumber : string;
  checkoutUrl : string;
  totalAmount : Z
}.

(** An entry of [errors] in the answer of [handleValidationErrors]. *)
Record validation_error := { path : string; msg : string }.

Inductive body :=
| Json (success : bool) (message : string) (data : option order_data)
| ValidationFailed (errors : list validation_error)
| Text (s : string)
| Received
| JsonError (error : string).

Record response := { status : Z; payload : body }.

Definition failure (code : Z) (message : string) : response :=
  {| status := code; payload := Json false message None |}.

Definition success (code : Z) (message : string) : response :=
  {| status := code; payload := Json true message None |}.

End Http.
Export Http.

Module Queue.

(** The [paymentIntent] or [session] object of a Stripe event: its id and
    the order id its metadata carries. *)
Record stripe_object := { so_id : string; so_orderId : Z }.

(** [SELECT o.*, u.first_name, u.last_name, u.email, e.title ...]. *)
Record order_details := {
  od_order : order;
  od_first_name : string;
  od_last_name : string;
  od_email : string;
  od_event_title : string
}.

(** [SELECT t.*, tt.name as tier_name, tt.price ...]. *)
Record ticket_details := {
  td_ticket : ticket;
  td_tier_name : string;
  td_price : Z
}.

(** [data] of a message on the payment queue. *)
Record payment_data := { pd_orderId : Z; pd_email : string }.

Inductive message :=
| OrderConfirmation (to : string) (o : order_details)
    (ts : list ticket_details) (paymentIntent : stripe_object)
| OrderConfirmationFor (to : string) (data : payment_data)
| TicketGeneration (orderId : Z) (ts : list ticket_details).

End Queue.
Export Queue.

(** ** The store, the queue and the processor, as one world *)

Module Store.

(** What an awaited call can throw. *)
Inductive exn := StoreError | QueueError | StripeError.

(** What the handler cannot choose: the clock, which outgoing calls fail,
    the random draws ([Math.random], [uuidv4], already in upper case) and
    the URL of the checkout session. *)
Record env := {
  env_now : Z;
  env_fault : nat -> bool;
  env_random : nat -> string;
  env_checkout_url : string
}.

(** [w_snapshot] is the state to return to on [rollback], while a
    transaction is open; [w_calls] counts the outgoing calls made so far;
    [w_queue] is what has been published, newest last. *)
Record world := {
  w_db : db;
  w_snapshot : option db;
  w_calls : nat;
  w_queue : list (string * message)
}.

(** A statement of an [async] function ends with a value, with
    [return res...] (the response is sent and the function left), or with
    an exception. *)
Inductive outcome (A : Type) :=
| Val (a : A)
| Ret (r : response)
| Thrown (e : exn).
Arguments Val {A} a.
Arguments Ret {A} r.
Arguments Thrown {A} e.

Definition M (A : Type) : Type := env -> world -> world * outcome A.

Definition ret {A} (a : A) : M A := fun _ w => (w, Val a).

Definition bind {A B} (m : M A) (k : A -> M B) : M B :=
  fun e w =>
    match m e w with
    | (w', Val a) => k a e w'
    | (w', Ret r) => (w', Ret r)
    | (w', Thrown x) => (w', Thrown x)
    end.

Definition respond {A} (r : response) : M A := fun _ w => (w, Ret r).

Definition throw {A} (x : exn) : M A := fun _ w => (w, Thrown x).

(** [try { m } catch (error) { h error }]: a [return] inside [m] leaves
    the function, only an exception reaches [h]. *)
Definition try_catch {A} (m : M A) (h : exn -> M A) : M A :=
  fun e w =>
    match m e w with
    | (w', Thrown x) => h x e w'
    | r => r
    end.

Definition set_db (w : world) (d : db) : world :=
  {| w_db := d; w_snapshot := w_snapshot w; w_calls := w_calls w;
     w_queue := w_queue w |}.

Definition set_snapshot (w : world) (s : option db) : world :=
  {| w_db := w_db w; w_snapshot := s; w_calls := w_calls w;
     w_queue := w_queue w |}.

(** One outgoing call: it is counted, and it throws [kind] when the
    oracle says that this call fails. *)
Definition call (kind : exn) : M unit :=
  fun e w =>
    let w' := {| w_db := w_db w; w_snapshot := w_snapshot w;
                 w_calls := S (w_calls w); w_queue := w_queue w |} in
    if env_fault e (w_calls w) then (w', Thrown kind) else (w', Val tt).

Definition Date_now : M Z := fun e w => (w, Val (env_now e)).

Definition random : M string :=
  fun e w => (w, Val (env_random e (w_calls w))).

End Store.
Export Store.

Declare Scope store_scope.
Delimit Scope store_scope with store.
Notation "x <- c1 ;; c2" := (bind c1 (fun x => c2))
  (at level 61, c1 at next level, right associativity) : store_scope.
Notation "' pat <- c1 ;; c2" :=
  (bind c1 (fun x => match x with pat => c2 end))
  (at level 61, pat pattern, c1 at next level, right associativity)
  : store_scope.
Notation "c1 ;; c2" := (bind c1 (fun _ => c2))
  (at level 61, right associativity) : store_scope.
Local Open Scope store_scope.

Module Sql.

(** [execute] of a [SELECT]. *)
Definition query {A} (q : db -> A) : M A :=
  call StoreError ;; fun _ w => (w, Val (q (w_db w))).

(** [execute] of an [UPDATE] or a [DELETE]. *)
Definition update (f : db -> db) : M unit :=
  call StoreError ;; fun _ w => (set_db w (f (w_db w)), Val tt).

Definition beginTransaction : M unit :=
  call StoreError ;; fun _ w => (set_snapshot w (Some (w_db w)), Val tt).

Definition commit : M unit :=
  call StoreError ;; fun _ w => (set_snapshot w None, Val tt).

(** The rows go back to the snapshot; the counters stay where they are.
    Without an open transaction there is nothing to undo. *)
Definition restore (snapshot current : db) : db :=
  {| users := users snapshot; events := events snapshot;
     ticket_tiers := ticket_tiers snapshot; orders := orders snapshot;
     tickets := tickets snapshot;
     next_order_id := next_order_id current;
     next_ticket_id := next_ticket_id current |}.

Definition rollback : M unit :=
  fun _ w =>
    match w_snapshot w with
    | Some s => (set_snapshot (set_db w (restore s (w_db w))) None, Val tt)
    | None => (w, Val tt)
    end.

(** [INSERT INTO orders]: [order_number] is UNIQUE; [status] defaults to
    [pending]; the answer is [insertId]. *)
Definition insert_order (user_id event_id : Z) (order_number : string)
    (total_amount : Z) (b : billing) : M Z :=
  call StoreError ;;
  fun _ w =>
    let d := w_db w in
    if existsb (fun o => String.eqb (o_order_number o) order_number) (orders d)
    then (w, Thrown StoreError)
    else
      let id := next_order_id d in
      let row := {| o_id := id; o_user_id := user_id; o_event_id := event_id;
                    o_order_number := order_number;
                    o_total_amount := total_amount; o_status := pending;
                    o_stripe_payment_intent_id := None;
                    o_stripe_session_id := None; o_billing := b |} in
      (set_db w {| users := users d; events := events d;
                   ticket_tiers := ticket_tiers d;
                   orders := (orders d ++ [row])%list;
                   tickets := tickets d;
                   next_order_id := id + 1;
                   next_ticket_id := next_ticket_id d |},
       Val id).

(** [INSERT INTO tickets]: [ticket_code] is UNIQUE; [status] defaults to
    [active]. *)
Definition insert_ticket (order_id tier_id : Z) (ticket_code : string)
    (attendee_name attendee_email : string) : M Z :=
  call StoreError ;;
  fun _ w =>
    let d := w_db w in
    if existsb (fun t => String.eqb (t_ticket_code t) ticket_code) (tickets d)
    then (w, Thrown StoreError)
    else
      let id := next_ticket_id d in
      let row := {| t_id := id; t_order_id := order_id;
                    t_ticket_tier_id := tier_id;
                    t_ticket_code := ticket_code;
                    t_attendee_name := attendee_name;
                    t_attendee_email := attendee_email;
                    t_status := active; t_qr_code := None |} in
      (set_db w {| users := users d; events := events d;
                   ticket_tiers := ticket_tiers d; orders := orders d;
                   tickets := (tickets d ++ [row])%list;
                   next_order_id := next_order_id d;
                   next_ticket_id := id + 1 |},
       Val id).

(** [UPDATE ticket_tiers SET sold_quantity = sold_quantity + ? WHERE id = ?]. *)
Definition add_sold (n tier_id : Z) (d : db) : db :=
  with_ticket_tiers d
    (map (fun tt => if tt_id tt =? tier_id
                    then set_sold_quantity tt (tt_sold_quantity tt + n)
                    else tt)
         (ticket_tiers d)).

(** [UPDATE ticket_tiers tt JOIN tickets t ON tt.id = t.ticket_tier_id
     SET tt.sold_quantity = tt.sold_quantity - 1 WHERE t.order_id = ?].
    MySQL's multiple-table UPDATE changes a row once, however many rows of
    the join it appears in (Reference Manual, "UPDATE Statement": "Each
    matching row is updated once, even if it matches the conditions
    multiple times"): a tier that some ticket of the order points to loses
    one, the others are left alone. *)
Definition release_reserved_tickets (order_id : Z) (d : db) : db :=
  with_ticket_tiers d
    (map (fun tt =>
            if existsb (fun t => (tt_id tt =? t_ticket_tier_id t)
                                 && (t_order_id t =? order_id))
                       (tickets d)
            then set_sold_quantity tt (tt_sold_quantity tt - 1)
            else tt)
         (ticket_tiers d)).

(** [UPDATE orders SET status = ? WHERE id = ?]. *)
Definition set_order_status (s : order_status) (order_id : Z) (d : db) : db :=
  with_orders d
    (map (fun o => if o_id o =? order_id then set_status o s else o)
         (orders d)).

(** [publishMessage(queueName, message)]. *)
Definition publishMessage (queueName : string) (m : message) : M unit :=
  call QueueError ;;
  fun _ w =>
    ({| w_db := w_db w; w_snapshot := w_snapshot w; w_calls := w_calls w;
        w_queue := (w_queue w ++ [(queueName, m)])%list |}, Val tt).

End Sql.
Export Sql.

(** ** routes/orders.js *)

Module Orders.

Definition string_of_Z (z : Z) : string :=
  NilZero.string_of_int (Z.to_int z).

Record line_item := {
  tierId : Z;
  quantity : Z;
  attendeeName : string;
  attendeeEmail : string
}.

(** [req.body] of [POST /api/orders]. *)
Record order_request := {
  rq_eventId : Z;
  rq_tickets : list line_item;
  rq_billing : billing
}.

(** An element of [ticketTierUpdates]. *)
Record tier_update := {
  up_tierId : Z;
  up_quantity : Z;
  up_price : Z;
  up_name : string
}.

(** [SELECT * FROM ticket_tiers WHERE id = ? AND event_id = ?
     AND is_active = TRUE FOR UPDATE]. *)
Definition select_tier_for_update (tier_id event_id : Z) (d : db)
  : list ticket_tier :=
  filter (fun tt => (tt_id tt =? tier_id) && (tt_event_id tt =? event_id)
                    && tt_is_active tt)
         (ticket_tiers d).

(** [tier.sales_start_date && new Date(tier.sales_start_date) > now]. *)
Definition not_started (tier : ticket_tier) (now : Z) : bool :=
  match tt_sales_start_date tier with
  | Some start => start >? now
  | None => false
  end.

(** [tier.sales_end_date && new Date(tier.sales_end_date) < now]. *)
Definition has_ended (tier : ticket_tier) (now : Z) : bool :=
  match tt_sales_end_date tier with
  | Some stop => stop <? now
  | None => false
  end.

Definition msg_tier_not_found (ticket : line_item) : string :=
  "Ticket tier " ++ string_of_Z (tierId ticket) ++ " not found or inactive".

Definition msg_not_enough (tier : ticket_tier) : string :=
  "Not enough tickets available for " ++ tt_name tier ++ ". Available: "
    ++ string_of_Z (tt_quantity tier - tt_sold_quantity tier).

Definition msg_not_started (tier : ticket_tier) : string :=
  "Sales for " ++ tt_name tier ++ " haven't started yet".

Definition msg_ended (tier : ticket_tier) : string :=
  "Sales for " ++ tt_name tier ++ " have ended".

(** The first loop, [for (const ticket of tickets)], with its two
    accumulators. *)
Fixpoint check_tickets (eventId : Z) (tickets : list line_item)
    (totalAmount : Z) (ticketTierUpdates : list tier_update)
  : M (Z * list tier_update) :=
  match tickets with
  | [] => ret (totalAmount, ticketTierUpdates)
  | ticket :: rest =>
      tiers <- query (select_tier_for_update (tierId ticket) eventId) ;;
      match tiers with
      | [] =>
          rollback ;; respond (failure 400 (msg_tier_not_found ticket))
      | tier :: _ =>
          if tt_sold_quantity tier + quantity ticket >? tt_quantity tier
          then rollback ;; respond (failure 400 (msg_not_enough tier))
          else
            now <- Date_now ;;
            if not_started tier now
            then rollback ;; respond (failure 400 (msg_not_started tier))
            else if has_ended tier now
            then rollback ;; respond (failure 400 (msg_ended tier))
            else
              check_tickets eventId rest
                (totalAmount + tt_price tier * quantity ticket)
                (ticketTierUpdates ++
                 [{| up_tierId := tt_id tier; up_quantity := quantity ticket;
                     up_price := tt_price tier; up_name := tt_name tier |}])%list
      end
  end.

(** [for (const update of ticketTierUpdates)]. *)
Fixpoint update_sold_quantities (ticketTierUpdates : list tier_update)
  : M unit :=
  match ticketTierUpdates with
  | [] => ret tt
  | u :: rest =>
      update (add_sold (up_quantity u) (up_tierId u)) ;;
      update_sold_quantities rest
  end.

(** [for (let i = 0; i < ticket.quantity; i++)]: [n] rounds are left.
    (The [ticketRecords] array the source fills here is never read.) *)
Fixpoint insert_tickets (n : nat) (orderId : Z) (ticket : line_item)
  : M unit :=
  match n with
  | O => ret tt
  | S n' =>
      uuid <- random ;;
      _ <- insert_ticket orderId (tierId ticket) ("TKT-" ++ uuid)
             (attendeeName ticket) (attendeeEmail ticket) ;;
      insert_tickets n' orderId ticket
  end.

(** The second [for (const ticket of tickets)]. *)
Fixpoint create_ticket_records (tickets : list line_item) (orderId : Z)
  : M unit :=
  match tickets with
  | [] => ret tt
  | ticket :: rest =>
      insert_tickets (Z.to_nat (quantity ticket)) orderId ticket ;;
      create_ticket_records rest orderId
  end.

(** [createCheckoutSession(...)]: the session's URL, or what Stripe
    threw. *)
Definition createCheckoutSession : M string :=
  call StripeError ;; fun e w => (w, Val (env_checkout_url e)).

(** The [try] block of [router.post('/')]; [user_id] is [req.user.id]. *)
Definition create_order_try (user_id : Z) (req : order_request)
  : M response :=
  beginTransaction ;;
  let eventId := rq_eventId req in
  let tickets := rq_tickets req in
  events <- query (fun d => filter (fun ev => (e_id ev =? eventId)
                                              && is_published ev)
                                   (events d)) ;;
  match events with
  | [] => rollback ;; respond (failure 404 "Event not found or not available")
  | event :: _ =>
      '(totalAmount, ticketTierUpdates) <-
         check_tickets eventId tickets 0 [] ;;
      now <- Date_now ;;
      rnd <- random ;;
      let orderNumber := "ORD-" ++ string_of_Z now ++ "-" ++ rnd in
      orderId <- insert_order user_id eventId orderNumber totalAmount
                   (rq_billing req) ;;
      update_sold_quantities ticketTierUpdates ;;
      create_ticket_records tickets orderId ;;
      commit ;;
      url <- createCheckoutSession ;;
      ret {| status := 201;
             payload := Json true "Order created successfully"
                          (Some {| orderId := orderId;
                                   orderNumber := orderNumber;
                                   checkoutUrl := url;
                                   totalAmount := totalAmount |}) |}
  end.

(** [router.post('/')] after the middlewares: the [try] block and its
    [catch]. *)
Definition create_order (user_id : Z) (req : order_request) : M response :=
  try_catch
    (create_order_try user_id req)
    (fun error =>
       rollback ;; ret (failure 500 "Failed to create order")).

(** [router.post('/:id/cancel')]. *)
Definition cancel_order (user_id id : Z) : M response :=
  try_catch
    (beginTransaction ;;
     orders <- query (fun d => filter (fun o => (o_id o =? id)
                                                && (o_user_id o =? user_id))
                                      (orders d)) ;;
     match orders with
     | [] => rollback ;; respond (failure 404 "Order not found")
     | order :: _ =>
         if negb (order_status_eqb (o_status order) pending)
         then rollback ;;
              respond (failure 400 "Only pending orders can be cancelled")
         else
           update (set_order_status cancelled id) ;;
           update (release_reserved_tickets id) ;;
           commit ;;
           ret (success 200 "Order cancelled successfully")
     end)
    (fun error =>
       rollback ;; ret (failure 500 "Failed to cancel order")).

End Orders.
Export Orders.

(** ** config/stripe.js *)

Module Stripe.

Record stripe_event := { ev_type : string; ev_object : stripe_object }.

(** [req] of the webhook route: the raw body and the [stripe-signature]
    header. *)
Record webhook_request := {
  wh_body : string;
  wh_signature : option string
}.

(** [UPDATE orders SET status = "paid", stripe_payment_intent_id = ?
     WHERE id = ?]. *)
Definition mark_paid (intent : string) (order_id : Z) (d : db) : db :=
  with_orders d
    (map (fun o => if o_id o =? order_id
                   then set_payment_intent (set_status o paid) intent
                   else o)
         (orders d)).

(** [UPDATE orders SET stripe_session_id = ? WHERE id = ?]. *)
Definition record_session (session : string) (order_id : Z) (d : db) : db :=
  with_orders d
    (map (fun o => if o_id o =? order_id then set_session o session else o)
         (orders d)).

(** [SELECT o.*, u.first_name, u.last_name, u.email, e.title as event_title
     FROM orders o JOIN users u ON o.user_id = u.id
     JOIN events e ON o.event_id = e.id WHERE o.id = ?]. *)
Definition select_order_details (order_id : Z) (d : db)
  : list order_details :=
  flat_map (fun o =>
    if o_id o =? order_id then
      flat_map (fun u =>
        if u_id u =? o_user_id o then
          flat_map (fun ev =>
            if e_id ev =? o_event_id o then
              [ {| od_order := o; od_first_name := u_first_name u;
                   od_last_name := u_last_name u; od_email := u_email u;
                   od_event_title := e_title ev |} ]
            else []) (events d)
        else []) (users d)
    else []) (orders d).

(** [SELECT t.*, tt.name as tier_name, tt.price FROM tickets t
     JOIN ticket_tiers tt ON t.ticket_tier_id = tt.id
     WHERE t.order_id = ?]. *)
Definition select_ticket_details (order_id : Z) (d : db)
  : list ticket_details :=
  flat_map (fun t =>
    if t_order_id t =? order_id then
      flat_map (fun tt =>
        if tt_id tt =? t_ticket_tier_id t then
          [ {| td_ticket := t; td_tier_name := tt_name tt;
               td_price := tt_price tt |} ]
        else []) (ticket_tiers d)
    else []) (tickets d).

(** Each handler logs what it catches and returns normally. *)
Definition handlePaymentSuccess (paymentIntent : stripe_object) : M unit :=
  try_catch
    (let orderId := so_orderId paymentIntent in
     update (mark_paid (so_id paymentIntent) orderId) ;;
     orders <- query (select_order_details orderId) ;;
     match orders with
     | order :: _ =>
         tickets <- query (select_ticket_details orderId) ;;
         publishMessage "email_notifications"
           (OrderConfirmation (od_email order) order tickets paymentIntent) ;;
         publishMessage "ticket_generation"
           (TicketGeneration orderId tickets)
     | [] => ret tt
     end)
    (fun error => ret tt).

Definition handlePaymentFailure (paymentIntent : stripe_object) : M unit :=
  try_catch
    (let orderId := so_orderId paymentIntent in
     update (set_order_status cancelled orderId) ;;
     update (release_reserved_tickets orderId))
    (fun error => ret tt).

Definition handleCheckoutCompleted (session : stripe_object) : M unit :=
  try_catch
    (update (record_session (so_id session) (so_orderId session)))
    (fun error => ret tt).

Definition handlePaymentCanceled (paymentIntent : stripe_object) : M unit :=
  try_catch
    (let orderId := so_orderId paymentIntent in
     update (set_order_status cancelled orderId) ;;
     update (release_reserved_tickets orderId))
    (fun error => ret tt).

(** [switch (event.type)]. *)
Definition dispatch (event : stripe_event) : M unit :=
  if String.eqb (ev_type event) "payment_intent.succeeded"
  then handlePaymentSuccess (ev_object event)
  else if String.eqb (ev_type event) "payment_intent.payment_failed"
  then handlePaymentFailure (ev_object event)
  else if String.eqb (ev_type event) "checkout.session.completed"
  then handleCheckoutCompleted (ev_object event)
  else if String.eqb (ev_type event) "payment_intent.canceled"
  then handlePaymentCanceled (ev_object event)
  else ret tt.

Section Webhook.

(** [stripe.webhooks.constructEvent(body, sig, secret)] belongs to the
    Stripe library: it gives the event, or throws an error whose
    message is on the right. *)
Variable constructEvent :
  string -> option string -> string -> stripe_event + string.
Variable STRIPE_WEBHOOK_SECRET : string.

Definition handleWebhook (req : webhook_request) : M response :=
  match constructEvent (wh_body req) (wh_signature req)
                       STRIPE_WEBHOOK_SECRET with
  | inr message =>
      respond {| status := 400;
                 payload := Text ("Webhook Error: " ++ message) |}
  | inl event =>
      try_catch
        (dispatch event ;;
         ret {| status := 200; payload := Received |})
        (fun error =>
           ret {| status := 500;
                  payload := JsonError "Webhook handler failed" |})
  end.

(** [router.post('/webhook/stripe')]. *)
Definition stripe_webhook (req : webhook_request) : M response :=
  try_catch
    (handleWebhook req)
    (fun error =>
       ret {| status := 500;
              payload := JsonError "Webhook handler failed" |}).

End Webhook.

End Stripe.
Export Stripe.

(** ** services/messageProcessors.js *)

Module Processors.

Inductive payment_message :=
| payment_success (data : payment_data)
| payment_failed (data : payment_data)
| refund_processed (data : payment_data)
| unknown_type (type : string) (data : payment_data).

(** [processPaymentWebhook]: what it catches it logs and throws again. *)
Definition processPaymentWebhook (message : payment_message) : M unit :=
  try_catch
    (match message with
     | payment_success data =>
         update (set_order_status paid (pd_orderId data)) ;;
         publishMessage "email_notifications"
           (OrderConfirmationFor (pd_email data) data)
     | payment_failed data =>
         update (set_order_status cancelled (pd_orderId data)) ;;
         update (release_reserved_tickets (pd_orderId data))
     | refund_processed data =>
         update (set_order_status refunded (pd_orderId data))
     | unknown_type _ _ => ret tt
     end)
    (fun error => throw error).

End Processors.
Export Processors.

(** ** routes/tickets.js: the tier routes *)

Module Tiers.

(** [req.user]. *)
Record requester := { user_id : Z; user_role : role }.

(** [req.body] of [PUT /tiers/:id]; an absent field is [None]. *)
Record tier_patch := {
  p_name : option string;
  p_description : option string;
  p_price : option Z;
  p_quantity : option Z;
  p_salesStartDate : option Z;
  p_salesEndDate : option Z;
  p_isActive : option bool
}.

(** [SELECT tt.*, e.organizer_id FROM ticket_tiers tt
     JOIN events e ON tt.event_id = e.id WHERE tt.id = ?]. *)
Definition select_tier_with_organizer (id : Z) (d : db)
  : list (ticket_tier * Z) :=
  flat_map (fun tt =>
    if tt_id tt =? id then
      flat_map (fun ev =>
        if e_id ev =? tt_event_id tt then [ (tt, e_organizer_id ev) ]
        else []) (events d)
    else []) (ticket_tiers d).

(** [UPDATE ticket_tiers SET name = COALESCE(?, name), ... WHERE id = ?]. *)
Definition patch_tier (p : tier_patch) (tt : ticket_tier) : ticket_tier :=
  {| tt_id := tt_id tt; tt_event_id := tt_event_id tt;
     tt_name := coalesce (p_name p) (tt_name tt);
     tt_description := coalesce_opt (p_description p) (tt_description tt);
     tt_price := coalesce (p_price p) (tt_price tt);
     tt_quantity := coalesce (p_quantity p) (tt_quantity tt);
     tt_sold_quantity := tt_sold_quantity tt;
     tt_sales_start_date :=
       coalesce_opt (p_salesStartDate p) (tt_sales_start_date tt);
     tt_sales_end_date :=
       coalesce_opt (p_salesEndDate p) (tt_sales_end_date tt);
     tt_is_active := coalesce (p_isActive p) (tt_is_active tt) |}.

Definition update_tier_row (id : Z) (p : tier_patch) (d : db) : db :=
  with_ticket_tiers d
    (map (fun tt => if tt_id tt =? id then patch_tier p tt else tt)
         (ticket_tiers d)).

(** [DELETE FROM ticket_tiers WHERE id = ?]; the tickets of the tier go
    with it ([ON DELETE CASCADE]). *)
Definition delete_tier_row (id : Z) (d : db) : db :=
  with_tickets
    (with_ticket_tiers d
       (filter (fun tt => negb (tt_id tt =? id)) (ticket_tiers d)))
    (filter (fun t => negb (t_ticket_tier_id t =? id)) (tickets d)).

(** [tiers[0].organizer_id !== req.user.id && req.user.role !== 'admin']. *)
Definition access_denied (organizer_id : Z) (user : requester) : bool :=
  negb (organizer_id =? user_id user) && negb (is_admin (user_role user)).

(** [router.put('/tiers/:id')] after the middlewares. *)
Definition update_tier (user : requester) (id : Z) (p : tier_patch)
  : M response :=
  try_catch
    (tiers <- query (select_tier_with_organizer id) ;;
     match tiers with
     | [] => respond (failure 404 "Ticket tier not found")
     | (tier, organizer_id) :: _ =>
         if access_denied organizer_id user
         then respond (failure 403 "Access denied")
         else if tt_sold_quantity tier >? 0
         then respond (failure 400 "Cannot modify tier with sold tickets")
         else
           update (update_tier_row id p) ;;
           ret (success 200 "Ticket tier updated successfully")
     end)
    (fun error => ret (failure 500 "Failed to update ticket tier")).

(** [router.delete('/tiers/:id')] after the middlewares. *)
Definition delete_tier (user : requester) (id : Z) : M response :=
  try_catch
    (tiers <- query (select_tier_with_organizer id) ;;
     match tiers with
     | [] => respond (failure 404 "Ticket tier not found")
     | (tier, organizer_id) :: _ =>
         if access_denied organizer_id user
         then respond (failure 403 "Access denied")
         else if tt_sold_quantity tier >? 0
         then respond (failure 400 "Cannot delete tier with sold tickets")
         else
           update (delete_tier_row id) ;;
           ret (success 200 "Ticket tier deleted successfully")
     end)
    (fun error => ret (failure 500 "Failed to delete ticket tier")).

End Tiers.
Export Tiers.

(** ** middleware/validation.js: [validateOrderCreation] *)

Module Validation.

(** What express-validator brings: its e-mail test and normaliser, [trim],
    and the two regular expressions of the chains, [/^[a-zA-Z\s'-]+$/] and
    [/^[A-Z0-9\s-]{3,10}$/i]. *)
Record validator_lib := {
  isEmail : string -> bool;
  normalizeEmail : string -> string;
  trim : string -> string;
  matches_name : string -> bool;
  matches_postal_code : string -> bool
}.

Definition isInt (min : Z) (max : option Z) (v : Z) : bool :=
  (min <=? v) && match max with Some m => v <=? m | None => true end.

Definition isLength (min max : nat) (s : string) : bool :=
  (min <=? String.length s)%nat && (String.length s <=? max)%nat.

Definition isArray {A} (min max : nat) (l : list A) : bool :=
  (min <=? List.length l)%nat && (List.length l <=? max)%nat.

Definition check (ok : bool) (field message : string)
  : list validation_error :=
  if ok then [] else [ {| path := field; msg := message |} ].

Definition optional {A} (x : option A) (f : A -> list validation_error)
  : list validation_error :=
  match x with Some v => f v | None => [] end.

(** The instances of a wildcard field, [tickets[i].field]. *)
Definition item_path (i : nat) (field : string) : string :=
  "tickets[" ++ string_of_Z (Z.of_nat i) ++ "]." ++ field.

Definition each (tickets : list line_item)
    (f : nat -> line_item -> list validation_error)
  : list validation_error :=
  flat_map (fun it => f (fst it) (snd it))
           (combine (seq 0 (List.length tickets)) tickets).

(** The sanitizers of the chains rewrite [req.body]. *)
Definition sanitize_item (lib : validator_lib) (t : line_item) : line_item :=
  {| tierId := tierId t; quantity := quantity t;
     attendeeName := trim lib (attendeeName t);
     attendeeEmail := normalizeEmail lib (attendeeEmail t) |}.

Definition sanitize (lib : validator_lib) (req : order_request)
  : order_request :=
  let b := rq_billing req in
  {| rq_eventId := rq_eventId req;
     rq_tickets := map (sanitize_item lib) (rq_tickets req);
     rq_billing :=
       {| billing_email := normalizeEmail lib (billing_email b);
          billing_name := trim lib (billing_name b);
          billing_address := option_map (trim lib) (billing_address b);
          billing_city := option_map (trim lib) (billing_city b);
          billing_state := billing_state b;
          billing_country := billing_country b;
          billing_postal_code :=
            option_map (trim lib) (billing_postal_code b) |} |}.

(** The chains before the custom one, in the order they are listed. *)
Definition field_errors (lib : validator_lib) (req : order_request)
  : list validation_error :=
  let b := rq_billing req in
  let tickets := rq_tickets req in
  (check (isInt 1 None (rq_eventId req)) "eventId"
     "Valid event ID is required"
   ++ check (isArray 1 20 tickets) "tickets"
     "At least one ticket is required, maximum 20 tickets per order"
   ++ each tickets (fun i t =>
        check (isInt 1 None (tierId t)) (item_path i "tierId")
          "Valid ticket tier ID is required")
   ++ each tickets (fun i t =>
        check (isInt 1 (Some 10) (quantity t)) (item_path i "quantity")
          "Ticket quantity must be between 1 and 10")
   ++ each tickets (fun i t =>
        (check (isLength 2 100 (trim lib (attendeeName t)))
           (item_path i "attendeeName")
           "Attendee name must be between 2 and 100 characters"
         ++ check (matches_name lib (trim lib (attendeeName t)))
           (item_path i "attendeeName")
           "Attendee name can only contain letters, spaces, hyphens, and apostrophes")%list)
   ++ each tickets (fun i t =>
        check (isEmail lib (attendeeEmail t)) (item_path i "attendeeEmail")
          "Valid attendee email is required")
   ++ check (isEmail lib (billing_email b)) "billingEmail"
     "Valid billing email is required"
   ++ check (isLength 2 100 (trim lib (billing_name b))) "billingName"
     "Billing name must be between 2 and 100 characters"
   ++ optional (billing_address b) (fun v =>
        check (isLength 0 500 (trim lib v)) "billingAddress"
          "Billing address cannot exceed 500 characters")
   ++ optional (billing_city b) (fun v =>
        check (isLength 0 100 (trim lib v)) "billingCity"
          "Billing city cannot exceed 100 characters")
   ++ optional (billing_postal_code b) (fun v =>
        check (matches_postal_code lib (trim lib v)) "billingPostalCode"
          "Invalid postal code format"))%list.

(** [SELECT id, price FROM ticket_tiers WHERE id IN (...)]. *)
Definition select_prices (tierIds : list Z) (d : db) : list ticket_tier :=
  filter (fun tt => existsb (Z.eqb (tt_id tt)) tierIds) (ticket_tiers d).

(** [for (const ticket of tickets)] of the custom validator: a ticket
    whose tier is not among the rows adds nothing. *)
Definition quoted_total (tickets : list line_item) (tiers : list ticket_tier)
  : Z :=
  fold_left (fun totalAmount ticket =>
               match find (fun t => tt_id t =? tierId ticket) tiers with
               | Some tier => totalAmount + tt_price tier * quantity ticket
               | None => totalAmount
               end)
            tickets 0.

(** $10,000, in cents. *)
Definition max_order_total : Z := 10000 * 100.

(** The custom validator of [tickets].  Whatever it throws, the store's
    error included, becomes an error of the field (the text of the
    driver's error is not modelled). *)
Definition check_order_total (tickets : list line_item)
  : M (list validation_error) :=
  try_catch
    (totalAmount <-
       match map tierId tickets with
       | [] => ret 0
       | tierIds =>
           tiers <- query (select_prices tierIds) ;;
           ret (quoted_total tickets tiers)
       end ;;
     ret (check (negb (totalAmount >? max_order_total)) "tickets"
            "Order total cannot exceed $10,000"))
    (fun error => ret [ {| path := "tickets"; msg := "" |} ]).

(** The chains, and the request as they leave it. *)
Definition validateOrderCreation (lib : validator_lib) (req : order_request)
  : M (list validation_error * order_request) :=
  custom <- check_order_total (rq_tickets req) ;;
  ret ((field_errors lib req ++ custom)%list, sanitize lib req).

(** [handleValidationErrors]. *)
Definition handleValidationErrors (errors : list validation_error)
    (next : M response) : M response :=
  match errors with
  | [] => next
  | _ => respond {| status := 400; payload := ValidationFailed errors |}
  end.

(** [POST /api/orders] from the validator on. *)
Definition post_order (lib : validator_lib) (user_id : Z)
    (req : order_request) : M response :=
  '(errors, req') <- validateOrderCreation lib req ;;
  handleValidationErrors errors (create_order user_id req').

End Validation.
Export Validation.

(** ** Running the core *)

Module Core.

(** What the client received and the world the handler left. *)
Definition answer (m : M response) (e : env) (w : world)
  : world * option response :=
  match m e w with
  | (w', Val r) => (w', Some r)
  | (w', Ret r) => (w', Some r)
  | (w', Thrown _) => (w', None)
  end.

Definition after {A} (m : M A) (e : env) (w : world) : world :=
  fst (m e w).

(** The operations that write to the tables of the core. *)
Inductive operation :=
| OpCreateOrder (lib : validator_lib) (user_id : Z) (req : order_request)
| OpCancelOrder (user_id id : Z)
| OpStripeEvent (event : stripe_event)
| OpPaymentMessage (m : payment_message)
| OpUpdateTier (user : requester) (id : Z) (p : tier_patch)
| OpDeleteTier (user : requester) (id : Z).

Definition perform (op : operation) (e : env) (w : world) : world :=
  match op with
  | OpCreateOrder lib user_id req => after (post_order lib user_id req) e w
  | OpCancelOrder user_id id => after (cancel_order user_id id) e w
  | OpStripeEvent event => after (dispatch event) e w
  | OpPaymentMessage m => after (processPaymentWebhook m) e w
  | OpUpdateTier user id p => after (update_tier user id p) e w
  | OpDeleteTier user id => after (delete_tier user id) e w
  end.

(** [0 <= sold_quantity <= quantity], for every tier. *)
Definition tier_within_capacity (tt : ticket_tier) : bool :=
  (0 <=? tt_sold_quantity tt) && (tt_sold_quantity tt <=? tt_quantity tt).

Definition ledger_ok (d : db) : bool :=
  forallb tier_within_capacity (ticket_tiers d).

(** A world between two requests: no transaction is open. *)
Definition start (d : db) : world :=
  {| w_db := d; w_snapshot := None; w_calls := 0; w_queue := [] |}.

(** Operations one after the other, each under its own conditions. *)
Definition perform_all (later : list (operation * env)) (w : world) : world :=
  fold_left (fun w oe => perform (fst oe) (snd oe) w) later w.

End Core.
Export Core.

(** ** The specification's words, to compare the code with *)

Module Spec.

(** Section 4.1, step 3: per tier, in this order, the tier belongs to the
    event and is active; [sold_quantity + requestedQuantity <= quantity];
    the current time is within the sales window when it is set. *)
Inductive verdict :=
| Accepted (tier : ticket_tier)
| TierMissing
| CapacityExceeded (tier : ticket_tier) (remaining : Z)
| SalesWindowClosed (tier : ticket_tier).

Definition within_sales_window (tier : ticket_tier) (now : Z) : bool :=
  match tt_sales_start_date tier with
  | Some start => start <=? now
  | None => true
  end
  && match tt_sales_end_date tier with
     | Some stop => now <=? stop
     | None => true
     end.

Definition judge (d : db) (eventId now : Z) (ticket : line_item) : verdict :=
  match find (fun tt => (tt_id tt =? tierId ticket)
                        && (tt_event_id tt =? eventId) && tt_is_active tt)
             (ticket_tiers d) with
  | None => TierMissing
  | Some tier =>
      if tt_sold_quantity tier + quantity ticket <=? tt_quantity tier
      then if within_sales_window tier now
           then Accepted tier
           else SalesWindowClosed tier
      else CapacityExceeded tier (tt_quantity tier - tt_sold_quantity tier)
  end.

Definition accepted (d : db) (eventId now : Z) (ticket : line_item) : Prop :=
  exists tier, judge d eventId now ticket = Accepted tier.

(** The same three checks for a tier of a request, as Section 4.1 words
    them: [requestedQuantity] is what the request asks of the tier, over
    all its line items. *)
Definition requested_quantity (tier_id : Z) (tickets : list line_item) : Z :=
  fold_right Z.add 0
    (map quantity (filter (fun t => tierId t =? tier_id) tickets)).

Definition judge_tier (d : db) (eventId now : Z) (tickets : list line_item)
    (tier_id : Z) : verdict :=
  match find (fun tt => (tt_id tt =? tier_id)
                        && (tt_event_id tt =? eventId) && tt_is_active tt)
             (ticket_tiers d) with
  | None => TierMissing
  | Some tier =>
      if tt_sold_quantity tier + requested_quantity tier_id tickets
         <=? tt_quantity tier
      then if within_sales_window tier now
           then Accepted tier
           else SalesWindowClosed tier
      else CapacityExceeded tier (tt_quantity tier - tt_sold_quantity tier)
  end.

(** Section 4.1, step 4: the sum of [tier.price * requestedQuantity], at
    the price of the locked row. *)
Definition locked_price (d : db) (eventId : Z) (ticket : line_item) : Z :=
  match select_tier_for_update (tierId ticket) eventId d with
  | tier :: _ => tt_price tier
  | [] => 0
  end.

Definition reservation_total (d : db) (eventId : Z)
    (tickets : list line_item) : Z :=
  fold_right Z.add 0
    (map (fun t => locked_price d eventId t * quantity t) tickets).

(** What an order is charged, row by row. *)
Definition order_totals (d : db) : list (Z * Z) :=
  map (fun o => (o_id o, o_total_amount o)) (orders d).


(** Section 7: a refusal is a client error that names the tier, and for a
    capacity violation what is left of it. *)
Definition refusal_answer (t : line_item) (v : verdict) (r : option response)
  : Prop :=
  match v with
  | Accepted _ => True
  | TierMissing => r = Some (failure 400 (msg_tier_not_found t))
  | CapacityExceeded tier remaining =>
      r = Some (failure 400
                  ("Not enough tickets available for " ++ tt_name tier
                   ++ ". Available: " ++ string_of_Z remaining))
  | SalesWindowClosed tier =>
      r = Some (failure 400 (msg_not_started tier)) \/
      r = Some (failure 400 (msg_ended tier))
  end.

(** What one delivery of a success event publishes, given the tables it
    leaves. *)
Definition confirmation_messages (paymentIntent : stripe_object) (d : db)
  : list (string * message) :=
  match select_order_details (so_orderId paymentIntent) d with
  | order :: _ =>
      let tickets := select_ticket_details (so_orderId paymentIntent) d in
      [ ("email_notifications",
         OrderConfirmation (od_email order) order tickets paymentIntent);
        ("ticket_generation",
         TicketGeneration (so_orderId paymentIntent) tickets) ]
  | [] => []
  end.

Definition prefix_of {X} (l l' : list X) : Prop :=
  exists extra, l' = (l ++ extra)%list.

End Spec.
Export Spec.

(** ** What the proofs follow through a handler *)

Module Invariants.

(** The world after one more outgoing call. *)
Definition tick (w : world) : world :=
  {| w_db := w_db w; w_snapshot := w_snapshot w; w_calls := S (w_calls w);
     w_queue := w_queue w |}.

(** The response a statement left the function with, if it did. *)
Definition returned {A} (o : outcome A) : option response :=
  match o with Ret r => Some r | _ => None end.

(** A transaction is open, and a rollback brings back the rows [d0]. *)
Definition in_tx (d0 : db) (w : world) : Prop :=
  exists s, w_snapshot w = Some s /\ same_rows d0 s.

(** No transaction is open, and the rows are those of [d0]. *)
Definition rolled_back (d0 : db) (w : world) : Prop :=
  w_snapshot w = None /\ same_rows d0 (w_db w).

(** An early [return] of the reservation is a refusal. *)
Definition refusal (r : response) : Prop := status r <> 201.

(** A step of an open transaction: it goes on inside the transaction, or
    it has left the function with everything undone. *)
Definition tx_safe (d0 : db) {A} (m : M A) : Prop :=
  forall e w, in_tx d0 w ->
    match m e w with
    | (w', Ret r) => rolled_back d0 w' /\ refusal r
    | (w', _) => in_tx d0 w'
    end.

(** The rest of a handler that ends the transaction: when it leaves early
    everything is undone, when the store fails the transaction is still
    open, and its value is the answer 201. *)
Definition tx_closing (d0 : db) (m : M response) : Prop :=
  forall e w, in_tx d0 w ->
    match m e w with
    | (w', Ret r) => rolled_back d0 w' /\ refusal r
    | (w', Thrown StoreError) => in_tx d0 w'
    | (w', Thrown _) => True
    | (w', Val r) => status r = 201
    end.

(** The steps that leave the orders alone, however they end. *)
Definition keeps_orders {A} (m : M A) : Prop :=
  forall e w, orders (w_db (fst (m e w))) = orders (w_db w)
              /\ w_snapshot (fst (m e w)) = w_snapshot w.

(** The totals [t0] are still there, in the tables and in what a rollback
    would bring back. *)
Definition totals_kept (t0 : list (Z * Z)) (w : world) : Prop :=
  prefix_of t0 (order_totals (w_db w)) /\
  forall s, w_snapshot w = Some s -> prefix_of t0 (order_totals s).

Definition keeps_totals {A} (m : M A) : Prop :=
  forall t0 e w, totals_kept t0 w -> totals_kept t0 (fst (m e w)).

(** The statements of a handler never leave it with [return res...]. *)
Definition no_return {A} (m : M A) : Prop :=
  forall e w r, snd (m e w) <> Ret r.

End Invariants.
Export Invariants.

(** ** Concrete runs *)

Module Scenario.

Definition no_fault : nat -> bool := fun _ => false.

Definition quiet (now : Z) : env :=
  {| env_now := now; env_fault := no_fault;
     env_random := fun n => string_of_Z (Z.of_nat n);
     env_checkout_url := "https://checkout.stripe.com/c/pay/cs_test_a1" |}.

Definition regular : ticket_tier :=
  {| tt_id := 1; tt_event_id := 1; tt_name := "Regular";
     tt_description := None; tt_price := 14900; tt_quantity := 10;
     tt_sold_quantity := 0; tt_sales_start_date := None;
     tt_sales_end_date := None; tt_is_active := true |}.

Definition john : billing :=
  {| billing_email := "customer@ticketing.com"; billing_name := "John Doe";
     billing_address := Some "12 Harbour Street";
     billing_city := Some "Nairobi"; billing_state := Some "Nairobi";
     billing_country := Some "Kenya"; billing_postal_code := Some "00100" |}.

(** One published event of organizer 2, one tier of ten seats, nothing
    sold; user 3 is a customer, user 4 another organizer. *)
Definition fresh : db :=
  {| users := [ {| u_id := 2; u_email := "organizer@ticketing.com";
                   u_first_name := "Event"; u_last_name := "Organizer";
                   u_role := organizer |};
                {| u_id := 3; u_email := "customer@ticketing.com";
                   u_first_name := "John"; u_last_name := "Doe";
                   u_role := customer |} ];
     events := [ {| e_id := 1; e_organizer_id := 2;
                    e_title := "Tech Conference 2024";
                    e_status := published |} ];
     ticket_tiers := [ regular ];
     orders := []; tickets := [];
     next_order_id := 1; next_ticket_id := 1 |}.

Definition seats (tier n : Z) : line_item :=
  {| tierId := tier; quantity := n; attendeeName := "John Doe";
     attendeeEmail := "customer@ticketing.com" |}.

Definition request (tickets : list line_item) : order_request :=
  {| rq_eventId := 1; rq_tickets := tickets; rq_billing := john |}.

(** A validator library that lets every string through. *)
Definition lenient : validator_lib :=
  {| isEmail := fun _ => true; normalizeEmail := fun s => s;
     trim := fun s => s; matches_name := fun _ => true;
     matches_postal_code := fun _ => true |}.

Definition intent : stripe_object := {| so_id := "pi_3Nx"; so_orderId := 1 |}.

(** User 3 has reserved [n] seats of the tier: order 1, pending. *)
Definition reserved (n : Z) : world :=
  after (post_order lenient 3 (request [seats 1 n])) (quiet 1000) (start fresh).

(** ... and then the payment went through: order 1, paid. *)
Definition settled (n : Z) : world :=
  after (handlePaymentSuccess intent) (quiet 2000) (reserved n).

(** A [constructEvent] that accepts the signature ["t=1,v1=ok"] only, and
    then reads the event type off the body. *)
Definition constructEvent (body : string) (sig : option string)
    (secret : string) : stripe_event + string :=
  match sig with
  | Some s =>
      if String.eqb s "t=1,v1=ok"
      then inl {| ev_type := body; ev_object := intent |}
      else inr "No signatures found matching the expected signature for payload"
  | None => inr "No stripe-signature header value was provided"
  end.

Definition signed (body : string) : webhook_request :=
  {| wh_body := body; wh_signature := Some "t=1,v1=ok" |}.

Definition forged (body : string) : webhook_request :=
  {| wh_body := body; wh_signature := Some "t=1,v1=bad" |}.

(** The same conditions, but the outgoing call number [k] fails. *)
Definition flaky (now : Z) (k : nat) : env :=
  {| env_now := now; env_fault := fun n => Nat.eqb n k;
     env_random := fun n => string_of_Z (Z.of_nat n);
     env_checkout_url := "https://checkout.stripe.com/c/pay/cs_test_a1" |}.

(** The route alone, on the fresh tables: one seat for user 3. *)
Definition booked : world :=
  fst (answer (create_order 3 (request [seats 1 1])) (quiet 1000) (start fresh)).

Definition receipt : response :=
  {| status := 201;
     payload := Json true "Order created successfully"
                  (Some {| orderId := 1; orderNumber := "ORD-1000-3";
                           checkoutUrl := "https://checkout.stripe.com/c/pay/cs_test_a1";
                           totalAmount := 14900 |}) |}.

Definition the_organizer : requester := {| user_id := 2; user_role := organizer |}.

(** User 4, an organizer of other events. *)
Definition stranger : requester := {| user_id := 4; user_role := organizer |}.

Definition raise_price : tier_patch :=
  {| p_name := None; p_description := None; p_price := Some 19900;
     p_quantity := None; p_salesStartDate := None; p_salesEndDate := None;
     p_isActive := None |}.

(** What may come after a reservation: the buyer cancels, the price is
    raised, a success event arrives all the same, the payment is reported
    failed. *)
Definition aftermath : list (operation * env) :=
  [ (OpCancelOrder 3 1, quiet 1500);
    (OpUpdateTier the_organizer 1 raise_price, quiet 2000);
    (OpStripeEvent {| ev_type := "payment_intent.succeeded";
                      ev_object := intent |}, quiet 2500);
    (OpPaymentMessage (payment_failed {| pd_orderId := 1;
                                         pd_email := "customer@ticketing.com" |}),
     quiet 3000) ].


End Scenario.

(** * The rest of the core's code

    The routes, handlers and helpers that stand beside those above in the
    same files: the ticket check-in route, the ticket-generation consumer
    and the queue's delivery loop, and the request sanitizer; then the
    order route on quantities as the body carries them, and the tier update
    among other requests. *)

(** ** What a reservation asks of each tier *)

Module Reservation.

(** The seats a request asks of the tier [id], over all its line items. *)
Definition requested (id : Z) (tickets : list line_item) : Z :=
  fold_right Z.add 0
    (map quantity (filter (fun t => tierId t =? id) tickets)).

(** The ticket rows a request asks for: one per seat. *)
Definition seats_requested (tickets : list line_item) : nat :=
  fold_right Nat.add 0%nat (map (fun t => Z.to_nat (quantity t)) tickets).

(** A tier row once the request's seats are on it. *)
Definition booked_tier (tickets : list line_item) (tt : ticket_tier)
  : ticket_tier :=
  set_sold_quantity tt (tt_sold_quantity tt + requested (tt_id tt) tickets).

(** A ticket row as [INSERT INTO tickets] makes it for the order. *)
Definition issued_for (orderId : Z) (tickets : list line_item) (t : ticket)
  : Prop :=
  t_order_id t = orderId /\ t_status t = active /\ t_qr_code t = None /\
  exists item, In item tickets /\
               t_ticket_tier_id t = tierId item /\
               t_attendee_name t = attendeeName item /\
               t_attendee_email t = attendeeEmail item.

(** Some line item of the request is for the tier [id]. *)
Definition asked (id : Z) (tickets : list line_item) : bool :=
  existsb (fun t => tierId t =? id) tickets.

(** A tier row once the request's seats were put on it and the order's
    cancellation has released the tier. *)
Definition cancelled_tier (tickets : list line_item) (tt : ticket_tier)
  : ticket_tier :=
  set_sold_quantity tt
    (tt_sold_quantity tt + requested (tt_id tt) tickets
     - (if asked (tt_id tt) tickets then 1 else 0)).

End Reservation.
Export Reservation.

(** ** routes/tickets.js: the check-in route *)

Module Checkin.

(** A row of [SELECT t.*, tt.event_id, e.title as event_title,
     e.organizer_id FROM tickets t JOIN ticket_tiers tt ON
     t.ticket_tier_id = tt.id JOIN events e ON tt.event_id = e.id
     WHERE t.id = ?]. *)
Record ticket_view := {
  tv_ticket : ticket;
  tv_event_id : Z;
  tv_event_title : string;
  tv_organizer_id : Z
}.

Definition select_ticket_view (id : Z) (d : db) : list ticket_view :=
  flat_map (fun t =>
    if t_id t =? id then
      flat_map (fun tt =>
        if tt_id tt =? t_ticket_tier_id t then
          flat_map (fun ev =>
            if e_id ev =? tt_event_id tt then
              [ {| tv_ticket := t; tv_event_id := tt_event_id tt;
                   tv_event_title := e_title ev;
                   tv_organizer_id := e_organizer_id ev |} ]
            else []) (events d)
        else []) (ticket_tiers d)
    else []) (tickets d).

Definition set_ticket_status (t : ticket) (s : ticket_status) : ticket :=
  {| t_id := t_id t; t_order_id := t_order_id t;
     t_ticket_tier_id := t_ticket_tier_id t; t_ticket_code := t_ticket_code t;
     t_attendee_name := t_attendee_name t;
     t_attendee_email := t_attendee_email t;
     t_status := s; t_qr_code := t_qr_code t |}.

(** [UPDATE tickets SET status = "used", used_at = NOW() WHERE id = ?].
    The column [used_at] is not among the columns of the model, no more
    than the other time stamps of the rows. *)
Definition mark_used (id : Z) (d : db) : db :=
  with_tickets d
    (map (fun t => if t_id t =? id then set_ticket_status t used else t)
         (tickets d)).

(** [ticket.status === 'used']. *)
Definition is_used (t : ticket) : bool :=
  match t_status t with used => true | _ => false end.

(** [data.ticket] of the answer 200; [usedAt] is [new Date()]. *)
Record validated_ticket := {
  vt_id : Z;
  vt_ticketCode : string;
  vt_attendeeName : string;
  vt_eventTitle : string;
  vt_usedAt : Z
}.

(** The answer of the route (the [usedAt] that the answer 400 reads from
    the column [used_at] is left out with the column). *)
Record checkin_response := {
  ck_status : Z;
  ck_success : bool;
  ck_message : string;
  ck_ticket : option validated_ticket
}.

Definition checkin_failure (code : Z) (message : string) : checkin_response :=
  {| ck_status := code; ck_success := false; ck_message := message;
     ck_ticket := None |}.

(** [router.post('/:id/validate')] after the middlewares.  Each
    [return res...] is the last statement of its branch, so the answer is
    the value of the block. *)
Definition validate_ticket (user : requester) (id : Z) : M checkin_response :=
  try_catch
    (tickets <- query (select_ticket_view id) ;;
     match tickets with
     | [] => ret (checkin_failure 404 "Ticket not found")
     | ticket :: _ =>
         if access_denied (tv_organizer_id ticket) user
         then ret (checkin_failure 403 "Access denied")
         else if is_used (tv_ticket ticket)
         then ret (checkin_failure 400 "Ticket already used")
         else
           update (mark_used id) ;;
           now <- Date_now ;;
           ret {| ck_status := 200; ck_success := true;
                  ck_message := "Ticket validated successfully";
                  ck_ticket :=
                    Some {| vt_id := t_id (tv_ticket ticket);
                            vt_ticketCode := t_ticket_code (tv_ticket ticket);
                            vt_attendeeName :=
                              t_attendee_name (tv_ticket ticket);
                            vt_eventTitle := tv_event_title ticket;
                            vt_usedAt := now |} |}
     end)
    (fun error => ret (checkin_failure 500 "Failed to validate ticket")).

End Checkin.
Export Checkin.

(** ** services/messageProcessors.js and config/rabbitmq.js: the consumers *)

Module Consumers.

Definition set_qr_code (t : ticket) (q : string) : ticket :=
  {| t_id := t_id t; t_order_id := t_order_id t;
     t_ticket_tier_id := t_ticket_tier_id t; t_ticket_code := t_ticket_code t;
     t_attendee_name := t_attendee_name t;
     t_attendee_email := t_attendee_email t;
     t_status := t_status t; t_qr_code := Some q |}.

(** [UPDATE tickets SET qr_code = ? WHERE id = ?]. *)
Definition write_qr_code (url : string) (id : Z) (d : db) : db :=
  with_tickets d
    (map (fun t => if t_id t =? id then set_qr_code t url else t)
         (tickets d)).

Section Generation.

(** [qrCodeUrl]: the address of the QR service followed by
    [encodeURIComponent(JSON.stringify(qrCodeData))], a text made from
    the ticket of the message and the order id, by functions of the
    language. *)
Variable qrCodeUrl : ticket_details -> Z -> string.

(** [for (const ticket of tickets)]. *)
Fixpoint generate_qr_codes (orderId : Z) (tickets : list ticket_details)
  : M unit :=
  match tickets with
  | [] => ret tt
  | ticket :: rest =>
      update (write_qr_code (qrCodeUrl ticket orderId)
                            (t_id (td_ticket ticket))) ;;
      generate_qr_codes orderId rest
  end.

(** [processTicketGeneration]: what it catches it logs and throws
    again. *)
Definition processTicketGeneration (orderId : Z)
    (tickets : list ticket_details) : M unit :=
  try_catch (generate_qr_codes orderId tickets)
            (fun error => throw error).

End Generation.

(** What becomes of a delivered message: [channel.ack(msg)], or
    [channel.nack(msg, false, false)], which drops it. *)
Inductive delivery := Acked | Rejected.

(** The callback of [channel.consume] in [consumeMessages], for a message
    that parses. *)
Definition consume {A} (callback : A -> M unit) (message : A) : M delivery :=
  try_catch
    (callback message ;; ret Acked)
    (fun error => ret Rejected).

End Consumers.
Export Consumers.

(** ** middleware/validation.js: [sanitizeRequest] *)

From Stdlib Require Import Ascii.

Module Sanitizer.

(** A value of a parsed request.  Numbers are passed through as they
    are: what they hold plays no part here.  The entries of an object are
    in the order of [Object.entries]. *)
#[local] Unset Elimination Schemes.
Inductive json :=
| JNull
| JBool (b : bool)
| JNumber (n : Z)
| JString (s : string)
| JArray (items : list json)
| JObject (entries : list (string * json)).
#[local] Set Elimination Schemes.

Definition is_angle (c : Ascii.ascii) : bool :=
  Ascii.eqb c "<"%char || Ascii.eqb c ">"%char.

Fixpoint has_angle_bracket (s : string) : bool :=
  match s with
  | EmptyString => false
  | String c rest => is_angle c || has_angle_bracket rest
  end.

(** [.replace(/[<>]/g, '')]. *)
Fixpoint remove_angle_brackets (s : string) : string :=
  match s with
  | EmptyString => EmptyString
  | String c rest =>
      if is_angle c then remove_angle_brackets rest
      else String c (remove_angle_brackets rest)
  end.

(** [['__proto__', 'constructor', 'prototype'].includes(key)]. *)
Definition dangerous (key : string) : bool :=
  existsb (String.eqb key) ["__proto__"; "constructor"; "prototype"].

Section Sanitize.

(** [String.prototype.trim]. *)
Variable js_trim : string -> string.

(** The recursive [sanitize].  An array is an object for [typeof], and
    [Object.entries] gives its items under their indices: it comes out
    as a plain object. *)
Fixpoint sanitize (obj : json) : json :=
  match obj with
  | JString s => JString (remove_angle_brackets (js_trim s))
  | JObject entries =>
      JObject
        ((fix each_entry (l : list (string * json)) :=
            match l with
            | [] => []
            | (key, value) :: rest =>
                if dangerous key then each_entry rest
                else (key, sanitize value) :: each_entry rest
            end) entries)
  | JArray items =>
      JObject
        ((fix each_item (i : nat) (l : list json) :=
            match l with
            | [] => []
            | value :: rest =>
                (string_of_Z (Z.of_nat i), sanitize value)
                  :: each_item (S i) rest
            end) 0%nat items)
  | _ => obj
  end.

(** [if (req.body)]: what JavaScript takes for true. *)
Definition truthy (v : json) : bool :=
  match v with
  | JNull => false
  | JBool b => b
  | JNumber n => negb (n =? 0)
  | JString s => negb (String.eqb s "")
  | _ => true
  end.

(** [req.body], [req.query] and [req.params]; [None] is [undefined]. *)
Record raw_request := {
  rr_body : option json;
  rr_query : option json;
  rr_params : option json
}.

Definition sanitize_part (part : option json) : option json :=
  match part with
  | Some v => if truthy v then Some (sanitize v) else Some v
  | None => None
  end.

Definition sanitizeRequest (req : raw_request) : raw_request :=
  {| rr_body := sanitize_part (rr_body req);
     rr_query := sanitize_part (rr_query req);
     rr_params := sanitize_part (rr_params req) |}.

End Sanitize.

(** What the sanitizer lets out: no array, no dangerous key, no angle
    bracket in a string value, at any depth. *)
#[local] Unset Elimination Schemes.
Inductive harmless : json -> Prop :=
| harmless_null : harmless JNull
| harmless_bool b : harmless (JBool b)
| harmless_number n : harmless (JNumber n)
| harmless_string s :
    has_angle_bracket s = false -> harmless (JString s)
| harmless_object entries :
    Forall (fun kv => dangerous (fst kv) = false /\ harmless (snd kv)) entries ->
    harmless (JObject entries).
#[local] Set Elimination Schemes.

(** A part of a request that is there is harmless. *)
Definition harmless_part (part : option json) : Prop :=
  match part with
  | Some v => harmless v
  | None => True
  end.

End Sanitizer.

(** ** routes/tickets.js: the quantity as the body carries it *)

Module Sent.

(** [ticket.quantity] once [isInt({ min: 1, max: 10 })] has passed.  The
    validator has no [toInt]: it reads the value as a string and leaves
    in the body what was sent, a JSON number or a string. *)
Inductive js_quantity :=
| QNumber (n : Z)
| QString (text : string).

(** A line item of the body.  The tier id is kept a number: sent as a
    string it goes through the checks of the first loop like the number
    it stands for, and then [ticketTierUpdates.find] misses it with
    [===], so that the route ends in its [catch]. *)
Record sent_item := {
  s_tierId : Z;
  s_quantity : js_quantity;
  s_attendeeName : string;
  s_attendeeEmail : string
}.

Record sent_request := {
  sr_eventId : Z;
  sr_tickets : list sent_item;
  sr_billing : billing
}.

Definition digit (c : Ascii.ascii) : option Z :=
  let n := Z.of_N (Ascii.N_of_ascii c) in
  if (48 <=? n) && (n <=? 57) then Some (n - 48) else None.

Fixpoint digits (s : string) (acc : Z) : option Z :=
  match s with
  | EmptyString => Some acc
  | String c rest =>
      match digit c with
      | Some d => digits rest (10 * acc + d)
      | None => None
      end
  end.

Definition unsigned (s : string) : option Z :=
  match s with
  | EmptyString => None
  | _ => digits s 0
  end.

(** [ToNumber] of a string made of an optional sign and decimal digits;
    [None] is [NaN].  The other numeric forms (white space, a fraction,
    an exponent, a radix prefix, [Infinity]) do not arise here, where the
    string is a text that [isInt] has accepted, or a decimal integer
    followed by such a text. *)
Definition to_number (s : string) : option Z :=
  match s with
  | EmptyString => Some 0
  | String "+" rest => unsigned rest
  | String "-" rest => option_map Z.opp (unsigned rest)
  | _ => unsigned s
  end.

(** [isInt({ min: 1, max: 10 })] on the value as it was sent: the pattern
    [^[-+]?[0-9]+$], and the bounds on what the string is as a number. *)
Definition isInt_1_to_10 (q : js_quantity) : bool :=
  match q with
  | QNumber n => (1 <=? n) && (n <=? 10)
  | QString text =>
      match to_number text with
      | Some v => (1 <=? v) && (v <=? 10)
      | None => false
      end
  end.

Definition sent_as_number (q : js_quantity) : bool :=
  match q with
  | QNumber _ => true
  | QString _ => false
  end.

(** What [*], [<] and MySQL's [+] take the quantity for.  (A text that is
    no number does not pass [isInt].) *)
Definition value (q : js_quantity) : Z :=
  match q with
  | QNumber n => n
  | QString text =>
      match to_number text with
      | Some v => v
      | None => 0
      end
  end.

(** [tier.sold_quantity + ticket.quantity > tier.quantity].  With a
    string, [+] appends it to the decimal writing of [sold_quantity], and
    [>] compares what that is as a number, which is never true of
    [NaN]. *)
Definition exceeds (tier : ticket_tier) (q : js_quantity) : bool :=
  match q with
  | QNumber n => tt_sold_quantity tier + n >? tt_quantity tier
  | QString text =>
      match to_number (string_of_Z (tt_sold_quantity tier) ++ text) with
      | Some v => v >? tt_quantity tier
      | None => false
      end
  end.

(** The line item with its quantity as a number. *)
Definition typed (t : sent_item) : line_item :=
  {| tierId := s_tierId t; quantity := value (s_quantity t);
     attendeeName := s_attendeeName t; attendeeEmail := s_attendeeEmail t |}.

Definition typed_request (req : sent_request) : order_request :=
  {| rq_eventId := sr_eventId req; rq_tickets := map typed (sr_tickets req);
     rq_billing := sr_billing req |}.

(** The first loop of [router.post('/')], on the quantities as sent. *)
Fixpoint check_tickets_sent (eventId : Z) (tickets : list sent_item)
    (totalAmount : Z) (ticketTierUpdates : list tier_update)
  : M (Z * list tier_update) :=
  match tickets with
  | [] => ret (totalAmount, ticketTierUpdates)
  | ticket :: rest =>
      tiers <- query (select_tier_for_update (s_tierId ticket) eventId) ;;
      match tiers with
      | [] =>
          rollback ;;
          respond (failure 400 (msg_tier_not_found (typed ticket)))
      | tier :: _ =>
          if exceeds tier (s_quantity ticket)
          then rollback ;; respond (failure 400 (msg_not_enough tier))
          else
            now <- Date_now ;;
            if not_started tier now
            then rollback ;; respond (failure 400 (msg_not_started tier))
            else if has_ended tier now
            then rollback ;; respond (failure 400 (msg_ended tier))
            else
              check_tickets_sent eventId rest
                (totalAmount + tt_price tier * value (s_quantity ticket))
                (ticketTierUpdates ++
                 [{| up_tierId := tt_id tier;
                     up_quantity := value (s_quantity ticket);
                     up_price := tt_price tier; up_name := tt_name tier |}])%list
      end
  end.

(** The [try] block of [router.post('/')], on the quantities as sent:
    after the first loop a quantity is used as a number only. *)
Definition create_order_try_sent (user_id : Z) (req : sent_request)
  : M response :=
  beginTransaction ;;
  let eventId := sr_eventId req in
  let tickets := sr_tickets req in
  events <- query (fun d => filter (fun ev => (e_id ev =? eventId)
                                              && is_published ev)
                                   (events d)) ;;
  match events with
  | [] => rollback ;; respond (failure 404 "Event not found or not available")
  | event :: _ =>
      '(totalAmount, ticketTierUpdates) <-
         check_tickets_sent eventId tickets 0 [] ;;
      now <- Date_now ;;
      rnd <- random ;;
      let orderNumber := "ORD-" ++ string_of_Z now ++ "-" ++ rnd in
      orderId <- insert_order user_id eventId orderNumber totalAmount
                   (sr_billing req) ;;
      update_sold_quantities ticketTierUpdates ;;
      create_ticket_records (map typed tickets) orderId ;;
      commit ;;
      url <- createCheckoutSession ;;
      ret {| status := 201;
             payload := Json true "Order created successfully"
                          (Some {| orderId := orderId;
                                   orderNumber := orderNumber;
                                   checkoutUrl := url;
                                   totalAmount := totalAmount |}) |}
  end.

Definition create_order_sent (user_id : Z) (req : sent_request) : M response :=
  try_catch
    (create_order_try_sent user_id req)
    (fun error =>
       rollback ;; ret (failure 500 "Failed to create order")).

End Sent.
Export Sent.

(** ** routes/tickets.js: the tier update among other requests *)

Module Interleaving.

(** What other requests do while a route waits for the pool: their
    statements reach the store, their answers and their exceptions are
    their own. *)
Definition meanwhile {A} (others : M A) : M unit :=
  fun e w => (fst (others e w), Val tt).

(** [router.put('/tiers/:id')] after the middlewares, with what other
    requests do between its [SELECT] and its [UPDATE]: the route opens no
    transaction, the two are separate statements on the pool. *)
Definition update_tier_amid {A} (others : M A) (user : requester) (id : Z)
    (p : tier_patch) : M response :=
  try_catch
    (tiers <- query (select_tier_with_organizer id) ;;
     match tiers with
     | [] => respond (failure 404 "Ticket tier not found")
     | (tier, organizer_id) :: _ =>
         if access_denied organizer_id user
         then respond (failure 403 "Access denied")
         else if tt_sold_quantity tier >? 0
         then respond (failure 400 "Cannot modify tier with sold tickets")
         else
           meanwhile others ;;
           update (update_tier_row id p) ;;
           ret (success 200 "Ticket tier updated successfully")
     end)
    (fun error => ret (failure 500 "Failed to update ticket tier")).

End Interleaving.
Export Interleaving.

(** ** What the proofs of this part follow *)

Module Follow.

(** A step that throws nothing but the store's errors. *)
Definition store_only {A} (m : M A) : Prop :=
  forall e w w' x, m e w = (w', Thrown x) -> x = StoreError.

(** The ends of the [try] block of the reservation that lie after its
    [commit]: its value, and an exception that is not the store's. *)
Definition past_commit {A} (o : outcome A) : Prop :=
  match o with
  | Val _ => True
  | Ret _ => False
  | Thrown StoreError => False
  | Thrown _ => True
  end.

(** The seats that a list of tier and quantity pairs puts on the tier
    [id]. *)
Definition sum_for (id : Z) (pairs : list (Z * Z)) : Z :=
  fold_right Z.add 0 (map snd (filter (fun p => fst p =? id) pairs)).

Definition pair_of_update (u : tier_update) : Z * Z :=
  (up_tierId u, up_quantity u).

Definition pair_of_item (t : line_item) : Z * Z := (tierId t, quantity t).

(** The second loop of the reservation on the tables, without the
    store's failures. *)
Definition increments (ups : list tier_update) (d : db) : db :=
  fold_left (fun d u => add_sold (up_quantity u) (up_tierId u) d) ups d.

(** From [d] to [d'] nothing moved but the tickets. *)
Definition beside_tickets (d d' : db) : Prop :=
  users d' = users d /\ events d' = events d /\
  ticket_tiers d' = ticket_tiers d /\ orders d' = orders d.

(** A ticket row as the second loop makes it for one line item. *)
Definition made_for (orderId : Z) (item : line_item) (t : ticket) : Prop :=
  t_order_id t = orderId /\ t_status t = active /\ t_qr_code t = None /\
  t_ticket_tier_id t = tierId item /\
  t_attendee_name t = attendeeName item /\
  t_attendee_email t = attendeeEmail item.

(** The ticket passed the capacity check against the row it locked. *)
Definition fits (d : db) (eventId : Z) (t : line_item) : Prop :=
  exists tier others,
    select_tier_for_update (tierId t) eventId d = tier :: others /\
    tt_sold_quantity tier + quantity t <= tt_quantity tier.

(** What is sold of each tier, row by row. *)
Definition sales (d : db) : list (Z * Z * Z) :=
  map (fun tt => (tt_id tt, tt_event_id tt, tt_sold_quantity tt))
      (ticket_tiers d).

(** An order row, its checkout session put aside. *)
Definition forget_session (o : order) : order :=
  {| o_id := o_id o; o_user_id := o_user_id o; o_event_id := o_event_id o;
     o_order_number := o_order_number o; o_total_amount := o_total_amount o;
     o_status := o_status o;
     o_stripe_payment_intent_id := o_stripe_payment_intent_id o;
     o_stripe_session_id := None; o_billing := o_billing o |}.

(** A ticket row, its QR code put aside. *)
Definition forget_qr_code (t : ticket) : ticket :=
  {| t_id := t_id t; t_order_id := t_order_id t;
     t_ticket_tier_id := t_ticket_tier_id t; t_ticket_code := t_ticket_code t;
     t_attendee_name := t_attendee_name t;
     t_attendee_email := t_attendee_email t;
     t_status := t_status t; t_qr_code := None |}.

(** The address that the loop of [processTicketGeneration] writes last on
    the ticket rows with the id [id], if it writes one. *)
Fixpoint last_url (qrCodeUrl : ticket_details -> Z -> string) (orderId : Z)
    (items : list ticket_details) (id : Z) : option string :=
  match items with
  | [] => None
  | item :: rest =>
      match last_url qrCodeUrl orderId rest id with
      | Some url => Some url
      | None => if t_id (td_ticket item) =? id
                then Some (qrCodeUrl item orderId) else None
      end
  end.

(** The event types that [handleWebhook] has a case for. *)
Definition handled_types : list string :=
  [ "payment_intent.succeeded"; "payment_intent.payment_failed";
    "checkout.session.completed"; "payment_intent.canceled" ].

(** The body of a tier update that sets nothing. *)
Definition no_change : tier_patch :=
  {| p_name := None; p_description := None; p_price := None;
     p_quantity := None; p_salesStartDate := None; p_salesEndDate := None;
     p_isActive := None |}.

End Follow.
Export Follow.

(** ** More concrete runs *)

Module Rounds.

Import Scenario.

(** Stripe does not answer when the checkout session is asked for: the
    eighth outgoing call of a reservation of one seat. *)
Definition stripe_down : env := flaky 1000 7.

(** ... which leaves user 3 with an order and no address to pay it at. *)
Definition stranded : world :=
  fst (create_order_try 3 (request [seats 1 1]) stripe_down (start fresh)).

(** User 3 has cancelled the order of [booked]. *)
Definition given_up : world :=
  fst (answer (cancel_order 3 1) (quiet 1500) booked).

Definition cancelled_answer : response :=
  success 200 "Order cancelled successfully".

(** The organizer has checked in the ticket of [booked]. *)
Definition admitted : world :=
  fst (validate_ticket the_organizer 1 (quiet 3000) booked).

Definition pass : checkin_response :=
  {| ck_status := 200; ck_success := true;
     ck_message := "Ticket validated successfully";
     ck_ticket := Some {| vt_id := 1; vt_ticketCode := "TKT-5";
                          vt_attendeeName := "John Doe";
                          vt_eventTitle := "Tech Conference 2024";
                          vt_usedAt := 3000 |} |}.

(** An address for the QR code of a ticket, made of its code and order. *)
Definition qr (ticket : ticket_details) (orderId : Z) : string :=
  "https://api.qrserver.com/v1/create-qr-code/?size=200x200&data="
    ++ t_ticket_code (td_ticket ticket) ++ "-" ++ string_of_Z orderId.

(** The tickets of the [ticket_generation] message for order 1. *)
Definition printed : list ticket_details :=
  select_ticket_details 1 (w_db booked).

Definition refund : stripe_event :=
  {| ev_type := "charge.refunded"; ev_object := intent |}.

(** A body whose quantities are JSON numbers. *)
Definition as_sent (t : line_item) : sent_item :=
  {| s_tierId := tierId t; s_quantity := QNumber (quantity t);
     s_attendeeName := attendeeName t; s_attendeeEmail := attendeeEmail t |}.

Definition sent (tickets : list line_item) : sent_request :=
  {| sr_eventId := 1; sr_tickets := map as_sent tickets; sr_billing := john |}.

(** One line item for tier 1 whose quantity is the string [text]. *)
Definition written (text : string) : sent_request :=
  {| sr_eventId := 1;
     sr_tickets := [ {| s_tierId := 1; s_quantity := QString text;
                        s_attendeeName := "John Doe";
                        s_attendeeEmail := "customer@ticketing.com" |} ];
     sr_billing := john |}.

(** The tables of [fresh] with nine of the ten seats sold. *)
Definition nearly_full : db :=
  with_ticket_tiers fresh [ set_sold_quantity regular 9 ].

(** A second tier of the event: five seats, none sold. *)
Definition vip : ticket_tier :=
  {| tt_id := 2; tt_event_id := 1; tt_name := "VIP";
     tt_description := None; tt_price := 29900; tt_quantity := 5;
     tt_sold_quantity := 0; tt_sales_start_date := None;
     tt_sales_end_date := None; tt_is_active := true |}.

Definition two_tiers : db := with_ticket_tiers fresh [ regular; vip ].

(** User 3 has reserved one seat of each tier of [two_tiers], and then
    cancelled. *)
Definition paired : world :=
  fst (answer (create_order 3 (request [seats 1 1; seats 2 1])) (quiet 1000)
              (start two_tiers)).

Definition paired_receipt : response :=
  {| status := 201;
     payload := Json true "Order created successfully"
                  (Some {| orderId := 1; orderNumber := "ORD-1000-4";
                           checkoutUrl := "https://checkout.stripe.com/c/pay/cs_test_a1";
                           totalAmount := 44800 |}) |}.

Definition unpaired : world :=
  fst (answer (cancel_order 3 1) (quiet 1500) paired).

(** A body of the tier update with every field in it. *)
Definition reprice : tier_patch :=
  {| p_name := Some "Regular"; p_description := Some "General admission";
     p_price := Some 19900; p_quantity := Some 10;
     p_salesStartDate := Some 0; p_salesEndDate := Some 4102444800000;
     p_isActive := Some true |}.

End Rounds.

(** * Theorems *)

(** ** Running a computation, one step at a time *)

Lemma bind_eq {A B} (m : M A) (k : A -> M B) e w :
  bind m k e w =
  match m e w with
  | (w', Val a) => k a e w'
  | (w', Ret r) => (w', Ret r)
  | (w', Thrown x) => (w', Thrown x)
  end.
Proof. reflexivity. Qed.

Section Transaction.

(** The rows when the transaction began. *)
Variable d0 : db.

Lemma tx_safe_ret {A} (a : A) : tx_safe d0 (ret a).
Proof. intros e w H. exact H. Qed.

Lemma tx_safe_bind {A B} (m : M A) (k : A -> M B) :
  tx_safe d0 m -> (forall a, tx_safe d0 (k a)) -> tx_safe d0 (bind m k).
Proof.
  intros Hm Hk e w H. rewrite bind_eq. specialize (Hm e w H).
  destruct (m e w) as [w' [a | r | x]]; auto. now apply Hk.
Qed.

Lemma tx_safe_call kind : tx_safe d0 (call kind).
Proof.
  intros e w H. unfold call. destruct (env_fault e (w_calls w)); exact H.
Qed.

Lemma tx_safe_query {A} (q : db -> A) : tx_safe d0 (query q).
Proof.
  apply tx_safe_bind; [apply tx_safe_call | intros _ e w H; exact H].
Qed.

Lemma tx_safe_update f : tx_safe d0 (update f).
Proof.
  apply tx_safe_bind; [apply tx_safe_call | intros _ e w H; exact H].
Qed.

Lemma tx_safe_Date_now : tx_safe d0 Date_now.
Proof. intros e w H. exact H. Qed.

Lemma tx_safe_random : tx_safe d0 random.
Proof. intros e w H. exact H. Qed.

Lemma tx_safe_insert_order u ev n t b : tx_safe d0 (insert_order u ev n t b).
Proof.
  apply tx_safe_bind; [apply tx_safe_call | intros _ e w H].
  cbv beta zeta. destruct (existsb _ _); exact H.
Qed.

Lemma tx_safe_insert_ticket o t c n m : tx_safe d0 (insert_ticket o t c n m).
Proof.
  apply tx_safe_bind; [apply tx_safe_call | intros _ e w H].
  cbv beta zeta. destruct (existsb _ _); exact H.
Qed.

Lemma tx_safe_abort {A} (r : response) :
  refusal r -> tx_safe d0 (rollback ;; @respond A r).
Proof.
  intros Hr e w [s [Hs Hrows]]. rewrite bind_eq. unfold rollback. rewrite Hs.
  cbn. repeat split; solve [reflexivity | apply Hrows | exact Hr].
Qed.

Lemma refusal_failure code message : code <> 201 -> refusal (failure code message).
Proof. intros H. exact H. Qed.

Lemma tx_safe_check_tickets eventId tickets :
  forall total ups, tx_safe d0 (check_tickets eventId tickets total ups).
Proof.
  induction tickets as [| t rest IH]; intros total ups; cbn [check_tickets].
  - apply tx_safe_ret.
  - apply tx_safe_bind; [apply tx_safe_query | intros [| tier tiers]].
    + now apply tx_safe_abort.
    + destruct (_ >? _); [now apply tx_safe_abort |].
      apply tx_safe_bind; [apply tx_safe_Date_now | intros now].
      destruct (not_started tier now); [now apply tx_safe_abort |].
      destruct (has_ended tier now); [now apply tx_safe_abort | apply IH].
Qed.

Lemma tx_safe_update_sold_quantities ups :
  tx_safe d0 (update_sold_quantities ups).
Proof.
  induction ups as [| u rest IH]; cbn [update_sold_quantities].
  - apply tx_safe_ret.
  - apply tx_safe_bind; [apply tx_safe_update | intros _; exact IH].
Qed.

Lemma tx_safe_insert_tickets n orderId ticket :
  tx_safe d0 (insert_tickets n orderId ticket).
Proof.
  induction n as [| n IH]; cbn [insert_tickets].
  - apply tx_safe_ret.
  - apply tx_safe_bind; [apply tx_safe_random | intros uuid].
    apply tx_safe_bind; [apply tx_safe_insert_ticket | intros _; exact IH].
Qed.

Lemma tx_safe_create_ticket_records tickets orderId :
  tx_safe d0 (create_ticket_records tickets orderId).
Proof.
  induction tickets as [| t rest IH]; cbn [create_ticket_records].
  - apply tx_safe_ret.
  - apply tx_safe_bind; [apply tx_safe_insert_tickets | intros _; exact IH].
Qed.

Lemma tx_closing_bind {A} (m : M A) (k : A -> M response) :
  tx_safe d0 m -> (forall a, tx_closing d0 (k a)) -> tx_closing d0 (bind m k).
Proof.
  intros Hm Hk e w H. rewrite bind_eq. specialize (Hm e w H).
  destruct (m e w) as [w' [a | r | x]]; auto.
  - now apply Hk.
  - destruct x; auto.
Qed.

Lemma tx_closing_abort r : refusal r -> tx_closing d0 (rollback ;; respond r).
Proof.
  intros Hr e w [s [Hs Hrows]]. rewrite bind_eq. unfold rollback. rewrite Hs.
  cbn. repeat split; solve [reflexivity | apply Hrows | exact Hr].
Qed.

Lemma tx_closing_commit (k : string -> response) :
  (forall url, status (k url) = 201) ->
  tx_closing d0 (commit ;; url <- createCheckoutSession ;; ret (k url)).
Proof.
  intros Hk e w H. unfold commit, createCheckoutSession, call, bind, ret.
  destruct (env_fault e (w_calls w)); [exact H |].
  cbn. destruct (env_fault e (S (w_calls w))); [exact I | apply Hk].
Qed.

Lemma tx_closing_create_order user_id req :
  tx_closing d0 (let eventId := rq_eventId req in
     let tickets := rq_tickets req in
     events <- query (fun d => filter (fun ev => (e_id ev =? eventId)
                                                 && is_published ev)
                                      (events d)) ;;
     match events with
     | [] => rollback ;; respond (failure 404 "Event not found or not available")
     | event :: _ =>
         '(totalAmount, ticketTierUpdates) <-
            check_tickets eventId tickets 0 [] ;;
         now <- Date_now ;;
         rnd <- random ;;
         let orderNumber := "ORD-" ++ string_of_Z now ++ "-" ++ rnd in
         orderId <- insert_order user_id eventId orderNumber totalAmount
                      (rq_billing req) ;;
         update_sold_quantities ticketTierUpdates ;;
         create_ticket_records tickets orderId ;;
         commit ;;
         url <- createCheckoutSession ;;
         ret {| status := 201;
                payload := Json true "Order created successfully"
                             (Some {| orderId := orderId;
                                      orderNumber := orderNumber;
                                      checkoutUrl := url;
                                      totalAmount := totalAmount |}) |}
     end).
Proof.
  cbv zeta.
  apply tx_closing_bind; [apply tx_safe_query | intros [| event evs]].
  - now apply tx_closing_abort.
  - apply tx_closing_bind; [apply tx_safe_check_tickets | intros [total ups]].
    apply tx_closing_bind; [apply tx_safe_Date_now | intros now].
    apply tx_closing_bind; [apply tx_safe_random | intros rnd].
    apply tx_closing_bind; [apply tx_safe_insert_order | intros orderId].
    apply tx_closing_bind; [apply tx_safe_update_sold_quantities | intros _].
    apply tx_closing_bind; [apply tx_safe_create_ticket_records | intros _].
    apply (tx_closing_commit (fun url => {| status := 201; payload := _ |})).
    reflexivity.
Qed.

End Transaction.

Lemma same_rows_refl d : same_rows d d.
Proof. repeat split. Qed.

(** Where the [try] block of the reservation can end. *)
Lemma create_order_try_outcome user_id req e w :
  w_snapshot w = None ->
  match create_order_try user_id req e w with
  | (w', Ret r) => rolled_back (w_db w) w' /\ refusal r
  | (w', Thrown StoreError) =>
      in_tx (w_db w) w' \/ (w_snapshot w' = None /\ w_db w' = w_db w)
  | (w', Thrown _) => True
  | (w', Val r) => status r = 201
  end.
Proof.
  intros Hopen. unfold create_order_try. rewrite bind_eq.
  unfold beginTransaction at 1. rewrite bind_eq. unfold call at 1.
  destruct (env_fault e (w_calls w)).
  - right. split; [exact Hopen | reflexivity].
  - cbv beta.
    match goal with
    | |- context [match ?m e ?w1 with _ => _ end] =>
        pose proof (tx_closing_create_order (w_db w) user_id req e w1) as H
    end.
    cbv zeta in H. 
    match type of H with ?P -> _ => assert (HP : P) end.
    { exists (w_db w). split; [reflexivity | apply same_rows_refl]. }
    specialize (H HP).
    match goal with
    | |- match ?m e ?w1 with _ => _ end => destruct (m e w1) as [w' [r | r | x]]
    end; auto.
    destruct x; auto.
Qed.

(** Claim C2 (atomicity of a reservation).  When the order route answers
    with a client error (400 for a tier that is missing or inactive, lacks
    capacity or is outside its sales window; 404 for the event), or when the
    store throws during its [try] block, the tables hold the rows they held
    before the request (no tier's [sold_quantity] has moved, no order and
    no ticket row is there) and the transaction is closed. *)
Theorem C2_failed_reservation_leaves_no_trace user_id req e w w' r
    (Hopen : w_snapshot w = None)
    (Hrun : answer (create_order user_id req) e w = (w', Some r))
    (Hfail : status r = 400 \/ status r = 404 \/
             exists w1, create_order_try user_id req e w = (w1, Thrown StoreError)) :
  same_rows (w_db w) (w_db w') /\ w_snapshot w' = None.
Proof.
  pose proof (create_order_try_outcome user_id req e w Hopen) as Htry.
  unfold answer, create_order, try_catch in Hrun.
  destruct (create_order_try user_id req e w) as [w1 [a | r1 | x]] eqn:Hbody.
  - inversion Hrun; subst. 
    destruct Hfail as [H | [H | [w2 H]]]; try congruence.
  - inversion Hrun; subst. destruct Htry as [[Hs Hrows] _]. now split.
  - destruct Hfail as [H | [H | [w2 H]]].
    + rewrite bind_eq in Hrun. unfold rollback in Hrun.
      destruct (w_snapshot w1); cbn in Hrun; inversion Hrun; subst; discriminate.
    + rewrite bind_eq in Hrun. unfold rollback in Hrun.
      destruct (w_snapshot w1); cbn in Hrun; inversion Hrun; subst; discriminate.
    + inversion H; subst. rewrite bind_eq in Hrun. unfold rollback in Hrun.
      destruct Htry as [[s [Hs Hrows]] | [Hs Hdb]].
      * rewrite Hs in Hrun. cbn in Hrun. inversion Hrun; subst. cbn.
        split; [exact Hrows | reflexivity].
      * rewrite Hs in Hrun. cbn in Hrun. inversion Hrun; subst.
        split; [rewrite Hdb; apply same_rows_refl | exact Hs].
Qed.

(** ** The checks, one ticket after the other *)

Section Quiet.

Variable e : env.
Hypothesis Hquiet : forall n, env_fault e n = false.

Lemma call_quiet kind w : call kind e w = (tick w, Val tt).
Proof. unfold call. now rewrite Hquiet. Qed.

Lemma query_quiet {A} (q : db -> A) w :
  query q e w = (tick w, Val (q (w_db w))).
Proof. unfold query. rewrite bind_eq, call_quiet. reflexivity. Qed.

Lemma update_quiet f w :
  update f e w = (set_db (tick w) (f (w_db w)), Val tt).
Proof. unfold update. rewrite bind_eq, call_quiet. reflexivity. Qed.

Lemma beginTransaction_quiet w :
  beginTransaction e w = (set_snapshot (tick w) (Some (w_db w)), Val tt).
Proof. unfold beginTransaction. rewrite bind_eq, call_quiet. reflexivity. Qed.

End Quiet.

Lemma find_filter {A} (f : A -> bool) (l : list A) :
  find f l = match filter f l with [] => None | x :: _ => Some x end.
Proof.
  induction l as [| a l IH]; cbn; [reflexivity |].
  destruct (f a); [reflexivity | exact IH].
Qed.

(** What [judge] says of a ticket, read on the code's own tests. *)
Lemma judge_cases d eventId now t :
  match judge d eventId now t with
  | Accepted tier =>
      (exists rest, select_tier_for_update (tierId t) eventId d = tier :: rest)
      /\ (tt_sold_quantity tier + quantity t >? tt_quantity tier) = false
      /\ not_started tier now = false /\ has_ended tier now = false
  | TierMissing => select_tier_for_update (tierId t) eventId d = []
  | CapacityExceeded tier remaining =>
      (exists rest, select_tier_for_update (tierId t) eventId d = tier :: rest)
      /\ (tt_sold_quantity tier + quantity t >? tt_quantity tier) = true
      /\ remaining = tt_quantity tier - tt_sold_quantity tier
  | SalesWindowClosed tier =>
      (exists rest, select_tier_for_update (tierId t) eventId d = tier :: rest)
      /\ (tt_sold_quantity tier + quantity t >? tt_quantity tier) = false
      /\ (not_started tier now = true \/
          (not_started tier now = false /\ has_ended tier now = true))
  end.
Proof.
  unfold judge, select_tier_for_update. rewrite find_filter.
  destruct (filter _ _) as [| tier rest]; [reflexivity |].
  destruct (_ <=? _) eqn:Hcap.
  - assert (Hgt : (tt_sold_quantity tier + quantity t >? tt_quantity tier) = false).
    { apply Z.leb_le in Hcap. rewrite Z.gtb_ltb. apply Z.ltb_ge. lia. }
    unfold within_sales_window.
    destruct (tt_sales_start_date tier) as [start |] eqn:Hstart,
             (tt_sales_end_date tier) as [stop |] eqn:Hstop;
      repeat match goal with
             | |- context [Z.leb ?a ?b] => destruct (Z.leb_spec a b)
             end;
      cbn; unfold not_started, has_ended; rewrite Hstart, Hstop;
      rewrite ?Z.gtb_ltb;
      repeat match goal with
             | |- context [Z.ltb ?a ?b] => destruct (Z.ltb_spec a b)
             end;
      try lia;
      (split; [now exists rest |]);
      (split; [first [exact Hgt | reflexivity] |]);
      solve [ split; reflexivity | left; reflexivity
            | right; split; reflexivity ].
  - split; [now exists rest |]. split; [| reflexivity].
    apply Z.leb_gt in Hcap. rewrite Z.gtb_ltb. apply Z.ltb_lt. lia.
Qed.

Section Checks.

Variable e : env.
Hypothesis Hquiet : forall n, env_fault e n = false.
Variable eventId : Z.

Lemma check_tickets_accepted pre rest :
  forall total ups w,
    Forall (accepted (w_db w) eventId (env_now e)) pre ->
    exists total' ups' w',
      check_tickets eventId (pre ++ rest) total ups e w
      = check_tickets eventId rest total' ups' e w'
      /\ w_db w' = w_db w /\ w_snapshot w' = w_snapshot w.
Proof.
  induction pre as [| t pre IH]; intros total ups w Hpre.
  - now exists total, ups, w.
  - inversion Hpre as [| ? ? [tier Ht] Hrest]; subst.
    pose proof (judge_cases (w_db w) eventId (env_now e) t) as Hj.
    rewrite Ht in Hj. destruct Hj as [[others Hsel] [Hcap [Hstart Hstop]]].
    cbn [app check_tickets]. rewrite bind_eq, (query_quiet e Hquiet), Hsel.
    rewrite Hcap. rewrite bind_eq. cbn [Date_now]. rewrite Hstart, Hstop.
    destruct (IH (total + tt_price tier * quantity t)
                 (ups ++ [{| up_tierId := tt_id tier;
                             up_quantity := quantity t;
                             up_price := tt_price tier;
                             up_name := tt_name tier |}])%list
                 (tick w) Hrest)
      as [total' [ups' [w' [Heq [Hdb Hsnap]]]]].
    exists total', ups', w'. now rewrite Heq.
Qed.

Lemma check_tickets_refused t post total ups w s :
  w_snapshot w = Some s ->
  refusal_answer t (judge (w_db w) eventId (env_now e) t)
    (returned (snd (check_tickets eventId (t :: post) total ups e w))).
Proof.
  intros Hsnap.
  pose proof (judge_cases (w_db w) eventId (env_now e) t) as Hj.
  destruct (judge (w_db w) eventId (env_now e) t) as [tier | | tier rem | tier];
    cbn [refusal_answer]; [exact I | | |];
    cbn [check_tickets]; rewrite bind_eq, (query_quiet e Hquiet).
  - rewrite Hj. rewrite bind_eq. unfold rollback. cbn. rewrite Hsnap.
    reflexivity.
  - destruct Hj as [[others Hsel] [Hcap Hrem]]. rewrite Hsel, Hcap.
    rewrite bind_eq. unfold rollback. cbn. rewrite Hsnap. cbn.
    subst rem. reflexivity.
  - destruct Hj as [[others Hsel] [Hcap Hwin]]. rewrite Hsel, Hcap.
    rewrite bind_eq. cbn [Date_now].
    destruct Hwin as [Hstart | [Hstart Hstop]].
    + rewrite Hstart. rewrite bind_eq. unfold rollback. cbn. rewrite Hsnap.
      left. reflexivity.
    + rewrite Hstart, Hstop. rewrite bind_eq. unfold rollback. cbn.
      rewrite Hsnap. right. reflexivity.
Qed.

End Checks.

Lemma bind_returned {A B} (m : M A) (k : A -> M B) e w r :
  returned (snd (m e w)) = Some r ->
  bind m k e w = (fst (m e w), Ret r).
Proof.
  rewrite bind_eq. destruct (m e w) as [w' [a | r' | x]]; cbn; try discriminate.
  now intros [= ->].
Qed.

Lemma refusal_answer_returned t v r :
  (forall tier, v <> Accepted tier) -> refusal_answer t v r -> exists r', r = Some r'.
Proof.
  intros Hv H. destruct v; cbn in H.
  - now destruct (Hv tier).
  - eauto.
  - eauto.
  - destruct H; eauto.
Qed.

(** Line items are judged one after the other and, for each, in the
    order: the tier belongs to the event and is active; [sold_quantity +
    quantity <= quantity of the tier], on the row as stored; the current
    time is within the sales window.  At the first line item that fails,
    the route answers 400 for the first check that fails, the rows are as
    before the request, and a capacity violation names the tier and what is
    left of it, [quantity - sold_quantity]. *)
Lemma checks_in_order user_id req e w pre t post event others
    (Hquiet : forall n, env_fault e n = false)
    (Hopen : w_snapshot w = None)
    (Hevent : filter (fun ev => (e_id ev =? rq_eventId req) && is_published ev)
                     (events (w_db w)) = event :: others)
    (Htickets : rq_tickets req = (pre ++ t :: post)%list)
    (Hpre : Forall (accepted (w_db w) (rq_eventId req) (env_now e)) pre)
    (Hfails : forall tier, judge (w_db w) (rq_eventId req) (env_now e) t
                           <> Accepted tier) :
  refusal_answer t (judge (w_db w) (rq_eventId req) (env_now e) t)
    (snd (answer (create_order user_id req) e w))
  /\ same_rows (w_db w) (w_db (fst (answer (create_order user_id req) e w))).
Proof.
  pose proof (create_order_try_outcome user_id req e w Hopen) as Hout.
  assert (Hret : refusal_answer t (judge (w_db w) (rq_eventId req) (env_now e) t)
                   (returned (snd (create_order_try user_id req e w)))).
  { unfold create_order_try. rewrite bind_eq, (beginTransaction_quiet e Hquiet).
    cbv zeta. rewrite bind_eq, (query_quiet e Hquiet). cbn [w_db set_snapshot tick].
    rewrite Hevent, Htickets.
    set (w2 := tick (set_snapshot (tick w) (Some (w_db w)))).
    destruct (check_tickets_accepted e Hquiet (rq_eventId req) pre (t :: post)
                0 [] w2 Hpre) as [total' [ups' [w3 [Heq [Hdb Hsnap]]]]].
    pose proof (check_tickets_refused e Hquiet (rq_eventId req) t post total'
                  ups' w3 (w_db w) Hsnap) as Hr.
    rewrite Hdb in Hr. cbn [w2 w_db tick set_snapshot] in Hr.
    destruct (refusal_answer_returned _ _ _ Hfails Hr) as [r Hsome].
    rewrite <- Heq in Hsome.
    rewrite (bind_returned _ _ _ _ _ Hsome). cbn [snd returned].
    rewrite <- Hsome, Heq. exact Hr. }
  unfold answer, create_order, try_catch.
  destruct (create_order_try user_id req e w) as [w' [a | r | x]];
    cbn [snd returned fst] in *.
  - destruct (refusal_answer_returned _ _ _ Hfails Hret); discriminate.
  - split; [exact Hret | apply Hout].
  - destruct (refusal_answer_returned _ _ _ Hfails Hret); discriminate.
Qed.

(** ** What a successful reservation wrote *)

Lemma bind_val {A B} (m : M A) (k : A -> M B) e w w' b :
  bind m k e w = (w', Val b) ->
  exists w1 a, m e w = (w1, Val a) /\ k a e w1 = (w', Val b).
Proof.
  rewrite bind_eq. destruct (m e w) as [w1 [a | r | x]]; try discriminate.
  intros H. now exists w1, a.
Qed.

Lemma call_val kind e w w' u : call kind e w = (w', Val u) -> w' = tick w.
Proof.
  unfold call. destruct (env_fault e (w_calls w)); [discriminate |].
  now intros [= <-].
Qed.

Lemma query_val {A} (q : db -> A) e w w' a :
  query q e w = (w', Val a) -> w' = tick w /\ a = q (w_db w).
Proof.
  intros H. apply bind_val in H. destruct H as [w1 [[] [Hc H]]].
  apply call_val in Hc. subst w1. inversion H. now split.
Qed.

Lemma update_val f e w w' u :
  update f e w = (w', Val u) -> w' = set_db (tick w) (f (w_db w)).
Proof.
  intros H. apply bind_val in H. destruct H as [w1 [[] [Hc H]]].
  apply call_val in Hc. subst w1. now inversion H.
Qed.

Lemma insert_order_val user_id event_id number total b e w w' id :
  insert_order user_id event_id number total b e w = (w', Val id) ->
  w_snapshot w' = w_snapshot w /\
  ticket_tiers (w_db w') = ticket_tiers (w_db w) /\
  exists row,
    orders (w_db w') = (orders (w_db w) ++ [row])%list /\
    o_id row = id /\ o_total_amount row = total /\ o_status row = pending.
Proof.
  intros H. apply bind_val in H. destruct H as [w1 [[] [Hc H]]].
  apply call_val in Hc. subst w1. cbv beta zeta in H.
  destruct (existsb _ _); [discriminate |]. inversion H; subst. cbn.
  repeat split. eexists. cbn. repeat split.
Qed.

Lemma keeps_orders_ret {A} (a : A) : keeps_orders (ret a).
Proof. now intros e w. Qed.

Lemma keeps_orders_bind {A B} (m : M A) (k : A -> M B) :
  keeps_orders m -> (forall a, keeps_orders (k a)) -> keeps_orders (bind m k).
Proof.
  intros Hm Hk e w. rewrite bind_eq. specialize (Hm e w).
  destruct (m e w) as [w1 [a | r | x]]; cbn [fst] in *; auto.
  destruct (Hk a e w1) as [Ho Hs]. destruct Hm as [Ho1 Hs1].
  split; congruence.
Qed.

Lemma keeps_orders_call kind : keeps_orders (call kind).
Proof. intros e w. unfold call. now destruct (env_fault e (w_calls w)). Qed.

Lemma keeps_orders_update f :
  (forall d, orders (f d) = orders d) -> keeps_orders (update f).
Proof.
  intros Hf. apply keeps_orders_bind; [apply keeps_orders_call |].
  intros _ e w. cbn. now rewrite Hf.
Qed.

Lemma keeps_orders_random : keeps_orders random.
Proof. now intros e w. Qed.

Lemma keeps_orders_insert_ticket o t c n m :
  keeps_orders (insert_ticket o t c n m).
Proof.
  apply keeps_orders_bind; [apply keeps_orders_call |].
  intros _ e w. cbv beta zeta. now destruct (existsb _ _).
Qed.

Lemma keeps_orders_update_sold_quantities ups :
  keeps_orders (update_sold_quantities ups).
Proof.
  induction ups as [| u rest IH]; cbn [update_sold_quantities].
  - apply keeps_orders_ret.
  - apply keeps_orders_bind; [now apply keeps_orders_update | intros _; exact IH].
Qed.

Lemma keeps_orders_insert_tickets n orderId ticket :
  keeps_orders (insert_tickets n orderId ticket).
Proof.
  induction n as [| n IH]; cbn [insert_tickets].
  - apply keeps_orders_ret.
  - apply keeps_orders_bind; [apply keeps_orders_random | intros uuid].
    apply keeps_orders_bind; [apply keeps_orders_insert_ticket | intros _; exact IH].
Qed.

Lemma keeps_orders_create_ticket_records tickets orderId :
  keeps_orders (create_ticket_records tickets orderId).
Proof.
  induction tickets as [| t rest IH]; cbn [create_ticket_records].
  - apply keeps_orders_ret.
  - apply keeps_orders_bind; [apply keeps_orders_insert_tickets | intros _; exact IH].
Qed.

(** The first loop, when it runs to its end: nothing was written, every
    tier was found, and the total is the sum of the locked prices. *)
Lemma check_tickets_val eventId tickets :
  forall total ups e w w' total' ups',
    check_tickets eventId tickets total ups e w = (w', Val (total', ups')) ->
    w_db w' = w_db w /\ w_snapshot w' = w_snapshot w /\
    total' = total + reservation_total (w_db w) eventId tickets /\
    Forall (fun t => select_tier_for_update (tierId t) eventId (w_db w) <> [])
           tickets.
Proof.
  induction tickets as [| t rest IH]; intros total ups e w w' total' ups' H.
  - inversion H; subst. cbn. repeat split; [lia | constructor].
  - cbn [check_tickets] in H. apply bind_val in H.
    destruct H as [w1 [tiers [Hq H]]]. apply query_val in Hq.
    destruct Hq as [-> ->].
    destruct (select_tier_for_update (tierId t) eventId (w_db w))
      as [| tier others] eqn:Hsel.
    + apply bind_val in H. destruct H as [w2 [a [_ H]]]. discriminate.
    + destruct (_ >? _).
      { apply bind_val in H. destruct H as [w2 [a [_ H]]]. discriminate. }
      apply bind_val in H. destruct H as [w2 [now [Hnow H]]].
      inversion Hnow; subst w2 now.
      destruct (not_started tier (env_now e)).
      { apply bind_val in H. destruct H as [w2 [a [_ H]]]. discriminate. }
      destruct (has_ended tier (env_now e)).
      { apply bind_val in H. destruct H as [w2 [a [_ H]]]. discriminate. }
      apply IH in H. cbn [w_db w_snapshot tick] in H.
      destruct H as [Hdb [Hsnap [Htotal Hall]]].
      repeat split; auto.
      * rewrite Htotal. unfold reservation_total. cbn [map fold_right].
        unfold locked_price at 2. rewrite Hsel. lia.
      * constructor; [rewrite Hsel; discriminate | exact Hall].
Qed.

Lemma created_order_row user_id req e w w' r :
  create_order_try user_id req e w = (w', Val r) ->
  w_snapshot w' = None /\
  Forall (fun t => select_tier_for_update (tierId t) (rq_eventId req) (w_db w)
                   <> []) (rq_tickets req) /\
  exists row data message,
    r = {| status := 201; payload := Json true message (Some data) |} /\
    orders (w_db w') = (orders (w_db w) ++ [row])%list /\
    o_id row = orderId data /\ o_status row = pending /\
    o_total_amount row
    = reservation_total (w_db w) (rq_eventId req) (rq_tickets req) /\
    totalAmount data = o_total_amount row.
Proof.
  unfold create_order_try. intros H.
  apply bind_val in H. destruct H as [w1 [[] [Hbegin H]]].
  unfold beginTransaction in Hbegin. apply bind_val in Hbegin.
  destruct Hbegin as [w0 [[] [Hc Hbegin]]]. apply call_val in Hc. subst w0.
  inversion Hbegin; subst w1. clear Hbegin. cbv zeta in H.
  apply bind_val in H. destruct H as [w2 [evs [Hq H]]].
  apply query_val in Hq. destruct Hq as [-> Hevs].
  destruct evs as [| event others].
  { apply bind_val in H. destruct H as [w3 [a [_ H]]]. discriminate. }
  apply bind_val in H. destruct H as [w3 [[total ups] [Hcheck H]]].
  apply check_tickets_val in Hcheck. cbn [w_db w_snapshot tick set_snapshot] in Hcheck.
  destruct Hcheck as [Hdb3 [Hsnap3 [Htotal Hfound]]].
  apply bind_val in H. destruct H as [w4 [now [Hnow H]]].
  inversion Hnow; subst w4 now. clear Hnow.
  apply bind_val in H. destruct H as [w4 [rnd [Hrnd H]]].
  inversion Hrnd; subst w4 rnd. clear Hrnd. cbv zeta in H.
  apply bind_val in H. destruct H as [w4 [id [Hins H]]].
  apply insert_order_val in Hins. destruct Hins as [Hsnap4 [_ [row [Horders [Hid [Hamount Hstatus]]]]]].
  apply bind_val in H. destruct H as [w5 [[] [Hsold H]]].
  pose proof (keeps_orders_update_sold_quantities ups e w4) as [Ho5 _].
  rewrite Hsold in Ho5. cbn [fst] in Ho5.
  apply bind_val in H. destruct H as [w6 [[] [Hrec H]]].
  pose proof (keeps_orders_create_ticket_records (rq_tickets req) id e w5) as [Ho6 _].
  rewrite Hrec in Ho6. cbn [fst] in Ho6.
  apply bind_val in H. destruct H as [w7 [[] [Hcommit H]]].
  unfold commit in Hcommit. apply bind_val in Hcommit.
  destruct Hcommit as [w0 [[] [Hc Hcommit]]]. apply call_val in Hc. subst w0.
  inversion Hcommit; subst w7. clear Hcommit.
  apply bind_val in H. destruct H as [w8 [url [Hurl H]]].
  unfold createCheckoutSession in Hurl. apply bind_val in Hurl.
  destruct Hurl as [w0 [[] [Hc Hurl]]]. apply call_val in Hc. subst w0.
  inversion Hurl; subst w8 url. clear Hurl.
  inversion H; subst w' r. cbn [w_snapshot w_db tick set_snapshot].
  split; [reflexivity |]. split; [exact Hfound |].
  exists row. eexists. eexists. split; [reflexivity |]. cbn [orderId totalAmount].
  rewrite Ho6, Ho5, Horders, Hdb3, Hamount, Htotal.
  repeat split; auto.
Qed.

(** ** What later operations leave of an order's total *)

Lemma keeps_totals_ret {A} (a : A) : keeps_totals (ret a).
Proof. now intros t0 e w H. Qed.

Lemma keeps_totals_respond {A} r : keeps_totals (@respond A r).
Proof. now intros t0 e w H. Qed.

Lemma keeps_totals_throw {A} x : keeps_totals (@throw A x).
Proof. now intros t0 e w H. Qed.

Lemma keeps_totals_bind {A B} (m : M A) (k : A -> M B) :
  keeps_totals m -> (forall a, keeps_totals (k a)) -> keeps_totals (bind m k).
Proof.
  intros Hm Hk t0 e w H. rewrite bind_eq. specialize (Hm t0 e w H).
  destruct (m e w) as [w1 [a | r | x]]; cbn [fst] in *; auto. now apply Hk.
Qed.

Lemma keeps_totals_try_catch {A} (m : M A) (h : exn -> M A) :
  keeps_totals m -> (forall x, keeps_totals (h x)) ->
  keeps_totals (try_catch m h).
Proof.
  intros Hm Hh t0 e w H. unfold try_catch. specialize (Hm t0 e w H).
  destruct (m e w) as [w1 [a | r | x]]; cbn [fst] in *; auto. now apply Hh.
Qed.

Lemma keeps_totals_call kind : keeps_totals (call kind).
Proof.
  intros t0 e w H. unfold call. now destruct (env_fault e (w_calls w)).
Qed.

Lemma keeps_totals_query {A} (q : db -> A) : keeps_totals (query q).
Proof.
  apply keeps_totals_bind; [apply keeps_totals_call | now intros _ t0 e w H].
Qed.

Lemma keeps_totals_update f :
  (forall d, order_totals (f d) = order_totals d) -> keeps_totals (update f).
Proof.
  intros Hf. apply keeps_totals_bind; [apply keeps_totals_call |].
  intros _ t0 e w [H Hs]. split; [cbn; now rewrite Hf | exact Hs].
Qed.

Lemma keeps_totals_beginTransaction : keeps_totals beginTransaction.
Proof.
  apply keeps_totals_bind; [apply keeps_totals_call |].
  intros _ t0 e w [H Hs]. split; [exact H |]. cbn. now intros s [= <-].
Qed.

Lemma keeps_totals_commit : keeps_totals commit.
Proof.
  apply keeps_totals_bind; [apply keeps_totals_call |].
  intros _ t0 e w [H Hs]. split; [exact H | discriminate].
Qed.

Lemma keeps_totals_rollback : keeps_totals rollback.
Proof.
  intros t0 e w [H Hs]. unfold rollback.
  destruct (w_snapshot w) as [s |] eqn:Hsnap;
    [| split; [exact H | cbn; rewrite Hsnap; discriminate]].
  split; [exact (Hs s eq_refl) | discriminate].
Qed.

Lemma keeps_totals_insert_order u ev n t b :
  keeps_totals (insert_order u ev n t b).
Proof.
  apply keeps_totals_bind; [apply keeps_totals_call |].
  intros _ t0 e w [[extra H] Hs]. cbv beta zeta.
  destruct (existsb _ _); [split; [now exists extra | exact Hs] |].
  split; [| exact Hs]. unfold order_totals in *. cbn.
  rewrite map_app, H, <- app_assoc. eexists. reflexivity.
Qed.

Lemma keeps_totals_insert_ticket o t c n m :
  keeps_totals (insert_ticket o t c n m).
Proof.
  apply keeps_totals_bind; [apply keeps_totals_call |].
  intros _ t0 e w H. cbv beta zeta. now destruct (existsb _ _).
Qed.

Lemma keeps_totals_publishMessage q m : keeps_totals (publishMessage q m).
Proof.
  apply keeps_totals_bind; [apply keeps_totals_call | now intros _ t0 e w H].
Qed.

Lemma keeps_totals_Date_now : keeps_totals Date_now.
Proof. now intros t0 e w H. Qed.

Lemma keeps_totals_random : keeps_totals random.
Proof. now intros t0 e w H. Qed.

Lemma order_totals_map g d :
  (forall o, o_id (g o) = o_id o /\ o_total_amount (g o) = o_total_amount o) ->
  order_totals (with_orders d (map g (orders d))) = order_totals d.
Proof.
  intros Hg. unfold order_totals. cbn. rewrite map_map. apply map_ext.
  intros o. now destruct (Hg o) as [-> ->].
Qed.

Lemma order_totals_set_order_status s id d :
  order_totals (set_order_status s id d) = order_totals d.
Proof.
  apply order_totals_map. intros o. now destruct (o_id o =? id).
Qed.

Lemma order_totals_mark_paid p id d :
  order_totals (mark_paid p id d) = order_totals d.
Proof.
  apply order_totals_map. intros o. now destruct (o_id o =? id).
Qed.

Lemma order_totals_record_session s id d :
  order_totals (record_session s id d) = order_totals d.
Proof.
  apply order_totals_map. intros o. now destruct (o_id o =? id).
Qed.

Create HintDb totals.
#[local] Hint Resolve keeps_totals_ret keeps_totals_respond keeps_totals_throw
  keeps_totals_call keeps_totals_query keeps_totals_beginTransaction
  keeps_totals_commit keeps_totals_rollback keeps_totals_insert_order
  keeps_totals_insert_ticket keeps_totals_publishMessage
  keeps_totals_Date_now keeps_totals_random : totals.
#[local] Hint Resolve order_totals_set_order_status order_totals_mark_paid
  order_totals_record_session : totals.

(** Takes a handler apart along its binds, branches and [catch]. *)
Ltac keeps :=
  repeat first
    [ solve [auto with totals]
    | apply keeps_totals_update; intros ?; solve [auto with totals | reflexivity]
    | progress cbv zeta
    | apply keeps_totals_try_catch; [| intros ?]
    | apply keeps_totals_bind; [| intros ?]
    | match goal with
      | |- keeps_totals (match ?x with _ => _ end) => destruct x
      end ].

Lemma keeps_totals_check_tickets eventId tickets :
  forall total ups, keeps_totals (check_tickets eventId tickets total ups).
Proof.
  induction tickets as [| t rest IH]; intros total ups; cbn [check_tickets];
    keeps.
Qed.

Lemma keeps_totals_update_sold_quantities ups :
  keeps_totals (update_sold_quantities ups).
Proof.
  induction ups as [| u rest IH]; cbn [update_sold_quantities]; keeps.
Qed.

Lemma keeps_totals_insert_tickets n orderId ticket :
  keeps_totals (insert_tickets n orderId ticket).
Proof. induction n as [| n IH]; cbn [insert_tickets]; keeps. Qed.

Lemma keeps_totals_create_ticket_records tickets orderId :
  keeps_totals (create_ticket_records tickets orderId).
Proof.
  induction tickets as [| t rest IH]; cbn [create_ticket_records]; keeps.
  apply keeps_totals_insert_tickets.
Qed.

#[local] Hint Resolve keeps_totals_check_tickets
  keeps_totals_update_sold_quantities keeps_totals_create_ticket_records
  : totals.

Lemma keeps_totals_create_order user_id req :
  keeps_totals (create_order user_id req).
Proof.
  unfold create_order, create_order_try, createCheckoutSession. keeps.
Qed.

Lemma keeps_totals_cancel_order user_id id :
  keeps_totals (cancel_order user_id id).
Proof. unfold cancel_order. keeps. Qed.

Lemma keeps_totals_dispatch event : keeps_totals (dispatch event).
Proof.
  unfold dispatch, handlePaymentSuccess, handlePaymentFailure,
    handleCheckoutCompleted, handlePaymentCanceled.
  keeps.
Qed.

Lemma keeps_totals_processPaymentWebhook m :
  keeps_totals (processPaymentWebhook m).
Proof. unfold processPaymentWebhook. keeps. Qed.

Lemma keeps_totals_update_tier user id p : keeps_totals (update_tier user id p).
Proof. unfold update_tier. keeps. Qed.

Lemma keeps_totals_delete_tier user id : keeps_totals (delete_tier user id).
Proof. unfold delete_tier. keeps. Qed.

Lemma keeps_totals_post_order lib user_id req :
  keeps_totals (post_order lib user_id req).
Proof.
  unfold post_order, validateOrderCreation, check_order_total,
    handleValidationErrors.
  keeps; apply keeps_totals_create_order.
Qed.

Lemma perform_keeps_totals op e w t0 :
  totals_kept t0 w -> totals_kept t0 (perform op e w).
Proof.
  destruct op; cbn [perform]; unfold after.
  - apply keeps_totals_post_order.
  - apply keeps_totals_cancel_order.
  - apply keeps_totals_dispatch.
  - apply keeps_totals_processPaymentWebhook.
  - apply keeps_totals_update_tier.
  - apply keeps_totals_delete_tier.
Qed.

Lemma perform_all_keeps_totals later :
  forall w t0, totals_kept t0 w -> totals_kept t0 (perform_all later w).
Proof.
  induction later as [| [op e] later IH]; intros w t0 H; [exact H |].
  apply IH. now apply perform_keeps_totals.
Qed.

Lemma create_order_created user_id req e w w' r :
  w_snapshot w = None ->
  answer (create_order user_id req) e w = (w', Some r) ->
  status r = 201 ->
  create_order_try user_id req e w = (w', Val r).
Proof.
  intros Hopen Hrun Hstatus.
  pose proof (create_order_try_outcome user_id req e w Hopen) as Hout.
  unfold answer, create_order, try_catch in Hrun.
  destruct (create_order_try user_id req e w) as [w1 [a | r1 | x]].
  - now inversion Hrun.
  - inversion Hrun; subst. now destruct Hout as [_ Hr].
  - rewrite bind_eq in Hrun. unfold rollback in Hrun.
    destruct (w_snapshot w1); cbn in Hrun; inversion Hrun; subst; discriminate.
Qed.

(** Claim C6 (price snapshot).  The order row written by a successful
    reservation carries, as [total_amount], the sum over the line items of
    the locked tier's price times the requested quantity, which is also
    the total the client is told; and after any sequence of later
    operations (tier updates and deletions, Stripe events, queue messages,
    cancellations, other reservations) the order totals recorded then are
    still there, unchanged. *)
Theorem C6_total_amount_is_a_snapshot user_id req e w w' r
    (later : list (operation * env))
    (Hopen : w_snapshot w = None)
    (Hrun : answer (create_order user_id req) e w = (w', Some r))
    (Hcreated : status r = 201) :
  exists row data message,
    payload r = Json true message (Some data) /\
    orders (w_db w') = (orders (w_db w) ++ [row])%list /\
    o_id row = orderId data /\
    o_total_amount row
    = reservation_total (w_db w) (rq_eventId req) (rq_tickets req) /\
    totalAmount data = o_total_amount row /\
    prefix_of (order_totals (w_db w')) (order_totals (w_db (perform_all later w'))).
Proof.
  pose proof (create_order_created _ _ _ _ _ _ Hopen Hrun Hcreated) as Htry.
  apply created_order_row in Htry.
  destruct Htry as [Hclosed [_ [row [data [message [-> [Horders [Hid [_ [Htotal Hdata]]]]]]]]]].
  exists row, data, message.
  split; [reflexivity |]. split; [exact Horders |]. split; [exact Hid |].
  split; [exact Htotal |]. split; [exact Hdata |].
  refine (proj1 (perform_all_keeps_totals later w' _ _)).
  split; [exists []; now rewrite app_nil_r | now rewrite Hclosed].
Qed.

(** ** The validator *)






Lemma NoDup_map_inj {A B} (f : A -> B) (l : list A) a b :
  NoDup (map f l) -> In a l -> In b l -> f a = f b -> a = b.
Proof.
  induction l as [| x l IH]; intros Hnd Ha Hb Hf; [contradiction |].
  cbn in Hnd. inversion Hnd as [| ? ? Hnotin Hnd']; subst.
  destruct Ha as [-> | Ha], Hb as [-> | Hb]; auto.
  - exfalso. apply Hnotin. rewrite Hf. now apply in_map.
  - exfalso. apply Hnotin. rewrite <- Hf. now apply in_map.
Qed.






(** ** The tier routes *)

(** Claim C9, amended (the guard of a tier with sales).  A request against
    a tier that it reads with a positive [sold_quantity] changes nothing in
    the tables, on the update route as on the delete route, whoever asks
    and whatever the store does.  When the store answers, the requester who
    is the organizer of the event or an admin is answered 400, and any
    other requester 403, by the permission check that comes first; when the
    first query fails the answer is 500. *)
Theorem C9_sold_tier_is_guarded user id p e w tier organizer_id others
    (Hsel : select_tier_with_organizer id (w_db w)
            = (tier, organizer_id) :: others)
    (Hsold : 0 < tt_sold_quantity tier) :
  w_db (fst (answer (update_tier user id p) e w)) = w_db w /\
  w_db (fst (answer (delete_tier user id) e w)) = w_db w /\
  (env_fault e (w_calls w) = false ->
   access_denied organizer_id user = false ->
   snd (answer (update_tier user id p) e w)
   = Some (failure 400 "Cannot modify tier with sold tickets") /\
   snd (answer (delete_tier user id) e w)
   = Some (failure 400 "Cannot delete tier with sold tickets")) /\
  (env_fault e (w_calls w) = false ->
   access_denied organizer_id user = true ->
   snd (answer (update_tier user id p) e w)
   = Some (failure 403 "Access denied") /\
   snd (answer (delete_tier user id) e w)
   = Some (failure 403 "Access denied")) /\
  (env_fault e (w_calls w) = true ->
   snd (answer (update_tier user id p) e w)
   = Some (failure 500 "Failed to update ticket tier") /\
   snd (answer (delete_tier user id) e w)
   = Some (failure 500 "Failed to delete ticket tier")).
Proof.
  assert (Hgt : (tt_sold_quantity tier >? 0) = true)
    by (rewrite Z.gtb_ltb; apply Z.ltb_lt; exact Hsold).
  unfold answer, update_tier, delete_tier, try_catch, query, call.
  rewrite !bind_eq.
  destruct (env_fault e (w_calls w)); cbn.
  - repeat split; intros; discriminate.
  - rewrite Hsel. destruct (access_denied organizer_id user); cbn.
    + repeat split; intros; discriminate.
    + rewrite Hgt. cbn. repeat split; intros; discriminate.
Qed.

(** ** The webhook handlers *)

Lemma publishMessage_quiet e q m w :
  (forall n, env_fault e n = false) ->
  publishMessage q m e w
  = ({| w_db := w_db w; w_snapshot := w_snapshot w; w_calls := S (w_calls w);
        w_queue := (w_queue w ++ [(q, m)])%list |}, Val tt).
Proof.
  intros Hquiet. unfold publishMessage.
  rewrite bind_eq, (call_quiet e Hquiet). reflexivity.
Qed.

Lemma handlePaymentSuccess_quiet paymentIntent e w :
  (forall n, env_fault e n = false) ->
  let d := mark_paid (so_id paymentIntent) (so_orderId paymentIntent) (w_db w) in
  w_db (after (handlePaymentSuccess paymentIntent) e w) = d /\
  w_queue (after (handlePaymentSuccess paymentIntent) e w)
  = (w_queue w ++ confirmation_messages paymentIntent d)%list.
Proof.
  intros Hquiet. unfold after, handlePaymentSuccess, try_catch, confirmation_messages.
  cbv zeta. rewrite bind_eq, (update_quiet e Hquiet).
  rewrite bind_eq, (query_quiet e Hquiet). cbn [w_db set_db tick].
  destruct (select_order_details _ _) as [| order others].
  - cbn. now rewrite app_nil_r.
  - rewrite bind_eq, (query_quiet e Hquiet). cbn [w_db set_db tick].
    rewrite bind_eq, (publishMessage_quiet e _ _ _ Hquiet).
    rewrite (publishMessage_quiet e _ _ _ Hquiet).
    cbn [fst w_db w_queue]. rewrite <- app_assoc. split; reflexivity.
Qed.

Lemma mark_paid_twice p id d : mark_paid p id (mark_paid p id d) = mark_paid p id d.
Proof.
  unfold mark_paid, with_orders. cbn. f_equal. rewrite map_map.
  apply map_ext. intros o. destruct (o_id o =? id) eqn:Hid; cbn.
  - now rewrite Hid.
  - now rewrite Hid.
Qed.

(** Claim C3, amended.  Delivering the same success event a second time
    leaves every table as the first delivery left it, but it publishes
    again what the first delivery published: the order confirmation and
    the ticket-generation message. *)
Theorem C3_success_replay_repeats_the_messages paymentIntent e1 e2 w
    (Hquiet1 : forall n, env_fault e1 n = false)
    (Hquiet2 : forall n, env_fault e2 n = false) :
  let w1 := after (handlePaymentSuccess paymentIntent) e1 w in
  let w2 := after (handlePaymentSuccess paymentIntent) e2 w1 in
  w_db w2 = w_db w1 /\
  w_queue w1 = (w_queue w ++ confirmation_messages paymentIntent (w_db w1))%list /\
  w_queue w2 = (w_queue w1 ++ confirmation_messages paymentIntent (w_db w1))%list.
Proof.
  cbv zeta.
  destruct (handlePaymentSuccess_quiet paymentIntent e1 w Hquiet1) as [Hdb1 Hq1].
  destruct (handlePaymentSuccess_quiet paymentIntent e2
              (after (handlePaymentSuccess paymentIntent) e1 w) Hquiet2)
    as [Hdb2 Hq2].
  cbv zeta in *. rewrite Hdb1 in Hdb2, Hq2. rewrite mark_paid_twice in Hdb2, Hq2.
  rewrite Hdb2, Hdb1. repeat split; assumption.
Qed.

Lemma no_return_ret {A} (a : A) : no_return (ret a).
Proof. intros e w r. discriminate. Qed.

Lemma no_return_bind {A B} (m : M A) (k : A -> M B) :
  no_return m -> (forall a, no_return (k a)) -> no_return (bind m k).
Proof.
  intros Hm Hk e w r. rewrite bind_eq. specialize (Hm e w).
  destruct (m e w) as [w1 [a | r1 | x]]; cbn in *.
  - apply Hk.
  - now destruct (Hm r1).
  - discriminate.
Qed.

Lemma no_return_call kind : no_return (call kind).
Proof.
  intros e w r. unfold call. destruct (env_fault e (w_calls w)); discriminate.
Qed.

Lemma no_return_query {A} (q : db -> A) : no_return (query q).
Proof.
  apply no_return_bind; [apply no_return_call | intros _ e w r; discriminate].
Qed.

Lemma no_return_update f : no_return (update f).
Proof.
  apply no_return_bind; [apply no_return_call | intros _ e w r; discriminate].
Qed.

Lemma no_return_publishMessage q m : no_return (publishMessage q m).
Proof.
  apply no_return_bind; [apply no_return_call | intros _ e w r; discriminate].
Qed.

(** [try { m } catch (error) { console.error(...) }] comes back. *)
Lemma swallow_comes_back (m : M unit) e w :
  no_return m ->
  exists w', try_catch m (fun error => ret tt) e w = (w', Val tt).
Proof.
  intros Hm. unfold try_catch. specialize (Hm e w).
  destruct (m e w) as [w1 [[] | r | x]]; cbn in *.
  - now exists w1.
  - now destruct (Hm r).
  - now exists w1.
Qed.

Lemma dispatch_comes_back event e w :
  exists w', dispatch event e w = (w', Val tt).
Proof.
  unfold dispatch, handlePaymentSuccess, handlePaymentFailure,
    handleCheckoutCompleted, handlePaymentCanceled.
  repeat match goal with
         | |- context [if ?b then _ else _] => destruct b
         end;
    try (now exists w); apply swallow_comes_back; cbv zeta;
    repeat first
      [ apply no_return_update | apply no_return_query
      | apply no_return_publishMessage | apply no_return_ret
      | apply no_return_bind; [| intros ?]
      | match goal with
        | |- no_return (match ?x with _ => _ end) => destruct x
        end ].
Qed.

(** Claim C8, amended.  While no outgoing call fails, the webhook route
    answers 200 to an event whose signature verifies; an event whose
    signature does not verify is answered 400 with the verifier's message,
    and the world is left exactly as it was: no row changed, nothing
    published, no statement sent. *)
Theorem C8_webhook_answers constructEvent secret req e w
    (Hquiet : forall n, env_fault e n = false) :
  match constructEvent (wh_body req) (wh_signature req) secret with
  | inr message =>
      answer (stripe_webhook constructEvent secret req) e w
      = (w, Some {| status := 400;
                    payload := Text ("Webhook Error: " ++ message) |})
  | inl event =>
      snd (answer (stripe_webhook constructEvent secret req) e w)
      = Some {| status := 200; payload := Received |}
  end.
Proof.
  unfold answer, stripe_webhook, handleWebhook, try_catch.
  destruct (constructEvent _ _ _) as [event | message]; [| reflexivity].
  rewrite bind_eq. destruct (dispatch_comes_back event e w) as [w' ->].
  reflexivity.
Qed.

(** ** Runs that part from the specification *)

Import Scenario.

(** Claim C1 (the ledger invariant), on the code.  From tables where every
    tier has [0 <= sold_quantity <= quantity]: a request with two line
    items for the same tier, ten seats each, against a tier of ten seats
    with none sold, is answered 201 and leaves [sold_quantity = 20]; and a
    failure event delivered twice for a one-seat order leaves
    [sold_quantity = -1]. *)
Theorem C1_ledger_invariant_is_broken :
  ledger_ok fresh = true /\
  (let run := answer (post_order lenient 3 (request [seats 1 10; seats 1 10]))
                     (quiet 1000) (start fresh) in
   option_map status (snd run) = Some 201 /\
   map (fun tt => (tt_sold_quantity tt, tt_quantity tt))
       (ticket_tiers (w_db (fst run))) = [(20, 10)] /\
   ledger_ok (w_db (fst run)) = false) /\
  (let once := after (handlePaymentFailure intent) (quiet 3000) (reserved 1) in
   let twice := after (handlePaymentFailure intent) (quiet 4000) once in
   ledger_ok (w_db (reserved 1)) = true /\
   map tt_sold_quantity (ticket_tiers (w_db once)) = [0] /\
   map tt_sold_quantity (ticket_tiers (w_db twice)) = [-1] /\
   ledger_ok (w_db twice) = false).
Proof. vm_compute. repeat split. Qed.

(** Claim C7 (the checks and their order), on the code.  The route applies
    the three checks to each line item against the tier row as stored, and
    adds the quantities to the row only after the loop.  For a request with
    two line items for the same tier, ten seats each, against a tier of ten
    seats with none sold, the second check fails for the tier, [0 + 20 >
    10] with ten left; yet each line item passes the route's test, the
    route answers 201 and not a client error, and the transaction is
    committed with twenty seats taken and twenty tickets. *)
Theorem C7_capacity_is_checked_per_line_item :
  let items := [seats 1 10; seats 1 10] in
  judge_tier fresh 1 1000 items 1 = CapacityExceeded regular 10 /\
  Forall (fun t => judge fresh 1 1000 t = Accepted regular) items /\
  (let run := answer (create_order 3 (request items)) (quiet 1000)
                     (start fresh) in
   option_map status (snd run) = Some 201 /\
   w_snapshot (fst run) = None /\
   map (fun tt => (tt_sold_quantity tt, tt_quantity tt))
       (ticket_tiers (w_db (fst run))) = [(20, 10)] /\
   List.length (tickets (w_db (fst run))) = 20%nat).
Proof. vm_compute. repeat split; repeat constructor. Qed.

(** Claim C4 (compensation gives back one unit per ticket row), on the
    code.  A pending order with two ticket rows on one tier holds two
    seats; cancelling it, or a failure or cancellation event for it, on
    either path, brings [sold_quantity] from 2 to 1. *)
Theorem C4_compensation_gives_back_one_seat_per_tier :
  List.length (tickets_of_order (w_db (reserved 2)) 1) = 2%nat /\
  map o_status (orders (w_db (reserved 2))) = [pending] /\
  map tt_sold_quantity (ticket_tiers (w_db (reserved 2))) = [2] /\
  map tt_sold_quantity
      (ticket_tiers (w_db (after (cancel_order 3 1) (quiet 3000) (reserved 2))))
  = [1] /\
  map tt_sold_quantity
      (ticket_tiers (w_db (after (handlePaymentFailure intent) (quiet 3000)
                                 (reserved 2))))
  = [1] /\
  map tt_sold_quantity
      (ticket_tiers (w_db (after (handlePaymentCanceled intent) (quiet 3000)
                                 (reserved 2))))
  = [1] /\
  map tt_sold_quantity
      (ticket_tiers
         (w_db (after (processPaymentWebhook
                         (payment_failed {| pd_orderId := 1;
                                            pd_email := "customer@ticketing.com" |}))
                      (quiet 3000) (reserved 2))))
  = [1].
Proof. vm_compute. repeat split. Qed.

(** Claim C5 (events for an order that is not pending are no-ops), on the
    code.  A failure event for a paid order turns it to [cancelled] and
    takes a seat off the tier's [sold_quantity]; a cancellation event for
    the order, now cancelled, takes off another. *)
Theorem C5_failure_event_cancels_a_paid_order :
  map o_status (orders (w_db (settled 1))) = [paid] /\
  map tt_sold_quantity (ticket_tiers (w_db (settled 1))) = [1] /\
  (let failed := after (handlePaymentFailure intent) (quiet 3000) (settled 1) in
   map o_status (orders (w_db failed)) = [cancelled] /\
   map tt_sold_quantity (ticket_tiers (w_db failed)) = [0] /\
   let again := after (handlePaymentCanceled intent) (quiet 4000) failed in
   map o_status (orders (w_db again)) = [cancelled] /\
   map tt_sold_quantity (ticket_tiers (w_db again)) = [-1]).
Proof. vm_compute. repeat split. Qed.

(** Claim C3 as stated fails: a second success event for an order already
    paid adds to what has been published. *)
Lemma C3_replayed_success_publishes_again :
  map o_status (orders (w_db (settled 1))) = [paid] /\
  w_queue (after (handlePaymentSuccess intent) (quiet 2500) (settled 1))
  <> w_queue (settled 1).
Proof.
  split; [vm_compute; reflexivity |].
  intros H. apply (f_equal (@List.length _)) in H. vm_compute in H.
  discriminate.
Qed.

(** Claim C8 as stated fails: an event whose signature does not verify is
    not answered 200. *)
Lemma C8_forged_signature_is_answered_400 :
  option_map status
    (snd (answer (stripe_webhook constructEvent "whsec_test"
                    (forged "payment_intent.succeeded"))
                 (quiet 2000) (reserved 1)))
  <> Some 200.
Proof. vm_compute. discriminate. Qed.

(** Claim C9 as stated fails: against a tier with two seats sold, a
    requester who is neither the organizer of the event nor an admin is
    answered 403 on both routes, not 400. *)
Lemma C9_stranger_is_answered_403 :
  map tt_sold_quantity (ticket_tiers (w_db (reserved 2))) = [2] /\
  option_map status
    (snd (answer (update_tier stranger 1 raise_price) (quiet 2000) (reserved 2)))
  = Some 403 /\
  option_map status
    (snd (answer (delete_tier stranger 1) (quiet 2000) (reserved 2)))
  = Some 403.
Proof. vm_compute. repeat split. Qed.

(** ** The theorems at work *)

Lemma C2_store_failure_witness :
  same_rows (w_db (start fresh))
    (w_db (fst (answer (create_order 3 (request [seats 1 2]))
                       (flaky 1000 6) (start fresh))))
  /\ w_snapshot (fst (answer (create_order 3 (request [seats 1 2]))
                             (flaky 1000 6) (start fresh))) = None.
Proof.
  apply (C2_failed_reservation_leaves_no_trace 3 (request [seats 1 2])
           (flaky 1000 6) (start fresh) _
           (failure 500 "Failed to create order")).
  - reflexivity.
  - vm_compute. reflexivity.
  - right. right. eexists. vm_compute. reflexivity.
Defined.

Lemma C3_replay_witness :
  w_db (after (handlePaymentSuccess intent) (quiet 2500) (settled 1))
  = w_db (settled 1) /\
  w_queue (settled 1)
  = (w_queue (reserved 1) ++ confirmation_messages intent (w_db (settled 1)))%list /\
  w_queue (after (handlePaymentSuccess intent) (quiet 2500) (settled 1))
  = (w_queue (settled 1) ++ confirmation_messages intent (w_db (settled 1)))%list.
Proof.
  apply (C3_success_replay_repeats_the_messages intent (quiet 2000) (quiet 2500)
           (reserved 1)); intros n; reflexivity.
Defined.

Lemma C6_price_snapshot_witness :
  exists row data message,
    payload receipt = Json true message (Some data) /\
    orders (w_db booked) = (orders (w_db (start fresh)) ++ [row])%list /\
    o_id row = orderId data /\
    o_total_amount row = reservation_total (w_db (start fresh)) 1 [seats 1 1] /\
    totalAmount data = o_total_amount row /\
    prefix_of (order_totals (w_db booked))
              (order_totals (w_db (perform_all aftermath booked))).
Proof.
  apply (C6_total_amount_is_a_snapshot 3 (request [seats 1 1]) (quiet 1000)
           (start fresh) booked receipt aftermath).
  - reflexivity.
  - vm_compute. reflexivity.
  - reflexivity.
Defined.

Lemma C8_webhook_witness :
  answer (stripe_webhook constructEvent "whsec_test"
            (forged "payment_intent.succeeded"))
         (quiet 2000) (reserved 1)
  = (reserved 1,
     Some {| status := 400;
             payload := Text ("Webhook Error: " ++
               "No signatures found matching the expected signature for payload") |})
  /\ snd (answer (stripe_webhook constructEvent "whsec_test"
                    (signed "payment_intent.succeeded"))
                 (quiet 2000) (reserved 1))
     = Some {| status := 200; payload := Received |}.
Proof.
  split.
  - exact (C8_webhook_answers constructEvent "whsec_test"
             (forged "payment_intent.succeeded") (quiet 2000) (reserved 1)
             (fun n => eq_refl)).
  - exact (C8_webhook_answers constructEvent "whsec_test"
             (signed "payment_intent.succeeded") (quiet 2000) (reserved 1)
             (fun n => eq_refl)).
Defined.

Lemma C9_guarded_tier_witness :
  w_db (fst (answer (update_tier the_organizer 1 raise_price) (quiet 2000)
                    (reserved 2))) = w_db (reserved 2) /\
  w_db (fst (answer (delete_tier the_organizer 1) (quiet 2000) (reserved 2)))
  = w_db (reserved 2) /\
  (env_fault (quiet 2000) (w_calls (reserved 2)) = false ->
   access_denied 2 the_organizer = false ->
   snd (answer (update_tier the_organizer 1 raise_price) (quiet 2000)
               (reserved 2))
   = Some (failure 400 "Cannot modify tier with sold tickets") /\
   snd (answer (delete_tier the_organizer 1) (quiet 2000) (reserved 2))
   = Some (failure 400 "Cannot delete tier with sold tickets")) /\
  (env_fault (quiet 2000) (w_calls (reserved 2)) = false ->
   access_denied 2 the_organizer = true ->
   snd (answer (update_tier the_organizer 1 raise_price) (quiet 2000)
               (reserved 2))
   = Some (failure 403 "Access denied") /\
   snd (answer (delete_tier the_organizer 1) (quiet 2000) (reserved 2))
   = Some (failure 403 "Access denied")) /\
  (env_fault (quiet 2000) (w_calls (reserved 2)) = true ->
   snd (answer (update_tier the_organizer 1 raise_price) (quiet 2000)
               (reserved 2))
   = Some (failure 500 "Failed to update ticket tier") /\
   snd (answer (delete_tier the_organizer 1) (quiet 2000) (reserved 2))
   = Some (failure 500 "Failed to delete ticket tier")).
Proof.
  apply (C9_sold_tier_is_guarded the_organizer 1 raise_price (quiet 2000)
           (reserved 2) (set_sold_quantity regular 2) 2 []).
  - vm_compute. reflexivity.
  - reflexivity.
Defined.


(** * More of the code, verified *)

(** ** What a reservation writes when it goes through *)

Lemma store_only_ret {A} (a : A) : store_only (ret a).
Proof. intros e w w' x H. discriminate. Qed.

Lemma store_only_respond {A} r : store_only (@respond A r).
Proof. intros e w w' x H. discriminate. Qed.

Lemma store_only_bind {A B} (m : M A) (k : A -> M B) :
  store_only m -> (forall a, store_only (k a)) -> store_only (bind m k).
Proof.
  intros Hm Hk e w w' x H. rewrite bind_eq in H.
  destruct (m e w) as [w1 [a | r | y]] eqn:Hrun.
  - now apply (Hk a e w1 w').
  - discriminate.
  - inversion H; subst. now apply (Hm e w w').
Qed.

Lemma store_only_call : store_only (call StoreError).
Proof.
  intros e w w' x H. unfold call in H.
  destruct (env_fault e (w_calls w)); now inversion H.
Qed.

Lemma store_only_query {A} (q : db -> A) : store_only (query q).
Proof.
  apply store_only_bind; [apply store_only_call | intros _ e w w' x H].
  discriminate.
Qed.

Lemma store_only_update f : store_only (update f).
Proof.
  apply store_only_bind; [apply store_only_call | intros _ e w w' x H].
  discriminate.
Qed.

Lemma store_only_beginTransaction : store_only beginTransaction.
Proof.
  apply store_only_bind; [apply store_only_call | intros _ e w w' x H].
  discriminate.
Qed.

Lemma store_only_commit : store_only commit.
Proof.
  apply store_only_bind; [apply store_only_call | intros _ e w w' x H].
  discriminate.
Qed.

Lemma store_only_rollback : store_only rollback.
Proof.
  intros e w w' x H. unfold rollback in H.
  destruct (w_snapshot w); discriminate.
Qed.

Lemma store_only_Date_now : store_only Date_now.
Proof. intros e w w' x H. discriminate. Qed.

Lemma store_only_random : store_only random.
Proof. intros e w w' x H. discriminate. Qed.

Lemma store_only_insert_order u ev n t b : store_only (insert_order u ev n t b).
Proof.
  apply store_only_bind; [apply store_only_call | intros _ e w w' x H].
  cbv beta zeta in H. destruct (existsb _ _); now inversion H.
Qed.

Lemma store_only_insert_ticket o t c n m : store_only (insert_ticket o t c n m).
Proof.
  apply store_only_bind; [apply store_only_call | intros _ e w w' x H].
  cbv beta zeta in H. destruct (existsb _ _); now inversion H.
Qed.

Create HintDb store_only.
#[local] Hint Resolve store_only_ret store_only_respond store_only_call
  store_only_query store_only_update store_only_beginTransaction
  store_only_commit store_only_rollback store_only_Date_now store_only_random
  store_only_insert_order store_only_insert_ticket : store_only.

Ltac store_only :=
  repeat first
    [ solve [auto with store_only]
    | progress cbv zeta
    | apply store_only_bind; [| intros ?]
    | match goal with
      | |- store_only (match ?x with _ => _ end) => destruct x
      end ].

Lemma store_only_check_tickets eventId tickets :
  forall total ups, store_only (check_tickets eventId tickets total ups).
Proof.
  induction tickets as [| t rest IH]; intros total ups; cbn [check_tickets];
    store_only.
Qed.

Lemma store_only_update_sold_quantities ups :
  store_only (update_sold_quantities ups).
Proof.
  induction ups as [| u rest IH]; cbn [update_sold_quantities]; store_only.
Qed.

Lemma store_only_insert_tickets n orderId ticket :
  store_only (insert_tickets n orderId ticket).
Proof. induction n as [| n IH]; cbn [insert_tickets]; store_only. Qed.

Lemma store_only_create_ticket_records tickets orderId :
  store_only (create_ticket_records tickets orderId).
Proof.
  induction tickets as [| t rest IH]; cbn [create_ticket_records]; store_only.
  apply store_only_insert_tickets.
Qed.

(** Past a step that throws only the store's errors, towards an end that
    lies after the commit: the step gave a value. *)
Lemma bind_past_commit {A B} (m : M A) (k : A -> M B) e w w' (o : outcome B) :
  bind m k e w = (w', o) -> past_commit o -> store_only m ->
  exists w1 a, m e w = (w1, Val a) /\ k a e w1 = (w', o).
Proof.
  intros H Ho Hm. rewrite bind_eq in H.
  destruct (m e w) as [w1 [a | r | x]] eqn:Hrun.
  - now exists w1, a.
  - inversion H; subst. contradiction.
  - inversion H; subst. rewrite (Hm e w w' x Hrun) in Ho. contradiction.
Qed.

Lemma sum_for_items id tickets :
  sum_for id (map pair_of_item tickets) = requested id tickets.
Proof.
  unfold sum_for, requested.
  induction tickets as [| t rest IH]; [reflexivity |].
  cbn [map filter pair_of_item fst]. destruct (tierId t =? id); cbn; now rewrite IH.
Qed.

(** The first loop, when it runs to its end: the updates it has collected
    are the line items, and each passed the capacity check. *)
Lemma check_tickets_updates eventId tickets :
  forall total ups e w w' total' ups',
    check_tickets eventId tickets total ups e w = (w', Val (total', ups')) ->
    map pair_of_update ups'
    = (map pair_of_update ups ++ map pair_of_item tickets)%list /\
    Forall (fits (w_db w) eventId) tickets.
Proof.
  induction tickets as [| t rest IH]; intros total ups e w w' total' ups' H.
  - inversion H; subst. cbn. now rewrite app_nil_r.
  - cbn [check_tickets] in H. apply bind_val in H.
    destruct H as [w1 [tiers [Hq H]]]. apply query_val in Hq.
    destruct Hq as [-> ->].
    destruct (select_tier_for_update (tierId t) eventId (w_db w))
      as [| tier others] eqn:Hsel.
    + apply bind_val in H. destruct H as [w2 [a [_ H]]]. discriminate.
    + destruct (_ >? _) eqn:Hcap.
      { apply bind_val in H. destruct H as [w2 [a [_ H]]]. discriminate. }
      apply bind_val in H. destruct H as [w2 [now [Hnow H]]].
      inversion Hnow; subst w2 now.
      destruct (not_started tier (env_now e)).
      { apply bind_val in H. destruct H as [w2 [a [_ H]]]. discriminate. }
      destruct (has_ended tier (env_now e)).
      { apply bind_val in H. destruct H as [w2 [a [_ H]]]. discriminate. }
      apply IH in H. cbn [w_db tick] in H. destruct H as [Hups Hfits].
      split.
      * rewrite Hups, map_app, <- app_assoc. cbn [map app pair_of_update
          up_tierId up_quantity pair_of_item].
        assert (Hid : tt_id tier = tierId t).
        { assert (Hin : In tier (select_tier_for_update (tierId t) eventId (w_db w)))
            by (rewrite Hsel; now left).
          unfold select_tier_for_update in Hin. apply filter_In in Hin.
          destruct Hin as [_ Hcond].
          apply andb_true_iff in Hcond. destruct Hcond as [Hcond _].
          apply andb_true_iff in Hcond. destruct Hcond as [Hcond _].
          now apply Z.eqb_eq in Hcond. }
        now rewrite Hid.
      * constructor; [| exact Hfits].
        exists tier, others. split; [exact Hsel |].
        rewrite Z.gtb_ltb in Hcap. apply Z.ltb_ge in Hcap. exact Hcap.
Qed.

Lemma set_sold_quantity_same tt :
  set_sold_quantity tt (tt_sold_quantity tt) = tt.
Proof. now destruct tt. Qed.

Lemma sum_for_cons p rest id' :
  sum_for id' (p :: rest)
  = (if id' =? fst p then snd p else 0) + sum_for id' rest.
Proof.
  unfold sum_for. cbn [filter]. rewrite (Z.eqb_sym (fst p) id').
  destruct (id' =? fst p); cbn; lia.
Qed.

Lemma add_sold_row q id tt total :
  let tt1 := if tt_id tt =? id
             then set_sold_quantity tt (tt_sold_quantity tt + q) else tt in
  set_sold_quantity tt1 (tt_sold_quantity tt1 + total)
  = set_sold_quantity tt
      (tt_sold_quantity tt + ((if tt_id tt =? id then q else 0) + total))
  /\ tt_id tt1 = tt_id tt.
Proof.
  cbv zeta. destruct (tt_id tt =? id); destruct tt;
    unfold set_sold_quantity;
    cbn [tt_sold_quantity tt_id tt_event_id tt_name tt_description tt_price
         tt_quantity tt_sales_start_date tt_sales_end_date tt_is_active];
    (split; [f_equal; lia | reflexivity]).
Qed.

(** The increments, one after the other, seen row by row. *)
Lemma increments_rows ups :
  forall d,
    ticket_tiers (increments ups d)
    = map (fun tt => set_sold_quantity tt
                       (tt_sold_quantity tt
                        + sum_for (tt_id tt) (map pair_of_update ups)))
          (ticket_tiers d)
    /\ users (increments ups d) = users d
    /\ events (increments ups d) = events d
    /\ orders (increments ups d) = orders d
    /\ tickets (increments ups d) = tickets d.
Proof.
  induction ups as [| u rest IH]; intros d.
  - cbn. repeat split. rewrite <- (map_id (ticket_tiers d)) at 1.
    apply map_ext. intros tt. unfold sum_for. cbn.
    now rewrite Z.add_0_r, set_sold_quantity_same.
  - unfold increments in *. cbn [fold_left].
    destruct (IH (add_sold (up_quantity u) (up_tierId u) d))
      as [Htiers [Hu [He [Ho Ht]]]].
    rewrite Htiers, Hu, He, Ho, Ht. repeat split.
    cbn [add_sold with_ticket_tiers ticket_tiers]. rewrite map_map.
    apply map_ext. intros tt. cbn [map pair_of_update].
    destruct (add_sold_row (up_quantity u) (up_tierId u) tt
                (sum_for (tt_id tt) (map pair_of_update rest))) as [Hrow Hid].
    cbv zeta in Hrow, Hid. rewrite Hid, Hrow. now rewrite sum_for_cons.
Qed.

Lemma update_sold_quantities_val ups :
  forall e w w' u,
    update_sold_quantities ups e w = (w', Val u) ->
    w_db w' = increments ups (w_db w) /\ w_snapshot w' = w_snapshot w.
Proof.
  induction ups as [| x rest IH]; intros e w w' u H.
  - inversion H; subst. now split.
  - cbn [update_sold_quantities] in H. apply bind_val in H.
    destruct H as [w1 [[] [Hup H]]]. apply update_val in Hup. subst w1.
    apply IH in H. exact H.
Qed.

Lemma insert_ticket_val orderId tier_id code name email e w w' id :
  insert_ticket orderId tier_id code name email e w = (w', Val id) ->
  w_snapshot w' = w_snapshot w /\ beside_tickets (w_db w) (w_db w') /\
  exists row,
    tickets (w_db w') = (tickets (w_db w) ++ [row])%list /\
    t_order_id row = orderId /\ t_status row = active /\
    t_qr_code row = None /\ t_ticket_tier_id row = tier_id /\
    t_attendee_name row = name /\ t_attendee_email row = email.
Proof.
  intros H. apply bind_val in H. destruct H as [w1 [[] [Hc H]]].
  apply call_val in Hc. subst w1. cbv beta zeta in H.
  destruct (existsb _ _); [discriminate |]. inversion H; subst. cbn.
  split; [reflexivity |]. split; [repeat split |].
  eexists. cbn. repeat split.
Qed.

Lemma insert_tickets_val n orderId item :
  forall e w w' u,
    insert_tickets n orderId item e w = (w', Val u) ->
    w_snapshot w' = w_snapshot w /\ beside_tickets (w_db w) (w_db w') /\
    exists new,
      tickets (w_db w') = (tickets (w_db w) ++ new)%list /\
      List.length new = n /\ Forall (made_for orderId item) new.
Proof.
  induction n as [| n IH]; intros e w w' u H.
  - inversion H; subst. split; [reflexivity |]. split; [repeat split |].
    exists []. now rewrite app_nil_r.
  - cbn [insert_tickets] in H. apply bind_val in H.
    destruct H as [w1 [uuid [Hrnd H]]]. inversion Hrnd; subst w1 uuid.
    apply bind_val in H. destruct H as [w2 [id [Hins H]]].
    apply insert_ticket_val in Hins.
    destruct Hins as [Hs2 [[Hu2 [He2 [Ht2 Ho2]]] [row [Hrows Hrow]]]].
    apply IH in H.
    destruct H as [Hs [[Hu [He [Ht Ho]]] [new [Hnew [Hlen Hall]]]]].
    split; [congruence |]. split; [repeat split; congruence |].
    exists (row :: new). rewrite Hnew, Hrows, <- app_assoc.
    split; [reflexivity |]. split; [cbn; now rewrite Hlen |].
    constructor; [exact Hrow | exact Hall].
Qed.

Lemma create_ticket_records_val items orderId :
  forall e w w' u,
    create_ticket_records items orderId e w = (w', Val u) ->
    w_snapshot w' = w_snapshot w /\ beside_tickets (w_db w) (w_db w') /\
    exists new,
      tickets (w_db w') = (tickets (w_db w) ++ new)%list /\
      List.length new = seats_requested items /\
      Forall (issued_for orderId items) new /\
      Forall (fun item => 0 < quantity item ->
                          Exists (made_for orderId item) new) items.
Proof.
  induction items as [| item rest IH]; intros e w w' u H.
  - inversion H; subst. split; [reflexivity |]. split; [repeat split |].
    exists []. now rewrite app_nil_r.
  - cbn [create_ticket_records] in H. apply bind_val in H.
    destruct H as [w1 [[] [Hfirst H]]]. apply insert_tickets_val in Hfirst.
    destruct Hfirst as [Hs1 [[Hu1 [He1 [Ht1 Ho1]]] [new1 [Hnew1 [Hlen1 Hall1]]]]].
    apply IH in H.
    destruct H as [Hs [[Hu [He [Ht Ho]]] [new [Hnew [Hlen [Hall Hcover]]]]]].
    split; [congruence |]. split; [repeat split; congruence |].
    exists (new1 ++ new)%list. rewrite Hnew, Hnew1, <- app_assoc.
    split; [reflexivity |]. split; [| split].
    + rewrite length_app, Hlen1, Hlen. reflexivity.
    + apply Forall_app. split.
      * eapply Forall_impl; [| exact Hall1].
        intros t [H1 [H2 [H3 [H4 [H5 H6]]]]].
        repeat split; auto. exists item. repeat split; auto. now left.
      * eapply Forall_impl; [| exact Hall].
        intros t [H1 [H2 [H3 [it [Hin Hit]]]]].
        repeat split; auto. exists it. split; [now right | exact Hit].
    + constructor.
      * intros Hpos. apply Exists_app. left.
        destruct new1 as [| t new1]; [cbn in Hlen1; lia |].
        left. now inversion Hall1.
      * eapply Forall_impl; [| exact Hcover].
        intros it Hit Hpos. apply Exists_app. right. now apply Hit.
Qed.

Lemma insert_order_row user_id event_id number total b e w w' id :
  insert_order user_id event_id number total b e w = (w', Val id) ->
  w_snapshot w' = w_snapshot w /\
  users (w_db w') = users (w_db w) /\ events (w_db w') = events (w_db w) /\
  ticket_tiers (w_db w') = ticket_tiers (w_db w) /\
  tickets (w_db w') = tickets (w_db w) /\
  id = next_order_id (w_db w) /\
  exists row,
    orders (w_db w') = (orders (w_db w) ++ [row])%list /\
    o_id row = id /\ o_user_id row = user_id /\ o_event_id row = event_id /\
    o_order_number row = number /\ o_total_amount row = total /\
    o_status row = pending /\ o_billing row = b /\
    o_stripe_payment_intent_id row = None /\ o_stripe_session_id row = None.
Proof.
  intros H. apply bind_val in H. destruct H as [w1 [[] [Hc H]]].
  apply call_val in Hc. subst w1. cbv beta zeta in H.
  destruct (existsb _ _); [discriminate |]. inversion H; subst. cbn.
  repeat split. eexists. cbn. repeat split.
Qed.

(** Where the [try] block of the reservation stands when it ends after its
    commit, with its value or with the failure of the checkout session. *)
Lemma reservation_committed user_id req e w w' (o : outcome response) :
  create_order_try user_id req e w = (w', o) ->
  past_commit o ->
  w_snapshot w' = None /\
  users (w_db w') = users (w_db w) /\ events (w_db w') = events (w_db w) /\
  ticket_tiers (w_db w')
  = map (booked_tier (rq_tickets req)) (ticket_tiers (w_db w)) /\
  Forall (fits (w_db w) (rq_eventId req)) (rq_tickets req) /\
  exists row new,
    orders (w_db w') = (orders (w_db w) ++ [row])%list /\
    o_status row = pending /\ o_user_id row = user_id /\
    o_event_id row = rq_eventId req /\ o_billing row = rq_billing req /\
    o_total_amount row
    = reservation_total (w_db w) (rq_eventId req) (rq_tickets req) /\
    tickets (w_db w') = (tickets (w_db w) ++ new)%list /\
    List.length new = seats_requested (rq_tickets req) /\
    Forall (issued_for (o_id row) (rq_tickets req)) new /\
    o_id row = next_order_id (w_db w) /\
    Forall (fun item => 0 < quantity item ->
                        Exists (made_for (o_id row) item) new)
           (rq_tickets req).
Proof.
  unfold create_order_try. intros H Hpast.
  apply bind_past_commit in H; [| exact Hpast | apply store_only_beginTransaction].
  destruct H as [w1 [[] [Hbegin H]]].
  unfold beginTransaction in Hbegin. apply bind_val in Hbegin.
  destruct Hbegin as [w0 [[] [Hc Hbegin]]]. apply call_val in Hc. subst w0.
  inversion Hbegin; subst w1. clear Hbegin. cbv zeta in H.
  apply bind_past_commit in H; [| exact Hpast | apply store_only_query].
  destruct H as [w2 [evs [Hq H]]].
  apply query_val in Hq. destruct Hq as [-> Hevs].
  destruct evs as [| event others].
  { rewrite bind_eq in H. unfold rollback in H. cbn in H. inversion H; subst.
    contradiction. }
  apply bind_past_commit in H; [| exact Hpast | apply store_only_check_tickets].
  destruct H as [w3 [[total ups] [Hcheck H]]].
  pose proof (check_tickets_updates _ _ _ _ _ _ _ _ _ Hcheck) as [Hups Hfits].
  apply check_tickets_val in Hcheck.
  cbn [w_db w_snapshot tick set_snapshot map app] in Hcheck, Hups, Hfits.
  destruct Hcheck as [Hdb3 [Hsnap3 [Htotal _]]].
  apply bind_past_commit in H; [| exact Hpast | apply store_only_Date_now].
  destruct H as [w4 [now [Hnow H]]]. inversion Hnow; subst w4 now. clear Hnow.
  apply bind_past_commit in H; [| exact Hpast | apply store_only_random].
  destruct H as [w4 [rnd [Hrnd H]]]. inversion Hrnd; subst w4 rnd. clear Hrnd.
  cbv zeta in H.
  apply bind_past_commit in H; [| exact Hpast | apply store_only_insert_order].
  destruct H as [w4 [id [Hins H]]]. apply insert_order_row in Hins.
  destruct Hins as [Hs4 [Hu4 [He4 [Ht4 [Htk4 [Hnext [row [Horders Hrow]]]]]]]].
  destruct Hrow as [Hid [Huser [Hevent [_ [Hamount [Hstatus [Hbilling _]]]]]]].
  apply bind_past_commit in H;
    [| exact Hpast | apply store_only_update_sold_quantities].
  destruct H as [w5 [[] [Hsold H]]]. apply update_sold_quantities_val in Hsold.
  destruct Hsold as [Hdb5 Hs5].
  destruct (increments_rows ups (w_db w4)) as [Ht5 [Hu5 [He5 [Ho5 Htk5]]]].
  rewrite <- Hdb5 in Ht5, Hu5, He5, Ho5, Htk5.
  apply bind_past_commit in H;
    [| exact Hpast | apply store_only_create_ticket_records].
  destruct H as [w6 [[] [Hrec H]]]. apply create_ticket_records_val in Hrec.
  destruct Hrec
    as [Hs6 [[Hu6 [He6 [Ht6 Ho6]]] [new [Hnew [Hlen [Hall Hcover]]]]]].
  apply bind_past_commit in H; [| exact Hpast | apply store_only_commit].
  destruct H as [w7 [[] [Hcommit H]]].
  unfold commit in Hcommit. apply bind_val in Hcommit.
  destruct Hcommit as [w0 [[] [Hc Hcommit]]]. apply call_val in Hc. subst w0.
  inversion Hcommit; subst w7. clear Hcommit.
  assert (Hend : w' = tick (set_snapshot (tick w6) None)).
  { rewrite bind_eq in H. unfold createCheckoutSession in H.
    rewrite bind_eq in H. unfold call in H.
    destruct (env_fault e _); cbn in H; now inversion H. }
  subst w'. cbn [w_db w_snapshot tick set_snapshot].
  split; [reflexivity |].
  split; [congruence |]. split; [congruence |].
  split.
  { rewrite Ht6, Ht5, Ht4, Hdb3. apply map_ext. intros tt.
    unfold booked_tier. now rewrite Hups, sum_for_items. }
  split; [exact Hfits |].
  exists row, new. rewrite Ho6, Ho5, Horders, Hdb3, Hnew, Htk5, Htk4, Hdb3.
  rewrite Hid. repeat split; auto.
  - rewrite Hamount, Htotal. lia.
  - now rewrite Hnext, Hdb3.
Qed.

(** Extra X1 (what a successful reservation writes).  When the order route
    answers 201, every tier row has gained the seats the request asks of
    that tier and is otherwise as it was, one pending order of the caller
    for the event has been added, and one active ticket row per seat has
    been added for it, each carrying the tier and attendee of its line
    item; users and events are untouched. *)
Theorem X1_reservation_books_every_seat user_id req e w w' r
    (Hopen : w_snapshot w = None)
    (Hrun : answer (create_order user_id req) e w = (w', Some r))
    (Hcreated : status r = 201) :
  ticket_tiers (w_db w')
  = map (booked_tier (rq_tickets req)) (ticket_tiers (w_db w)) /\
  users (w_db w') = users (w_db w) /\ events (w_db w') = events (w_db w) /\
  exists row new,
    orders (w_db w') = (orders (w_db w) ++ [row])%list /\
    o_status row = pending /\ o_user_id row = user_id /\
    o_event_id row = rq_eventId req /\ o_billing row = rq_billing req /\
    tickets (w_db w') = (tickets (w_db w) ++ new)%list /\
    List.length new = seats_requested (rq_tickets req) /\
    Forall (issued_for (o_id row) (rq_tickets req)) new.
Proof.
  pose proof (create_order_created _ _ _ _ _ _ Hopen Hrun Hcreated) as Htry.
  apply reservation_committed in Htry; [| exact I].
  destruct Htry as [_ [Hu [He [Ht [_ [row [new Hrest]]]]]]].
  destruct Hrest as [Ho [Hst [Hus [Hev [Hb [_ [Htk [Hlen [Hall _]]]]]]]]].
  split; [exact Ht |]. split; [exact Hu |]. split; [exact He |].
  exists row, new. repeat split; assumption.
Qed.

(** Extra X2 (a failed checkout session leaves the reservation in place).
    When [createCheckoutSession] throws, which can only be after the
    commit, the route answers 500 "Failed to create order", and yet the
    pending order, its tickets and the seats taken on the tiers are in the
    tables. *)
Theorem X2_checkout_failure_keeps_the_reservation user_id req e w w'
    (Hthrown : create_order_try user_id req e w = (w', Thrown StripeError)) :
  answer (create_order user_id req) e w
  = (w', Some (failure 500 "Failed to create order")) /\
  ticket_tiers (w_db w')
  = map (booked_tier (rq_tickets req)) (ticket_tiers (w_db w)) /\
  exists row new,
    orders (w_db w') = (orders (w_db w) ++ [row])%list /\
    o_status row = pending /\ o_user_id row = user_id /\
    tickets (w_db w') = (tickets (w_db w) ++ new)%list /\
    List.length new = seats_requested (rq_tickets req).
Proof.
  pose proof (reservation_committed _ _ _ _ _ _ Hthrown I) as Hdone.
  destruct Hdone as [Hclosed [_ [_ [Ht [_ [row [new Hrest]]]]]]].
  destruct Hrest as [Ho [Hst [Hus [_ [_ [_ [Htk [Hlen _]]]]]]]].
  split.
  - unfold answer, create_order, try_catch. rewrite Hthrown, bind_eq.
    unfold rollback. rewrite Hclosed. reflexivity.
  - split; [exact Ht |]. exists row, new. repeat split; assumption.
Qed.

(** ** A request with distinct tiers cannot oversell *)

Lemma requested_absent id tickets :
  (forall t, In t tickets -> tierId t <> id) -> requested id tickets = 0.
Proof.
  unfold requested. induction tickets as [| t rest IH]; intros H; [reflexivity |].
  cbn [filter]. destruct (tierId t =? id) eqn:Hid.
  - apply Z.eqb_eq in Hid. exfalso. apply (H t); [now left | exact Hid].
  - apply IH. intros x Hx. apply H. now right.
Qed.

Lemma requested_unique tickets :
  NoDup (map tierId tickets) ->
  forall t, In t tickets -> requested (tierId t) tickets = quantity t.
Proof.
  induction tickets as [| x rest IH]; intros Hnd t Hin; [contradiction |].
  cbn [map] in Hnd. inversion Hnd as [| ? ? Hnotin Hnd']; subst.
  unfold requested. cbn [filter]. destruct Hin as [-> | Hin].
  - rewrite Z.eqb_refl. cbn [map fold_right].
    fold (requested (tierId t) rest). rewrite requested_absent; [lia |].
    intros y Hy Heq. apply Hnotin. rewrite <- Heq. now apply in_map.
  - destruct (tierId x =? tierId t) eqn:Hid.
    + apply Z.eqb_eq in Hid. exfalso. apply Hnotin. rewrite Hid.
      now apply in_map.
    + now apply IH.
Qed.

Lemma booked_tier_within_capacity d eventId tickets tt :
  NoDup (map tt_id (ticket_tiers d)) ->
  NoDup (map tierId tickets) ->
  (forall t, In t tickets -> 0 <= quantity t) ->
  Forall (fits d eventId) tickets ->
  In tt (ticket_tiers d) ->
  tier_within_capacity tt = true ->
  tier_within_capacity (booked_tier tickets tt) = true.
Proof.
  intros Hkey Hdistinct Hpos Hfits Hin Hok.
  unfold tier_within_capacity in *. apply andb_true_iff in Hok.
  destruct Hok as [Hlo Hhi]. apply Z.leb_le in Hlo, Hhi.
  assert (Hfields : tt_quantity (booked_tier tickets tt) = tt_quantity tt /\
                    tt_sold_quantity (booked_tier tickets tt)
                    = tt_sold_quantity tt + requested (tt_id tt) tickets)
    by (now destruct tt).
  destruct Hfields as [-> ->].
  destruct (find (fun t => tierId t =? tt_id tt) tickets) as [t |] eqn:Hfind.
  - apply find_some in Hfind. destruct Hfind as [Ht Hid].
    apply Z.eqb_eq in Hid. rewrite <- Hid.
    rewrite (requested_unique tickets Hdistinct t Ht).
    rewrite Forall_forall in Hfits.
    destruct (Hfits t Ht) as [tier [others [Hsel Hcap]]].
    assert (Hrow : In tier (select_tier_for_update (tierId t) eventId d))
      by (rewrite Hsel; now left).
    unfold select_tier_for_update in Hrow. apply filter_In in Hrow.
    destruct Hrow as [Hrow Hcond].
    apply andb_true_iff in Hcond. destruct Hcond as [Hcond _].
    apply andb_true_iff in Hcond. destruct Hcond as [Htid _].
    apply Z.eqb_eq in Htid.
    assert (tier = tt)
      by (apply (NoDup_map_inj tt_id (ticket_tiers d)); auto; congruence).
    subst tier. specialize (Hpos t Ht).
    apply andb_true_iff. split; apply Z.leb_le; lia.
  - rewrite requested_absent.
    + apply andb_true_iff. split; apply Z.leb_le; lia.
    + intros t Ht Heq. apply (find_none _ _ Hfind) in Ht.
      apply Z.eqb_neq in Ht. contradiction.
Qed.

Lemma ledger_ok_same_tiers d d' :
  ticket_tiers d' = ticket_tiers d -> ledger_ok d' = ledger_ok d.
Proof. unfold ledger_ok. now intros ->. Qed.

(** The order route on a ledger that is in order, for line items on
    distinct tiers and of quantities that are not negative. *)
Lemma create_order_keeps_ledger user_id req e w :
  w_snapshot w = None ->
  NoDup (map tt_id (ticket_tiers (w_db w))) ->
  NoDup (map tierId (rq_tickets req)) ->
  (forall t, In t (rq_tickets req) -> 0 <= quantity t) ->
  ledger_ok (w_db w) = true ->
  ledger_ok (w_db (after (create_order user_id req) e w)) = true.
Proof.
  intros Hopen Hkey Hdistinct Hpos Hledger.
  pose proof (create_order_try_outcome user_id req e w Hopen) as Hout.
  unfold after, create_order, try_catch.
  destruct (create_order_try user_id req e w) as [w1 o] eqn:Htry.
  assert (Hpast : past_commit o ->
                  ledger_ok (w_db w1) = true /\ w_snapshot w1 = None).
  { intros Hp. apply reservation_committed in Htry; [| exact Hp].
    destruct Htry as [Hclosed [_ [_ [Ht [Hfits _]]]]].
    split; [| exact Hclosed].
    unfold ledger_ok in *. rewrite Ht, forallb_forall. intros tt' Hin'.
    apply in_map_iff in Hin'. destruct Hin' as [tt [<- Hin]].
    rewrite forallb_forall in Hledger.
    apply (booked_tier_within_capacity (w_db w) (rq_eventId req)); auto. }
  destruct o as [r | r | x]; cbn [fst].
  - now apply Hpast.
  - destruct Hout as [[_ [_ [_ [Hrows _]]]] _].
    now rewrite (ledger_ok_same_tiers _ _ Hrows).
  - rewrite bind_eq. unfold rollback. destruct x.
    + destruct Hout as [[s [Hs [_ [_ [Hrows _]]]]] | [Hs Hdb]]; rewrite Hs; cbn.
      * unfold ledger_ok in *. cbn. now rewrite Hrows.
      * now rewrite Hdb.
    + destruct (Hpast I) as [Hok Hs]. rewrite Hs. exact Hok.
    + destruct (Hpast I) as [Hok Hs]. rewrite Hs. exact Hok.
Qed.

(** ** The cancellation route *)

(** Takes a route without loops apart along the calls that can fail. *)
Ltac along_the_calls :=
  repeat (cbn;
          match goal with
          | |- context [if env_fault ?e ?n then _ else _] =>
              destruct (env_fault e n)
          end).

Lemma cancel_order_run user_id id e w w' r :
  w_snapshot w = None ->
  answer (cancel_order user_id id) e w = (w', Some r) ->
  w_snapshot w' = None /\
  ((status r = 200 /\
    (exists order others,
        filter (fun o => (o_id o =? id) && (o_user_id o =? user_id))
               (orders (w_db w)) = order :: others /\
        o_status order = pending) /\
    w_db w' = release_reserved_tickets id (set_order_status cancelled id (w_db w)))
   \/ (status r <> 200 /\ same_rows (w_db w) (w_db w'))).
Proof.
  intros Hopen.
  unfold answer, cancel_order, try_catch, beginTransaction, query, update,
    commit, rollback, respond, ret, bind, call.
  destruct (filter (fun o => (o_id o =? id) && (o_user_id o =? user_id))
                   (orders (w_db w))) as [| order others] eqn:Hsel;
    [| destruct (o_status order) eqn:Hstatus];
    along_the_calls; cbn; rewrite ?Hopen, ?Hsel; cbn; rewrite ?Hstatus; cbn;
    along_the_calls; cbn;
    intros Hrun; inversion Hrun; subst; clear Hrun; cbn;
    (split; [first [reflexivity | exact Hopen] |]);
    first [ right; split; [discriminate | repeat split]
          | left; split; [reflexivity |]; split; [| reflexivity];
            exists order, others; now split ].
Qed.

Lemma cancel_order_refuses user_id id e w :
  (forall n, env_fault e n = false) ->
  (filter (fun o => (o_id o =? id) && (o_user_id o =? user_id))
          (orders (w_db w)) = [] ->
   snd (answer (cancel_order user_id id) e w)
   = Some (failure 404 "Order not found")) /\
  (forall order others,
      filter (fun o => (o_id o =? id) && (o_user_id o =? user_id))
             (orders (w_db w)) = order :: others ->
      o_status order <> pending ->
      snd (answer (cancel_order user_id id) e w)
      = Some (failure 400 "Only pending orders can be cancelled")).
Proof.
  intros Hquiet.
  unfold answer, cancel_order, try_catch, beginTransaction, query, update,
    commit, rollback, respond, ret, bind, call.
  split.
  - intros Hsel. rewrite ?Hquiet. cbn. rewrite ?Hquiet. cbn. rewrite Hsel.
    reflexivity.
  - intros order others Hsel Hstatus. rewrite ?Hquiet. cbn. rewrite ?Hquiet.
    cbn. rewrite Hsel. destruct (o_status order); try reflexivity.
    now destruct Hstatus.
Qed.

(** Extra X4 (a cancellation is all or nothing).  Whatever the store does,
    the cancellation route leaves the rows of every table as they were
    unless it answers 200: a failure between the change of status and the
    release of the seats undoes the change of status. *)
Theorem X4_cancel_writes_only_with_200 user_id id e w w' r
    (Hopen : w_snapshot w = None)
    (Hrun : answer (cancel_order user_id id) e w = (w', Some r))
    (Hrefused : status r <> 200) :
  same_rows (w_db w) (w_db w') /\ w_snapshot w' = None.
Proof.
  destruct (cancel_order_run _ _ _ _ _ _ Hopen Hrun)
    as [Hclosed [[H200 _] | [_ Hrows]]].
  - contradiction.
  - now split.
Qed.

(** Extra X5 (what the cancellation route refuses).  While the store
    answers, an order id that is not an order of the caller, be it another
    user's order or no order at all, is answered 404 "Order not found", and
    an order of the caller that is not pending is answered 400. *)
Theorem X5_cancel_refusals user_id id e w
    (Hquiet : forall n, env_fault e n = false) :
  match filter (fun o => (o_id o =? id) && (o_user_id o =? user_id))
               (orders (w_db w)) with
  | [] => snd (answer (cancel_order user_id id) e w)
          = Some (failure 404 "Order not found")
  | order :: _ =>
      o_status order <> pending ->
      snd (answer (cancel_order user_id id) e w)
      = Some (failure 400 "Only pending orders can be cancelled")
  end.
Proof.
  destruct (cancel_order_refuses user_id id e w Hquiet) as [Hnone Hsome].
  destruct (filter _ _) as [| order others] eqn:Hsel.
  - now apply Hnone.
  - intros Hstatus. now apply (Hsome order others).
Qed.

Lemma filter_map_stable {A} (f : A -> bool) (g : A -> A) (l : list A) :
  (forall a, f (g a) = f a) -> filter f (map g l) = map g (filter f l).
Proof.
  intros Hfg. induction l as [| a l IH]; [reflexivity |].
  cbn. rewrite Hfg. destruct (f a); cbn; now rewrite IH.
Qed.

(** Extra X6 (an order is cancelled once).  After the cancellation route
    has answered 200 for an order, the order is [cancelled], and a second
    cancellation of it by the same user is answered 400 and leaves every
    row as it is: the seats are released once. *)
Theorem X6_cancel_is_one_shot user_id id e1 e2 w w1 r1
    (Hopen : w_snapshot w = None)
    (Hfirst : answer (cancel_order user_id id) e1 w = (w1, Some r1))
    (Hdone : status r1 = 200)
    (Hquiet : forall n, env_fault e2 n = false) :
  (forall o, In o (orders (w_db w1)) -> o_id o = id -> o_status o = cancelled) /\
  snd (answer (cancel_order user_id id) e2 w1)
  = Some (failure 400 "Only pending orders can be cancelled") /\
  same_rows (w_db w1) (w_db (fst (answer (cancel_order user_id id) e2 w1))).
Proof.
  destruct (cancel_order_run _ _ _ _ _ _ Hopen Hfirst)
    as [Hclosed [[_ [[order [others [Hsel Hpending]]] Hdb]] | [Hno _]]];
    [| contradiction].
  assert (Horders : orders (w_db w1)
                    = map (fun o => if o_id o =? id then set_status o cancelled
                                    else o) (orders (w_db w)))
    by (rewrite Hdb; reflexivity).
  split.
  { intros o Hin Hid. rewrite Horders in Hin. apply in_map_iff in Hin.
    destruct Hin as [o0 [<- _]]. destruct (o_id o0 =? id) eqn:Heq.
    - reflexivity.
    - cbn in Hid. apply Z.eqb_neq in Heq. contradiction. }
  assert (Hsel1 : filter (fun o => (o_id o =? id) && (o_user_id o =? user_id))
                         (orders (w_db w1))
                  = map (fun o => if o_id o =? id then set_status o cancelled
                                  else o) (order :: others)).
  { rewrite Horders, filter_map_stable.
    - now rewrite Hsel.
    - intros o. destruct (o_id o =? id) eqn:Heq; cbn; now rewrite ?Heq. }
  cbn [map] in Hsel1.
  destruct (cancel_order_refuses user_id id e2 w1 Hquiet) as [_ Hsome].
  assert (Hanswer : snd (answer (cancel_order user_id id) e2 w1)
                    = Some (failure 400 "Only pending orders can be cancelled")).
  { apply (Hsome _ _ Hsel1).
    assert (Hin : In order (filter (fun o => (o_id o =? id)
                                             && (o_user_id o =? user_id))
                                   (orders (w_db w))))
      by (rewrite Hsel; now left).
    apply filter_In in Hin. destruct Hin as [_ Hcond].
    apply andb_true_iff in Hcond. destruct Hcond as [-> _]. discriminate. }
  split; [exact Hanswer |].
  destruct (answer (cancel_order user_id id) e2 w1) as [w2 r2] eqn:Hsecond.
  cbn [snd fst] in *. subst r2.
  destruct (cancel_order_run _ _ _ _ _ _ Hclosed Hsecond)
    as [_ [[H200 _] | [_ Hrows]]]; [discriminate | exact Hrows].
Qed.

(** ** The tier routes, when the tier has no sales *)

Lemma update_tier_run user id p e w :
  exists w' r,
    answer (update_tier user id p) e w = (w', Some r) /\
    w_snapshot w' = w_snapshot w /\ w_queue w' = w_queue w /\
    ((status r = 200 /\
      (exists tier organizer_id others,
          select_tier_with_organizer id (w_db w)
          = (tier, organizer_id) :: others /\
          access_denied organizer_id user = false /\
          tt_sold_quantity tier <= 0) /\
      w_db w' = update_tier_row id p (w_db w))
     \/ (status r <> 200 /\ w_db w' = w_db w)).
Proof.
  unfold answer, update_tier, try_catch, query, update, respond, ret, bind,
    call.
  destruct (select_tier_with_organizer id (w_db w))
    as [| [tier organizer_id] others] eqn:Hsel;
    [| destruct (access_denied organizer_id user) eqn:Hacc;
       [| destruct (tt_sold_quantity tier >? 0) eqn:Hsold]];
    along_the_calls; cbn; rewrite ?Hsel; cbn; rewrite ?Hacc; cbn;
    rewrite ?Hsold; cbn; along_the_calls; cbn;
    eexists; eexists; (split; [reflexivity |]); cbn;
    (split; [reflexivity |]); (split; [reflexivity |]);
    first [ right; split; [discriminate | reflexivity]
          | left; split; [reflexivity |]; split; [| reflexivity];
            exists tier, organizer_id, others;
            split; [reflexivity |]; split; [exact Hacc |];
            rewrite Z.gtb_ltb in Hsold; apply Z.ltb_ge in Hsold; exact Hsold ].
Qed.

Lemma delete_tier_run user id e w :
  exists w' r,
    answer (delete_tier user id) e w = (w', Some r) /\
    w_snapshot w' = w_snapshot w /\ w_queue w' = w_queue w /\
    ((status r = 200 /\
      (exists tier organizer_id others,
          select_tier_with_organizer id (w_db w)
          = (tier, organizer_id) :: others /\
          access_denied organizer_id user = false /\
          tt_sold_quantity tier <= 0) /\
      w_db w' = delete_tier_row id (w_db w))
     \/ (status r <> 200 /\ w_db w' = w_db w)).
Proof.
  unfold answer, delete_tier, try_catch, query, update, respond, ret, bind,
    call.
  destruct (select_tier_with_organizer id (w_db w))
    as [| [tier organizer_id] others] eqn:Hsel;
    [| destruct (access_denied organizer_id user) eqn:Hacc;
       [| destruct (tt_sold_quantity tier >? 0) eqn:Hsold]];
    along_the_calls; cbn; rewrite ?Hsel; cbn; rewrite ?Hacc; cbn;
    rewrite ?Hsold; cbn; along_the_calls; cbn;
    eexists; eexists; (split; [reflexivity |]); cbn;
    (split; [reflexivity |]); (split; [reflexivity |]);
    first [ right; split; [discriminate | reflexivity]
          | left; split; [reflexivity |]; split; [| reflexivity];
            exists tier, organizer_id, others;
            split; [reflexivity |]; split; [exact Hacc |];
            rewrite Z.gtb_ltb in Hsold; apply Z.ltb_ge in Hsold; exact Hsold ].
Qed.

Lemma patch_tier_no_change tt : patch_tier no_change tt = tt.
Proof. now destruct tt. Qed.

Lemma update_tier_row_no_change id d : update_tier_row id no_change d = d.
Proof.
  unfold update_tier_row, with_ticket_tiers.
  rewrite (map_ext _ (fun tt => tt)), map_id; [now destruct d |].
  intros tt. destruct (tt_id tt =? id); [apply patch_tier_no_change | reflexivity].
Qed.

Lemma sales_update_tier_row id p d : sales (update_tier_row id p d) = sales d.
Proof.
  unfold sales, update_tier_row. cbn. rewrite map_map. apply map_ext.
  intros tt. now destruct (tt_id tt =? id).
Qed.

(** Extra X7 (a tier update never touches the sales).  Whatever the body
    of the request and whatever the route answers, the update route leaves
    the id, the event and the [sold_quantity] of every tier row, and every
    user, event, order and ticket row, as they were; a body that sets no
    field leaves the whole database as it was. *)
Theorem X7_update_tier_keeps_the_sales user id p e w :
  let d' := w_db (after (update_tier user id p) e w) in
  sales d' = sales (w_db w) /\
  users d' = users (w_db w) /\ events d' = events (w_db w) /\
  orders d' = orders (w_db w) /\ tickets d' = tickets (w_db w) /\
  (p = no_change -> d' = w_db w).
Proof.
  cbv zeta. destruct (update_tier_run user id p e w) as [w' [r [Hrun Hcases]]].
  assert (Hafter : after (update_tier user id p) e w = w').
  { unfold after. unfold answer in Hrun.
    destruct (update_tier user id p e w) as [w1 [a | a | x]]; now inversion Hrun. }
  rewrite Hafter. destruct Hcases as [_ [_ [[_ [_ ->]] | [_ ->]]]].
  - rewrite sales_update_tier_row. repeat split.
    intros ->. apply update_tier_row_no_change.
  - repeat split.
Qed.

(** Extra X8 (what a tier deletion removes).  When the delete route answers
    200, the caller was the organizer of the tier's event or an admin and
    the tier had nothing sold; no tier row and no ticket row of that tier
    id is left, the other tier and ticket rows are there in their order,
    and users, events and orders are untouched.  With any other answer the
    database is as it was. *)
Theorem X8_delete_tier_removes_the_tier user id e w w' r
    (Hrun : answer (delete_tier user id) e w = (w', Some r)) :
  (status r = 200 ->
   (exists tier organizer_id others,
       select_tier_with_organizer id (w_db w) = (tier, organizer_id) :: others /\
       access_denied organizer_id user = false /\ tt_sold_quantity tier <= 0) /\
   ticket_tiers (w_db w')
   = filter (fun tt => negb (tt_id tt =? id)) (ticket_tiers (w_db w)) /\
   tickets (w_db w')
   = filter (fun t => negb (t_ticket_tier_id t =? id)) (tickets (w_db w)) /\
   (forall tt, In tt (ticket_tiers (w_db w')) -> tt_id tt <> id) /\
   (forall t, In t (tickets (w_db w')) -> t_ticket_tier_id t <> id) /\
   users (w_db w') = users (w_db w) /\ events (w_db w') = events (w_db w) /\
   orders (w_db w') = orders (w_db w)) /\
  (status r <> 200 -> w_db w' = w_db w).
Proof.
  destruct (delete_tier_run user id e w) as [w1 [r1 [Hrun1 Hcases]]].
  rewrite Hrun in Hrun1. inversion Hrun1; subst w1 r1. clear Hrun1.
  destruct Hcases as [_ [_ [[H200 [Hsel Hdb]] | [Hno Hdb]]]].
  - split; [| intros Hne; contradiction].
    intros _. split; [exact Hsel |]. rewrite Hdb. cbn.
    repeat split.
    + intros tt Hin. apply filter_In in Hin. destruct Hin as [_ Hne].
      apply negb_true_iff in Hne. now apply Z.eqb_neq in Hne.
    + intros t Hin. apply filter_In in Hin. destruct Hin as [_ Hne].
      apply negb_true_iff in Hne. now apply Z.eqb_neq in Hne.
  - split; [intros H200; contradiction | intros _; exact Hdb].
Qed.

(** Extra X9 (what the tier routes refuse).  While the store answers, a
    tier id that names no tier is answered 404 by the update and the delete
    route, and a tier of another organizer's event is answered 403 unless
    the caller is an admin, whatever the tier has sold; in both cases the
    database is as it was. *)
Theorem X9_tier_routes_refusals user id p e w
    (Hquiet : env_fault e (w_calls w) = false) :
  match select_tier_with_organizer id (w_db w) with
  | [] =>
      snd (answer (update_tier user id p) e w)
      = Some (failure 404 "Ticket tier not found") /\
      snd (answer (delete_tier user id) e w)
      = Some (failure 404 "Ticket tier not found")
  | (tier, organizer_id) :: _ =>
      access_denied organizer_id user = true ->
      snd (answer (update_tier user id p) e w)
      = Some (failure 403 "Access denied") /\
      snd (answer (delete_tier user id) e w)
      = Some (failure 403 "Access denied")
  end /\
  (select_tier_with_organizer id (w_db w) = [] \/
   (exists tier organizer_id others,
       select_tier_with_organizer id (w_db w) = (tier, organizer_id) :: others /\
       access_denied organizer_id user = true) ->
   w_db (after (update_tier user id p) e w) = w_db w /\
   w_db (after (delete_tier user id) e w) = w_db w).
Proof.
  unfold after, answer, update_tier, delete_tier, try_catch, query, update,
    respond, ret, bind, call.
  rewrite Hquiet.
  destruct (select_tier_with_organizer id (w_db w))
    as [| [tier organizer_id] others] eqn:Hsel; cbn; rewrite ?Hsel; cbn.
  - split; [split; reflexivity |]. intros _. split; reflexivity.
  - split.
    + intros Hacc. rewrite Hacc. cbn. split; reflexivity.
    + intros [Hnil | [t [o [rest [Heq Hacc]]]]]; [discriminate |].
      inversion Heq; subst. rewrite Hacc. cbn. split; reflexivity.
Qed.

(** ** The webhook route and its handlers *)

(** Extra X10 (an event type without a case).  A verified event whose type
    is none of the four that the dispatch has a case for is answered 200
    and leaves the world exactly as it was: no statement is sent, nothing
    is published. *)
Theorem X10_unhandled_event_is_acknowledged constructEvent secret req e w event
    (Hverified : constructEvent (wh_body req) (wh_signature req) secret
                 = inl event)
    (Hother : ~ In (ev_type event) handled_types) :
  answer (stripe_webhook constructEvent secret req) e w
  = (w, Some {| status := 200; payload := Received |}).
Proof.
  unfold answer, stripe_webhook, handleWebhook, try_catch. rewrite Hverified.
  rewrite bind_eq. unfold dispatch.
  repeat match goal with
         | |- context [String.eqb ?a ?b] =>
             destruct (String.eqb_spec a b) as [Heq | _];
             [exfalso; apply Hother; rewrite Heq; cbn; tauto |]
         end.
  reflexivity.
Qed.

(** Extra X11 (a verified event is always acknowledged).  Every handler
    catches what its statements throw, so for an event whose signature
    verifies the webhook route answers 200 whatever fails in the store or
    on the queue: the 500 of its [catch] blocks is never sent. *)
Theorem X11_verified_event_is_always_acknowledged
    constructEvent secret req e w event
    (Hverified : constructEvent (wh_body req) (wh_signature req) secret
                 = inl event) :
  snd (answer (stripe_webhook constructEvent secret req) e w)
  = Some {| status := 200; payload := Received |}.
Proof.
  unfold answer, stripe_webhook, handleWebhook, try_catch. rewrite Hverified.
  rewrite bind_eq. destruct (dispatch_comes_back event e w) as [w' ->].
  reflexivity.
Qed.

Lemma with_orders_same d : with_orders d (orders d) = d.
Proof. now destruct d. Qed.

Lemma map_unmatched {A} (f : A -> bool) (g : A -> A) (l : list A) :
  (forall a, In a l -> f a = false) ->
  map (fun a => if f a then g a else a) l = l.
Proof.
  intros H. induction l as [| a l IH]; [reflexivity |].
  cbn. rewrite (H a (or_introl eq_refl)), IH; [reflexivity |].
  intros x Hx. apply H. now right.
Qed.

Lemma select_order_details_unknown id d :
  (forall o, In o (orders d) -> o_id o <> id) ->
  select_order_details id d = [].
Proof.
  intros H. unfold select_order_details.
  induction (orders d) as [| o l IH]; [reflexivity |].
  cbn [flat_map]. destruct (o_id o =? id) eqn:Hid.
  - apply Z.eqb_eq in Hid. exfalso. apply (H o); [now left | exact Hid].
  - cbn. apply IH. intros x Hx. apply H. now right.
Qed.

(** Extra X12 (a success event for an order that is not there).  When no
    order row has the id that the event's metadata carries, the success
    handler changes no row and publishes nothing, whether the store answers
    or not. *)
Theorem X12_success_for_unknown_order_is_void paymentIntent e w
    (Hunknown : forall o, In o (orders (w_db w)) ->
                          o_id o <> so_orderId paymentIntent) :
  w_db (after (handlePaymentSuccess paymentIntent) e w) = w_db w /\
  w_queue (after (handlePaymentSuccess paymentIntent) e w) = w_queue w.
Proof.
  assert (Hmark : mark_paid (so_id paymentIntent) (so_orderId paymentIntent)
                            (w_db w) = w_db w).
  { unfold mark_paid.
    rewrite (map_unmatched (fun o => o_id o =? so_orderId paymentIntent)).
    - apply with_orders_same.
    - intros o Hin. apply Z.eqb_neq. now apply Hunknown. }
  pose proof (select_order_details_unknown _ _ Hunknown) as Hsel.
  unfold after, handlePaymentSuccess, try_catch, query, update, bind, call,
    ret.
  cbv zeta.
  repeat (cbn -[select_order_details mark_paid select_ticket_details];
          rewrite ?Hmark, ?Hsel;
          match goal with
          | |- context [if env_fault ?e ?n then _ else _] =>
              destruct (env_fault e n)
          | _ => idtac
          end);
    split; reflexivity.
Qed.

Lemma forget_session_record_session s id d :
  map forget_session (orders (record_session s id d))
  = map forget_session (orders d).
Proof.
  unfold record_session. cbn. rewrite map_map. apply map_ext.
  intros o. now destruct (o_id o =? id).
Qed.

(** Extra X13 (the session event only records the session).  The handler of
    [checkout.session.completed] changes nothing but the session reference
    of order rows: their status, total and payment reference, the tiers,
    the tickets and the queue are as they were; and when the store answers,
    every order row with the id of the metadata carries the session's id. *)
Theorem X13_session_event_records_the_session session e w :
  let w' := after (handleCheckoutCompleted session) e w in
  map forget_session (orders (w_db w')) = map forget_session (orders (w_db w)) /\
  ticket_tiers (w_db w') = ticket_tiers (w_db w) /\
  tickets (w_db w') = tickets (w_db w) /\
  users (w_db w') = users (w_db w) /\ events (w_db w') = events (w_db w) /\
  w_queue w' = w_queue w /\
  (env_fault e (w_calls w) = false ->
   forall o, In o (orders (w_db w')) -> o_id o = so_orderId session ->
             o_stripe_session_id o = Some (so_id session)).
Proof.
  cbv zeta.
  unfold after, handleCheckoutCompleted, try_catch, update, bind, call, ret.
  destruct (env_fault e (w_calls w)); cbn -[record_session].
  - repeat split. discriminate.
  - rewrite forget_session_record_session. repeat split.
    intros _ o Hin Hid. unfold record_session in Hin. cbn in Hin.
    apply in_map_iff in Hin. destruct Hin as [o0 [<- _]].
    destruct (o_id o0 =? so_orderId session) eqn:Heq; [reflexivity |].
    apply Z.eqb_neq in Heq. contradiction.
Qed.

(** ** The consumers of the queues *)

Ltac conjuncts := repeat match goal with |- _ /\ _ => split end.

Lemma no_return_processPaymentWebhook m : no_return (processPaymentWebhook m).
Proof.
  intros e w r.
  unfold processPaymentWebhook, try_catch, update, publishMessage, bind, call,
    throw, ret.
  destruct m; along_the_calls; discriminate.
Qed.

Lemma consume_settles {A} (callback : A -> M unit) message e w :
  no_return (callback message) ->
  exists d, consume callback message e w
            = (after (callback message) e w, Val d) /\
            (d = Acked <-> snd (callback message e w) = Val tt).
Proof.
  intros Hm. unfold consume, try_catch, after. rewrite bind_eq.
  specialize (Hm e w).
  destruct (callback message e w) as [w1 [[] | r | x]]; cbn in *.
  - exists Acked. now repeat split.
  - now destruct (Hm r).
  - exists Rejected. repeat split; discriminate.
Qed.

(** Extra X14 (the consumer settles every payment message).  The callback
    that [consumeMessages] registers never throws: run with
    [processPaymentWebhook] it acknowledges the message or rejects it
    without requeueing.  It acknowledges when no call fails; a rejected
    message has published nothing; and no payment message changes a ticket
    row. *)
Theorem X14_consumer_settles_payment_messages m e w :
  let w' := after (consume processPaymentWebhook m) e w in
  (exists d, consume processPaymentWebhook m e w = (w', Val d)) /\
  (snd (consume processPaymentWebhook m e w) = Val Rejected ->
   w_queue w' = w_queue w) /\
  ((forall n, env_fault e n = false) ->
   snd (consume processPaymentWebhook m e w) = Val Acked) /\
  tickets (w_db w') = tickets (w_db w).
Proof.
  cbv zeta. split; [| split; [| split]].
  - destruct (consume_settles processPaymentWebhook m e w
                (no_return_processPaymentWebhook m)) as [d [Hrun _]].
    exists d. unfold after at 1. now rewrite Hrun.
  - unfold after, consume, processPaymentWebhook, try_catch, update,
      publishMessage, bind, call, throw, ret.
    destruct m; along_the_calls; try reflexivity; discriminate.
  - intros Hquiet.
    unfold consume, processPaymentWebhook, try_catch, update, publishMessage,
      bind, call, throw, ret.
    destruct m; cbn; rewrite ?Hquiet; cbn; rewrite ?Hquiet; reflexivity.
  - unfold after, consume, processPaymentWebhook, try_catch, update,
      publishMessage, bind, call, throw, ret.
    destruct m; along_the_calls; reflexivity.
Qed.

Section TicketGeneration.

Variable qrCodeUrl : ticket_details -> Z -> string.

Lemma forget_qr_code_write url id d :
  map forget_qr_code (tickets (write_qr_code url id d))
  = map forget_qr_code (tickets d).
Proof.
  unfold write_qr_code. destruct d; cbn. rewrite map_map. apply map_ext.
  intros t. now destruct (t_id t =? id).
Qed.

Lemma with_tickets_back d d' :
  with_tickets d' (tickets d) = d -> beside_tickets d d'.
Proof.
  unfold beside_tickets. destruct d, d'; cbn. intros H.
  injection H; intros; subst. now repeat split.
Qed.

Lemma with_tickets_same d d' :
  with_tickets d' (tickets d) = d -> tickets d' = tickets d -> d' = d.
Proof.
  destruct d, d'; cbn. intros H ->. injection H; intros; subst. reflexivity.
Qed.

Lemma generate_qr_codes_run orderId items e :
  forall w,
    let r := generate_qr_codes qrCodeUrl orderId items e w in
    map forget_qr_code (tickets (w_db (fst r)))
    = map forget_qr_code (tickets (w_db w)) /\
    with_tickets (w_db (fst r)) (tickets (w_db w)) = w_db w /\
    w_queue (fst r) = w_queue w /\
    (snd r = Val tt \/ snd r = Thrown StoreError).
Proof.
  induction items as [| item rest IH]; intros w; cbv zeta.
  - cbn. conjuncts; try reflexivity; [now destruct (w_db w) | now left].
  - cbn [generate_qr_codes]. unfold update, bind, call, ret.
    destruct (env_fault e (w_calls w)); cbn -[write_qr_code generate_qr_codes].
    + conjuncts; try reflexivity; [now destruct (w_db w) | now right].
    + match goal with
      | |- context [generate_qr_codes _ _ _ _ ?w1] =>
          destruct (IH w1) as (Ht & Hb & Hq & Hr)
      end.
      cbn -[write_qr_code generate_qr_codes] in Ht, Hb, Hq.
      rewrite Ht, Hq, forget_qr_code_write.
      conjuncts; try reflexivity; try exact Hr.
      revert Hb. unfold write_qr_code.
      match goal with
      | |- context [w_db (fst ?r)] => destruct (w_db (fst r))
      end.
      destruct (w_db w); cbn. intros H. injection H; intros; subst.
      reflexivity.
Qed.

(** Extra X15 (ticket generation writes only the QR code).  Whatever fails,
    [processTicketGeneration] changes nothing but the [qr_code] of ticket
    rows: the other columns of the tickets, the other tables and the queue
    are as they were, and what it throws is the store's error. *)
Theorem X15_ticket_generation_writes_only_the_qr_code orderId items e w :
  let r := processTicketGeneration qrCodeUrl orderId items e w in
  map forget_qr_code (tickets (w_db (fst r)))
  = map forget_qr_code (tickets (w_db w)) /\
  beside_tickets (w_db w) (w_db (fst r)) /\
  w_queue (fst r) = w_queue w /\
  (snd r = Val tt \/ snd r = Thrown StoreError).
Proof.
  cbv zeta. unfold processTicketGeneration, try_catch.
  destruct (generate_qr_codes_run orderId items e w) as (Ht & Hb & Hq & Hr).
  apply with_tickets_back in Hb.
  destruct (generate_qr_codes qrCodeUrl orderId items e w)
    as [w1 [[] | r | x]]; cbn in *.
  - conjuncts; assumption.
  - destruct Hr; discriminate.
  - destruct Hr as [Hr | Hr]; [discriminate |]. injection Hr as ->.
    unfold throw. cbn. conjuncts; try assumption. now right.
Qed.

Lemma generate_qr_codes_quiet orderId items e
    (Hquiet : forall n, env_fault e n = false) :
  forall w,
    let r := generate_qr_codes qrCodeUrl orderId items e w in
    snd r = Val tt /\
    tickets (w_db (fst r))
    = map (fun t => match last_url qrCodeUrl orderId items (t_id t) with
                    | Some url => set_qr_code t url
                    | None => t
                    end) (tickets (w_db w)).
Proof.
  induction items as [| item rest IH]; intros w; cbv zeta.
  - cbn. split; [reflexivity |]. symmetry. apply map_id.
  - cbn [generate_qr_codes]. unfold update, bind, call, ret.
    rewrite Hquiet.
    cbn -[write_qr_code generate_qr_codes last_url].
    match goal with
    | |- context [generate_qr_codes _ _ _ _ ?w1] =>
        destruct (IH w1) as (Hr & Ht)
    end.
    split; [exact Hr |]. rewrite Ht. cbn [w_db set_db tick].
    unfold write_qr_code. destruct (w_db w); cbn [tickets with_tickets].
    rewrite map_map. apply map_ext. intros t. cbn [last_url].
    destruct (t_id t =? t_id (td_ticket item)) eqn:Hid.
    + cbn [t_id set_qr_code].
      destruct (last_url qrCodeUrl orderId rest (t_id t)); [reflexivity |].
      rewrite Z.eqb_sym, Hid. reflexivity.
    + destruct (last_url qrCodeUrl orderId rest (t_id t)); [reflexivity |].
      rewrite Z.eqb_sym, Hid. reflexivity.
Qed.

(** Extra X16 (ticket generation can be replayed).  While the store
    answers, processing a [ticket_generation] message a second time leaves
    every table as the first time left it: each ticket row named in the
    message carries the address made from its last entry in the message,
    both times. *)
Theorem X16_ticket_generation_is_idempotent orderId items e w
    (Hquiet : forall n, env_fault e n = false) :
  let once := after (processTicketGeneration qrCodeUrl orderId items) e w in
  let twice := after (processTicketGeneration qrCodeUrl orderId items) e once in
  w_db twice = w_db once /\
  forall t, In t (tickets (w_db once)) ->
            forall url, last_url qrCodeUrl orderId items (t_id t) = Some url ->
                        t_qr_code t = Some url.
Proof.
  cbv zeta.
  assert (Hafter : forall w0,
    let w1 := after (processTicketGeneration qrCodeUrl orderId items) e w0 in
    tickets (w_db w1)
    = map (fun t => match last_url qrCodeUrl orderId items (t_id t) with
                    | Some url => set_qr_code t url
                    | None => t
                    end) (tickets (w_db w0)) /\
    with_tickets (w_db w1) (tickets (w_db w0)) = w_db w0).
  { intros w0. cbv zeta. unfold after, processTicketGeneration, try_catch.
    destruct (generate_qr_codes_quiet orderId items e Hquiet w0) as [Hr Ht].
    destruct (generate_qr_codes_run orderId items e w0) as (_ & Hb & _).
    destruct (generate_qr_codes qrCodeUrl orderId items e w0)
      as [w1 [[] | r | x]]; cbn in *; try discriminate.
    split; assumption. }
  destruct (Hafter w) as [Ht1 _].
  destruct (Hafter (after (processTicketGeneration qrCodeUrl orderId items) e w))
    as [Ht2 Hback].
  split.
  - apply with_tickets_same; [exact Hback |].
    rewrite Ht2, Ht1, map_map. apply map_ext. intros t.
    destruct (last_url qrCodeUrl orderId items (t_id t)) as [url |] eqn:Hl.
    + cbn [t_id set_qr_code]. now rewrite Hl.
    + now rewrite Hl.
  - intros t Hin url Hl. rewrite Ht1 in Hin. apply in_map_iff in Hin.
    destruct Hin as [t0 [<- _]].
    destruct (last_url qrCodeUrl orderId items (t_id t0)) as [u |] eqn:Hl0.
    + cbn [t_id set_qr_code] in Hl. rewrite Hl0 in Hl. injection Hl as <-.
      reflexivity.
    + rewrite Hl0 in Hl. discriminate.
Qed.

End TicketGeneration.

(** ** The sanitizer of requests *)

Section Sanitized.

Variable js_trim : string -> string.

Lemma remove_angle_brackets_clean s :
  Sanitizer.has_angle_bracket (Sanitizer.remove_angle_brackets s) = false.
Proof.
  induction s as [| c rest IH]; [reflexivity |].
  cbn [Sanitizer.remove_angle_brackets].
  destruct (Sanitizer.is_angle c) eqn:Hc; [exact IH |].
  cbn [Sanitizer.has_angle_bracket]. now rewrite Hc, IH.
Qed.

(** An index of an array is none of the keys that are skipped. *)
Lemma index_key_is_kept i :
  Sanitizer.dangerous (string_of_Z (Z.of_nat i)) = false.
Proof.
  unfold string_of_Z. destruct (Z.of_nat i) as [| p | p] eqn:Hi.
  - reflexivity.
  - cbn [Z.to_int]. unfold NilZero.string_of_int, NilZero.string_of_uint.
    now destruct (Pos.to_uint p).
  - pose proof (Zle_0_nat i). lia.
Qed.

Lemma sanitize_harmless :
  forall obj, Sanitizer.harmless (Sanitizer.sanitize js_trim obj).
Proof.
  fix IH 1. intros [| b | n | s | items | entries]; cbn [Sanitizer.sanitize].
  - constructor.
  - constructor.
  - constructor.
  - constructor. apply remove_angle_brackets_clean.
  - constructor. generalize 0%nat.
    induction items as [| value rest IHrest]; intros i; constructor.
    + split; [apply index_key_is_kept | apply IH].
    + apply IHrest.
  - constructor.
    induction entries as [| [key value] rest IHrest]; [constructor |].
    destruct (Sanitizer.dangerous key) eqn:Hkey; [exact IHrest |].
    constructor; [| exact IHrest].
    split; [exact Hkey | apply IH].
Qed.

(** Extra X17 (what the sanitizer lets through).  Whatever the request
    holds, each of the body, the query and the parameters that is there
    after [sanitizeRequest] is free of angle brackets in every string
    value (the keys are not cleaned), of the keys [__proto__],
    [constructor] and [prototype] in every object, and of arrays, at any
    depth: an array comes out as an object of its indices. *)
Theorem X17_sanitized_request_is_harmless req :
  let req' := Sanitizer.sanitizeRequest js_trim req in
  Sanitizer.harmless_part (Sanitizer.rr_body req') /\
  Sanitizer.harmless_part (Sanitizer.rr_query req') /\
  Sanitizer.harmless_part (Sanitizer.rr_params req').
Proof.
  assert (Hpart : forall part,
            Sanitizer.harmless_part (Sanitizer.sanitize_part js_trim part)).
  { intros [v |]; [| exact I]. unfold Sanitizer.sanitize_part.
    destruct (Sanitizer.truthy v) eqn:Hv; cbn.
    - apply sanitize_harmless.
    - destruct v as [| [] | n | s | items | entries]; try discriminate;
        constructor.
      cbn in Hv. apply negb_false_iff, String.eqb_eq in Hv. now subst. }
  cbv zeta. cbn. repeat split; apply Hpart.
Qed.

End Sanitized.

(** ** The check-in route *)

Ltac along_the_check_in :=
  unfold validate_ticket, try_catch, query, update, bind, call, Date_now, ret;
  repeat (cbn -[select_ticket_view mark_used access_denied is_used];
          match goal with
          | |- context [if env_fault ?e ?n then _ else _] =>
              destruct (env_fault e n) eqn:?
          | |- context [match select_ticket_view ?id ?d with _ => _ end] =>
              destruct (select_ticket_view id d) as [| ? ?] eqn:?
          | |- context [if access_denied ?o ?u then _ else _] =>
              destruct (access_denied o u) eqn:?
          | |- context [if is_used ?t then _ else _] =>
              destruct (is_used t) eqn:?
          | _ => idtac
          end).

Lemma validate_ticket_run user id e w w' r :
  validate_ticket user id e w = (w', Val r) -> ck_status r = 200 ->
  exists ticket others,
    select_ticket_view id (w_db w) = ticket :: others /\
    access_denied (tv_organizer_id ticket) user = false /\
    is_used (tv_ticket ticket) = false /\
    w_db w' = mark_used id (w_db w).
Proof.
  along_the_check_in; intros Hrun; inversion Hrun; subst; cbn;
    try discriminate.
  intros _. eexists _, _. repeat split; eassumption.
Qed.

Lemma map_flat_map {A B C} (h : B -> C) (f : A -> list B) (l : list A) :
  map h (flat_map f l) = flat_map (fun a => map h (f a)) l.
Proof.
  induction l as [| a l IH]; [reflexivity |].
  cbn. now rewrite map_app, IH.
Qed.

Lemma flat_map_of_map {A B} (g : A -> A) (f : A -> list B) (l : list A) :
  flat_map f (map g l) = flat_map (fun a => f (g a)) l.
Proof.
  induction l as [| a l IH]; [reflexivity |]. cbn. now rewrite IH.
Qed.

(** The rows that the route reads, once the ticket is marked. *)
Lemma select_ticket_view_mark_used id d :
  select_ticket_view id (mark_used id d)
  = map (fun tv => {| tv_ticket := set_ticket_status (tv_ticket tv) used;
                      tv_event_id := tv_event_id tv;
                      tv_event_title := tv_event_title tv;
                      tv_organizer_id := tv_organizer_id tv |})
        (select_ticket_view id d).
Proof.
  unfold select_ticket_view, mark_used. destruct d; cbn.
  rewrite flat_map_of_map, map_flat_map. apply flat_map_ext. intros t.
  destruct (t_id t =? id) eqn:Hid; cbn; rewrite Hid; [| reflexivity].
  rewrite map_flat_map. apply flat_map_ext. intros tt.
  destruct (tt_id tt =? t_ticket_tier_id t); [| reflexivity].
  rewrite map_flat_map. apply flat_map_ext. intros ev.
  now destruct (e_id ev =? tt_event_id tt).
Qed.

(** Extra X18 (a ticket is checked in once).  After the check-in route has
    answered 200 for a ticket, the next call of it for that ticket, on the
    tables as it left them, does not answer 200 and changes no row, whoever
    asks and whatever fails: the answer is 400, 403 or 500, and it is 400
    [Ticket already used] for the same user when the store answers. *)
Theorem X18_check_in_is_one_shot user id e w w' r user2 e2
    (Hrun : validate_ticket user id e w = (w', Val r))
    (Hok : ck_status r = 200) :
  w_db (after (validate_ticket user2 id) e2 w') = w_db w' /\
  exists r2,
    snd (validate_ticket user2 id e2 w') = Val r2 /\
    (ck_status r2 = 400 \/ ck_status r2 = 403 \/ ck_status r2 = 500) /\
    (user2 = user -> env_fault e2 (w_calls w') = false ->
     r2 = checkin_failure 400 "Ticket already used").
Proof.
  destruct (validate_ticket_run _ _ _ _ _ _ Hrun Hok)
    as (ticket & others & Hsel & Hacc & Hused & Hdb).
  assert (Hsel' : exists ticket' others',
            select_ticket_view id (w_db w') = ticket' :: others' /\
            tv_organizer_id ticket' = tv_organizer_id ticket /\
            is_used (tv_ticket ticket') = true).
  { rewrite Hdb, select_ticket_view_mark_used, Hsel. cbn [map].
    eexists _, _. repeat split. }
  destruct Hsel' as (ticket' & others' & Hsel' & Horg & Hused').
  unfold after.
  unfold validate_ticket, try_catch, query, update, bind, call, Date_now, ret.
  destruct (env_fault e2 (w_calls w')) eqn:Hfault;
    cbn -[select_ticket_view mark_used access_denied is_used].
  - split; [reflexivity |]. eexists. split; [reflexivity |].
    split; [now right; right | discriminate].
  - rewrite Hsel', Horg.
    destruct (access_denied (tv_organizer_id ticket) user2) eqn:Hacc2;
      cbn -[select_ticket_view mark_used access_denied is_used].
    + split; [reflexivity |]. eexists. split; [reflexivity |].
      split; [now right; left |]. intros -> _. congruence.
    + rewrite Hused'. cbn. split; [reflexivity |]. eexists.
      split; [reflexivity |]. split; [now left | reflexivity].
Qed.

(** Extra X19 (the check-in does not look at the order).  The answer of the
    check-in route is the same whatever the order rows hold: a ticket of an
    order that is pending or cancelled is checked in like one of a paid
    order. *)
Theorem X19_check_in_ignores_the_orders user id e w rows :
  snd (validate_ticket user id e (set_db w (with_orders (w_db w) rows)))
  = snd (validate_ticket user id e w).
Proof.
  assert (Hsel : select_ticket_view id (with_orders (w_db w) rows)
                 = select_ticket_view id (w_db w)) by reflexivity.
  unfold validate_ticket, try_catch, query, update, bind, call, Date_now, ret.
  repeat (cbn -[select_ticket_view mark_used access_denied is_used with_orders];
          rewrite ?Hsel;
          match goal with
          | |- context [if env_fault ?e ?n then _ else _] =>
              destruct (env_fault e n) eqn:?
          | |- context [match select_ticket_view ?id ?d with _ => _ end] =>
              destruct (select_ticket_view id d) as [| ? ?] eqn:?
          | |- context [if access_denied ?o ?u then _ else _] =>
              destruct (access_denied o u) eqn:?
          | |- context [if is_used ?t then _ else _] =>
              destruct (is_used t) eqn:?
          | _ => idtac
          end); reflexivity.
Qed.

(** Extra X20 (the check-in writes one status).  Whatever it answers, the
    check-in route changes nothing but the status of the ticket rows with
    the id of the request: the other ticket rows, the other tables and the
    queue are as they were, and it changes no row unless it answers 200. *)
Theorem X20_check_in_writes_one_status user id e w :
  let w' := after (validate_ticket user id) e w in
  beside_tickets (w_db w) (w_db w') /\
  w_queue w' = w_queue w /\
  filter (fun t => negb (t_id t =? id)) (tickets (w_db w'))
  = filter (fun t => negb (t_id t =? id)) (tickets (w_db w)) /\
  map t_id (tickets (w_db w')) = map t_id (tickets (w_db w)) /\
  (forall r, snd (validate_ticket user id e w) = Val r ->
             ck_status r <> 200 -> w_db w' = w_db w).
Proof.
  assert (Hmark : forall d,
    beside_tickets d (mark_used id d) /\
    filter (fun t => negb (t_id t =? id)) (tickets (mark_used id d))
    = filter (fun t => negb (t_id t =? id)) (tickets d) /\
    map t_id (tickets (mark_used id d)) = map t_id (tickets d)).
  { intros d. unfold mark_used, beside_tickets.
    cbn [users events ticket_tiers orders tickets with_tickets].
    split; [now repeat split |]. split.
    - induction (tickets d) as [| t l IH]; [reflexivity |].
      cbn. destruct (t_id t =? id) eqn:Hid; cbn; rewrite Hid; cbn;
        now rewrite IH.
    - rewrite map_map. apply map_ext. intros t.
      now destruct (t_id t =? id). }
  cbv zeta. unfold after. along_the_check_in;
    try (unfold beside_tickets; repeat split; intros; congruence).
  destruct (Hmark (w_db w)) as (Hb & Hf & Hi).
  repeat split; try apply Hb; try assumption.
  intros r [= <-]. cbn. congruence.
Qed.

(** ** A reservation followed by its cancellation *)

Lemma set_sold_quantity_self tt : set_sold_quantity tt (tt_sold_quantity tt) = tt.
Proof. now destruct tt. Qed.

Lemma existsb_false_iff {A} (f : A -> bool) (l : list A) :
  existsb f l = false <-> forall a, In a l -> f a = false.
Proof.
  split.
  - intros H a Hin. destruct (f a) eqn:Hfa; [| reflexivity].
    rewrite <- H. symmetry. apply existsb_exists. now exists a.
  - intros H. destruct (existsb f l) eqn:Hex; [| reflexivity].
    apply existsb_exists in Hex. destruct Hex as [a [Hin Hfa]].
    now rewrite (H a Hin) in Hfa.
Qed.

(** Extra X21 (what a cancelled reservation leaves on the tiers).  For a
    request of positive quantities, the reservation answered 201 followed
    by its cancellation answered 200 leaves on every tier the seats of the
    request less one if the request named the tier; so it gives back
    exactly what was taken when every line item is for one seat and no two
    are for the same tier. *)
Theorem X21_reserve_then_cancel user_id req e w w1 r e2 w2 r2
    (Hopen : w_snapshot w = None)
    (Hfresh : Forall (fun t => t_order_id t <> next_order_id (w_db w))
                     (tickets (w_db w)))
    (Hpositive : Forall (fun item => 0 < quantity item) (rq_tickets req))
    (Hrun : answer (create_order user_id req) e w = (w1, Some r))
    (Hcreated : status r = 201)
    (Hcancel : answer (cancel_order user_id (next_order_id (w_db w))) e2 w1
               = (w2, Some r2))
    (Hdone : status r2 = 200) :
  ticket_tiers (w_db w2)
  = map (cancelled_tier (rq_tickets req)) (ticket_tiers (w_db w)) /\
  (Forall (fun item => quantity item = 1) (rq_tickets req) ->
   NoDup (map tierId (rq_tickets req)) ->
   ticket_tiers (w_db w2) = ticket_tiers (w_db w)).
Proof.
  pose proof (create_order_created _ _ _ _ _ _ Hopen Hrun Hcreated) as Htry.
  apply reservation_committed in Htry; [| exact I].
  destruct Htry as [Hclosed [_ [_ [Ht [_ [row [new Hrest]]]]]]].
  destruct Hrest as [_ [_ [_ [_ [_ [_ [Htk [_ [Hall [Hid Hcover]]]]]]]]]].
  rewrite Hid in Hall, Hcover.
  destruct (cancel_order_run _ _ _ _ _ _ Hclosed Hcancel)
    as [_ [[_ [_ Hdb]] | [Hnot _]]]; [| contradiction].
  set (id := next_order_id (w_db w)) in *.
  assert (Htiers : ticket_tiers (w_db w2)
                   = map (cancelled_tier (rq_tickets req))
                         (ticket_tiers (w_db w))).
  { rewrite Hdb. unfold release_reserved_tickets, set_order_status.
    cbn [ticket_tiers tickets with_ticket_tiers with_orders].
    rewrite Ht, Htk, map_map. apply map_ext. intros tt.
    rewrite existsb_app.
    assert (Hold : existsb (fun t => (tt_id (booked_tier (rq_tickets req) tt)
                                      =? t_ticket_tier_id t)
                                     && (t_order_id t =? id))
                           (tickets (w_db w)) = false).
    { apply existsb_false_iff. intros t Hin.
      rewrite Forall_forall in Hfresh. specialize (Hfresh t Hin).
      apply andb_false_iff. right. now apply Z.eqb_neq. }
    rewrite Hold, orb_false_l.
    unfold cancelled_tier, asked.
    destruct (existsb (fun t => tierId t =? tt_id tt) (rq_tickets req))
      eqn:Hasked.
    - apply existsb_exists in Hasked. destruct Hasked as [item [Hin Heq]].
      apply Z.eqb_eq in Heq.
      rewrite Forall_forall in Hcover, Hpositive.
      specialize (Hcover item Hin (Hpositive item Hin)).
      apply Exists_exists in Hcover.
      destruct Hcover as [t [Htin [Hto [_ [_ [Htt _]]]]]].
      assert (Hnew : existsb (fun t => (tt_id (booked_tier (rq_tickets req) tt)
                                        =? t_ticket_tier_id t)
                                       && (t_order_id t =? id)) new = true).
      { apply existsb_exists. exists t. split; [exact Htin |].
        apply andb_true_iff. split; apply Z.eqb_eq; [| exact Hto].
        cbn. congruence. }
      rewrite Hnew. unfold booked_tier, set_sold_quantity. cbn. reflexivity.
    - assert (Hnew : existsb (fun t => (tt_id (booked_tier (rq_tickets req) tt)
                                        =? t_ticket_tier_id t)
                                       && (t_order_id t =? id)) new = false).
      { apply existsb_false_iff. intros t Htin.
        rewrite Forall_forall in Hall.
        destruct (Hall t Htin) as [_ [_ [_ [item [Hin [Htt _]]]]]].
        apply andb_false_iff. left. apply Z.eqb_neq. cbn. intros Heq.
        rewrite existsb_false_iff in Hasked. specialize (Hasked item Hin).
        apply Z.eqb_neq in Hasked. congruence. }
      rewrite Hnew. unfold booked_tier, set_sold_quantity. cbn.
      f_equal. lia. }
  split; [exact Htiers |].
  intros Hsingle Hdistinct. rewrite Htiers.
  rewrite <- (map_id (ticket_tiers (w_db w))) at 2. apply map_ext.
  intros tt. unfold cancelled_tier, asked.
  destruct (existsb (fun t => tierId t =? tt_id tt) (rq_tickets req))
    eqn:Hasked.
  - apply existsb_exists in Hasked. destruct Hasked as [item [Hin Heq]].
    apply Z.eqb_eq in Heq. rewrite <- Heq.
    rewrite (requested_unique _ Hdistinct item Hin).
    rewrite Forall_forall in Hsingle. rewrite (Hsingle item Hin).
    replace (tt_sold_quantity tt + 1 - 1) with (tt_sold_quantity tt) by lia.
    apply set_sold_quantity_self.
  - rewrite requested_absent.
    + replace (tt_sold_quantity tt + 0 - 0) with (tt_sold_quantity tt) by lia.
      apply set_sold_quantity_self.
    + intros item Hin. rewrite existsb_false_iff in Hasked.
      apply Z.eqb_neq. now apply Hasked.
Qed.

(** ** The quantity as the body carries it *)

Import Rounds.

Lemma check_tickets_sent_numbers eventId tickets :
  Forall (fun t => sent_as_number (s_quantity t) = true) tickets ->
  forall total ups e w,
    check_tickets_sent eventId tickets total ups e w
    = check_tickets eventId (map typed tickets) total ups e w.
Proof.
  induction 1 as [| t rest Ht _ IH]; intros total ups e w; [reflexivity |].
  destruct t as [tier_id [n | text] name email]; [| discriminate].
  cbn [map check_tickets_sent check_tickets]. rewrite !bind_eq.
  cbn [typed tierId quantity value s_tierId s_quantity s_attendeeName
       s_attendeeEmail exceeds].
  destruct (query (select_tier_for_update tier_id eventId) e w)
    as [w1 [tiers | r | x]]; try reflexivity.
  destruct tiers as [| tier others]; [reflexivity |].
  destruct (tt_sold_quantity tier + n >? tt_quantity tier); [reflexivity |].
  rewrite !bind_eq. cbn [Date_now].
  destruct (not_started tier (env_now e)); [reflexivity |].
  destruct (has_ended tier (env_now e)); [reflexivity |].
  apply IH.
Qed.

(** On quantities sent as numbers the route is the one of the claims. *)
Lemma create_order_sent_numbers user_id req e w :
  Forall (fun t => sent_as_number (s_quantity t) = true) (sr_tickets req) ->
  create_order_sent user_id req e w
  = create_order user_id (typed_request req) e w.
Proof.
  intros Hnumbers.
  assert (Htry : create_order_try_sent user_id req e w
                 = create_order_try user_id (typed_request req) e w).
  { unfold create_order_try_sent, create_order_try. cbv zeta.
    cbn [typed_request rq_eventId rq_tickets rq_billing].
    rewrite !bind_eq. destruct (beginTransaction e w) as [w1 [[] | r | x]];
      try reflexivity.
    rewrite !bind_eq.
    match goal with
    | |- context [query ?q e w1] =>
        destruct (query q e w1) as [w2 [evs | r | x]]; try reflexivity
    end.
    destruct evs as [| event others]; [reflexivity |].
    rewrite !bind_eq.
    now rewrite (check_tickets_sent_numbers _ _ Hnumbers). }
  unfold create_order_sent, create_order, try_catch. now rewrite Htry.
Qed.

(** Extra X3 (a request with distinct tiers cannot oversell).  On tables
    where the tier ids are unique and every tier has [0 <= sold_quantity <=
    quantity], a request that has passed the validator, whose quantities
    were sent as JSON numbers and whose line items are for pairwise
    distinct tiers, leaves every tier with [0 <= sold_quantity <=
    quantity], whatever the route answers and whatever fails. *)
Theorem X3_distinct_tiers_are_never_oversold user_id req e w
    (Hopen : w_snapshot w = None)
    (Hkey : NoDup (map tt_id (ticket_tiers (w_db w))))
    (Hdistinct : NoDup (map s_tierId (sr_tickets req)))
    (Hvalid : Forall (fun t => isInt_1_to_10 (s_quantity t) = true)
                     (sr_tickets req))
    (Hnumbers : Forall (fun t => sent_as_number (s_quantity t) = true)
                       (sr_tickets req))
    (Hledger : ledger_ok (w_db w) = true) :
  ledger_ok (w_db (after (create_order_sent user_id req) e w)) = true.
Proof.
  unfold after. rewrite (create_order_sent_numbers _ _ _ _ Hnumbers).
  apply (create_order_keeps_ledger user_id (typed_request req) e w);
    try assumption.
  - cbn [typed_request rq_tickets]. now rewrite map_map.
  - cbn [typed_request rq_tickets]. intros t Hin.
    apply in_map_iff in Hin. destruct Hin as [t0 [<- Hin0]].
    rewrite Forall_forall in Hvalid, Hnumbers.
    specialize (Hvalid t0 Hin0). specialize (Hnumbers t0 Hin0).
    cbn [typed quantity].
    destruct (s_quantity t0) as [n | text]; [| discriminate].
    cbn in *. apply andb_true_iff in Hvalid. destruct Hvalid as [Hlo _].
    apply Z.leb_le in Hlo. lia.
Qed.

Lemma digits_stop prefix c rest :
  digit c = None -> forall acc, digits (prefix ++ String c rest) acc = None.
Proof.
  intros Hc. induction prefix as [| d prefix IH]; intros acc; cbn.
  - now rewrite Hc.
  - destruct (digit d); [apply IH | reflexivity].
Qed.

Lemma to_number_inner_sign prefix rest :
  prefix <> EmptyString -> to_number (prefix ++ String "+" rest) = None.
Proof.
  intros Hne. destruct prefix as [| d prefix]; [contradiction |].
  assert (Hstop : forall acc, digits (prefix ++ String "+" rest) acc = None)
    by (apply digits_stop; reflexivity).
  assert (Hall : unsigned (String d prefix ++ String "+" rest) = None).
  { cbn. destruct (digit d); [apply Hstop | reflexivity]. }
  assert (Htail : unsigned (prefix ++ String "+" rest) = None).
  { unfold unsigned. destruct (prefix ++ String "+" rest);
      [reflexivity | apply Hstop]. }
  change (String d prefix ++ String "+" rest)
    with (String d (prefix ++ String "+" rest)) in *.
  unfold to_number.
  destruct d as [[] [] [] [] [] [] [] []];
    first [ exact Hall | exact Htail | now rewrite Htail ].
Qed.

Lemma string_of_Z_not_empty z : string_of_Z z <> EmptyString.
Proof.
  unfold string_of_Z, NilZero.string_of_int.
  destruct (Z.to_int z) as [d | d]; [| discriminate].
  unfold NilZero.string_of_uint. now destruct d.
Qed.

(** Extra X22 (a quantity sent as a string).  The capacity test of the
    route adds with [+], which appends a string: a quantity written with a
    plus sign is never refused for capacity, whatever is sold and whatever
    the tier holds.  So ["+5"], which the validator lets through, takes the
    tier from nine seats sold of ten to fourteen; and ["5"] is refused with
    one seat sold of ten, for [15 > 10]. *)
Theorem X22_string_quantity_misses_the_capacity_test :
  (forall tier text, exceeds tier (QString (String "+" text)) = false) /\
  (isInt_1_to_10 (QString "+5") = true /\
   let run := answer (create_order_sent 3 (written "+5")) (quiet 1000)
                     (start nearly_full) in
   option_map status (snd run) = Some 201 /\
   map (fun tt => (tt_sold_quantity tt, tt_quantity tt))
       (ticket_tiers (w_db (fst run))) = [(14, 10)] /\
   List.length (tickets (w_db (fst run))) = 5%nat /\
   ledger_ok (w_db (fst run)) = false) /\
  (isInt_1_to_10 (QString "5") = true /\
   map (fun tt => (tt_sold_quantity tt, tt_quantity tt))
       (ticket_tiers (w_db booked)) = [(1, 10)] /\
   let run := answer (create_order_sent 3 (written "5")) (quiet 2000) booked in
   snd run = Some (failure 400
                     "Not enough tickets available for Regular. Available: 9") /\
   w_db (fst run) = w_db booked).
Proof.
  split; [| split].
  - intros tier text. unfold exceeds.
    now rewrite (to_number_inner_sign _ text (string_of_Z_not_empty _)).
  - vm_compute. repeat split.
  - vm_compute. repeat split.
Qed.

(** Extra X23 (the line items are judged in order).  For a request whose
    quantities were sent as JSON numbers, while no call fails: the line
    items are judged one after the other, each against the tier row as
    stored, in the order tier of the event and active, [sold_quantity +
    quantity <= quantity of the tier], sales window; at the first line item
    that fails the route answers 400 for the first check that fails, with
    the tier and what is left of it for a capacity violation, and the rows
    are as before the request. *)
Theorem X23_line_items_are_judged_in_order
    user_id req e w pre t post event others
    (Hquiet : forall n, env_fault e n = false)
    (Hopen : w_snapshot w = None)
    (Hnumbers : Forall (fun t => sent_as_number (s_quantity t) = true)
                       (sr_tickets req))
    (Hevent : filter (fun ev => (e_id ev =? sr_eventId req) && is_published ev)
                     (events (w_db w)) = event :: others)
    (Htickets : sr_tickets req = (pre ++ t :: post)%list)
    (Hpre : Forall (accepted (w_db w) (sr_eventId req) (env_now e))
                   (map typed pre))
    (Hfails : forall tier, judge (w_db w) (sr_eventId req) (env_now e) (typed t)
                           <> Accepted tier) :
  refusal_answer (typed t)
    (judge (w_db w) (sr_eventId req) (env_now e) (typed t))
    (snd (answer (create_order_sent user_id req) e w))
  /\ same_rows (w_db w)
       (w_db (fst (answer (create_order_sent user_id req) e w))).
Proof.
  unfold answer. rewrite (create_order_sent_numbers _ _ _ _ Hnumbers).
  apply (checks_in_order user_id (typed_request req) e w (map typed pre)
           (typed t) (map typed post) event others); try assumption.
  cbn [typed_request rq_tickets]. rewrite Htickets, map_app. reflexivity.
Qed.

(** ** The tier update among other requests *)

Lemma update_tier_alone user id p e w :
  update_tier_amid (ret tt) user id p e w = update_tier user id p e w.
Proof.
  unfold update_tier_amid, update_tier, try_catch. rewrite !bind_eq.
  destruct (query (select_tier_with_organizer id) e w)
    as [w1 [tiers | r | x]]; reflexivity.
Qed.

(** Extra X24 (the guard of the tier update is not atomic).  The route
    reads [sold_quantity] in one statement and updates in another, with no
    transaction.  When the tier has no sale as the route reads it, whatever
    other requests then do before the update, seats of that tier sold
    among it, the route answers 200 and the update is applied to the rows
    as they are then; alone, the route is the one of the claims. *)
Theorem X24_tier_guard_is_not_atomic {A} (others : M A) user id p e w
    tier organizer_id rest
    (Hquiet : forall n, env_fault e n = false)
    (Hsel : select_tier_with_organizer id (w_db w)
            = (tier, organizer_id) :: rest)
    (Hallowed : access_denied organizer_id user = false)
    (Hunsold : tt_sold_quantity tier <= 0) :
  let then_ := w_db (after others e (tick w)) in
  snd (answer (update_tier_amid others user id p) e w)
  = Some (success 200 "Ticket tier updated successfully") /\
  w_db (fst (answer (update_tier_amid others user id p) e w))
  = update_tier_row id p then_ /\
  (forall e' w', update_tier_amid (ret tt) user id p e' w'
                 = update_tier user id p e' w').
Proof.
  assert (Hle : (tt_sold_quantity tier >? 0) = false)
    by (rewrite Z.gtb_ltb; apply Z.ltb_ge; exact Hunsold).
  cbv zeta. split; [| split; [| intros; apply update_tier_alone]].
  all: unfold answer, after, update_tier_amid, try_catch, meanwhile, query,
    update, bind, call, ret;
    do 4 (cbn -[select_tier_with_organizer update_tier_row access_denied
                Z.gtb];
          rewrite ?Hquiet, ?Hsel, ?Hallowed, ?Hle);
    reflexivity.
Qed.

(** ** The properties above on concrete runs *)

Import Rounds.

Lemma X1_reservation_witness :
  ticket_tiers (w_db booked)
  = map (booked_tier (rq_tickets (request [seats 1 1])))
        (ticket_tiers (w_db (start fresh))) /\
  users (w_db booked) = users (w_db (start fresh)) /\
  events (w_db booked) = events (w_db (start fresh)) /\
  exists row new,
    orders (w_db booked) = (orders (w_db (start fresh)) ++ [row])%list /\
    o_status row = pending /\ o_user_id row = 3 /\
    o_event_id row = rq_eventId (request [seats 1 1]) /\
    o_billing row = rq_billing (request [seats 1 1]) /\
    tickets (w_db booked) = (tickets (w_db (start fresh)) ++ new)%list /\
    List.length new = seats_requested (rq_tickets (request [seats 1 1])) /\
    Forall (issued_for (o_id row) (rq_tickets (request [seats 1 1]))) new.
Proof.
  apply (X1_reservation_books_every_seat 3 (request [seats 1 1]) (quiet 1000)
           (start fresh) booked receipt).
  - reflexivity.
  - vm_compute. reflexivity.
  - reflexivity.
Defined.

Lemma X2_checkout_failure_witness :
  answer (create_order 3 (request [seats 1 1])) stripe_down (start fresh)
  = (stranded, Some (failure 500 "Failed to create order")) /\
  ticket_tiers (w_db stranded)
  = map (booked_tier (rq_tickets (request [seats 1 1])))
        (ticket_tiers (w_db (start fresh))) /\
  exists row new,
    orders (w_db stranded) = (orders (w_db (start fresh)) ++ [row])%list /\
    o_status row = pending /\ o_user_id row = 3 /\
    tickets (w_db stranded) = (tickets (w_db (start fresh)) ++ new)%list /\
    List.length new = seats_requested (rq_tickets (request [seats 1 1])).
Proof.
  apply (X2_checkout_failure_keeps_the_reservation 3 (request [seats 1 1])
           stripe_down (start fresh) stranded).
  vm_compute. reflexivity.
Defined.

Lemma X4_refused_cancel_witness :
  same_rows (w_db (settled 1))
            (w_db (fst (answer (cancel_order 3 1) (quiet 3000) (settled 1)))) /\
  w_snapshot (fst (answer (cancel_order 3 1) (quiet 3000) (settled 1))) = None.
Proof.
  apply (X4_cancel_writes_only_with_200 3 1 (quiet 3000) (settled 1) _
           (failure 400 "Only pending orders can be cancelled")).
  - reflexivity.
  - vm_compute. reflexivity.
  - vm_compute. lia.
Defined.

Lemma X5_cancel_refusals_witness :
  snd (answer (cancel_order 3 1) (quiet 3000) (settled 1))
  = Some (failure 400 "Only pending orders can be cancelled").
Proof.
  pose proof (X5_cancel_refusals 3 1 (quiet 3000) (settled 1)
                (fun n => eq_refl)) as H.
  vm_compute in H. vm_compute. apply H. discriminate.
Defined.

Lemma X6_cancel_twice_witness :
  (forall o, In o (orders (w_db given_up)) -> o_id o = 1 ->
             o_status o = cancelled) /\
  snd (answer (cancel_order 3 1) (quiet 1600) given_up)
  = Some (failure 400 "Only pending orders can be cancelled") /\
  same_rows (w_db given_up)
            (w_db (fst (answer (cancel_order 3 1) (quiet 1600) given_up))).
Proof.
  apply (X6_cancel_is_one_shot 3 1 (quiet 1500) (quiet 1600) booked given_up
           cancelled_answer).
  - reflexivity.
  - vm_compute. reflexivity.
  - reflexivity.
  - intros n. reflexivity.
Defined.

Lemma X8_delete_tier_witness :
  (status (success 200 "Ticket tier deleted successfully") = 200 ->
   (exists tier organizer_id others,
       select_tier_with_organizer 1 (w_db given_up)
       = (tier, organizer_id) :: others /\
       access_denied organizer_id the_organizer = false /\
       tt_sold_quantity tier <= 0) /\
   ticket_tiers (w_db (after (delete_tier the_organizer 1) (quiet 2000)
                             given_up))
   = filter (fun tt => negb (tt_id tt =? 1)) (ticket_tiers (w_db given_up)) /\
   tickets (w_db (after (delete_tier the_organizer 1) (quiet 2000) given_up))
   = filter (fun t => negb (t_ticket_tier_id t =? 1))
            (tickets (w_db given_up)) /\
   (forall tt, In tt (ticket_tiers (w_db (after (delete_tier the_organizer 1)
                                                (quiet 2000) given_up))) ->
               tt_id tt <> 1) /\
   (forall t, In t (tickets (w_db (after (delete_tier the_organizer 1)
                                         (quiet 2000) given_up))) ->
              t_ticket_tier_id t <> 1) /\
   users (w_db (after (delete_tier the_organizer 1) (quiet 2000) given_up))
   = users (w_db given_up) /\
   events (w_db (after (delete_tier the_organizer 1) (quiet 2000) given_up))
   = events (w_db given_up) /\
   orders (w_db (after (delete_tier the_organizer 1) (quiet 2000) given_up))
   = orders (w_db given_up)) /\
  (status (success 200 "Ticket tier deleted successfully") <> 200 ->
   w_db (after (delete_tier the_organizer 1) (quiet 2000) given_up)
   = w_db given_up).
Proof.
  apply (X8_delete_tier_removes_the_tier the_organizer 1 (quiet 2000)
           given_up).
  vm_compute. reflexivity.
Defined.

Lemma X9_stranger_witness :
  (snd (answer (update_tier stranger 1 raise_price) (quiet 2000) (start fresh))
   = Some (failure 403 "Access denied") /\
   snd (answer (delete_tier stranger 1) (quiet 2000) (start fresh))
   = Some (failure 403 "Access denied")) /\
  (select_tier_with_organizer 1 (w_db (start fresh)) = [] \/
   (exists tier organizer_id others,
       select_tier_with_organizer 1 (w_db (start fresh))
       = (tier, organizer_id) :: others /\
       access_denied organizer_id stranger = true) ->
   w_db (after (update_tier stranger 1 raise_price) (quiet 2000) (start fresh))
   = w_db (start fresh) /\
   w_db (after (delete_tier stranger 1) (quiet 2000) (start fresh))
   = w_db (start fresh)).
Proof.
  pose proof (X9_tier_routes_refusals stranger 1 raise_price (quiet 2000)
                (start fresh) eq_refl) as [Hanswer Hrows].
  split; [apply Hanswer; reflexivity | exact Hrows].
Defined.

Lemma X10_refund_event_witness :
  answer (stripe_webhook constructEvent "whsec_test" (signed "charge.refunded"))
         (quiet 2000) (reserved 1)
  = (reserved 1, Some {| status := 200; payload := Received |}).
Proof.
  apply (X10_unhandled_event_is_acknowledged constructEvent "whsec_test"
           (signed "charge.refunded") (quiet 2000) (reserved 1) refund).
  - reflexivity.
  - vm_compute. intros [H | [H | [H | [H | []]]]]; discriminate H.
Defined.

Lemma X11_failing_store_witness :
  snd (answer (stripe_webhook constructEvent "whsec_test"
                 (signed "payment_intent.payment_failed"))
              (flaky 2000 (S (w_calls (reserved 1)))) (reserved 1))
  = Some {| status := 200; payload := Received |}.
Proof.
  apply (X11_verified_event_is_always_acknowledged constructEvent "whsec_test"
           (signed "payment_intent.payment_failed")
           (flaky 2000 (S (w_calls (reserved 1)))) (reserved 1)
           {| ev_type := "payment_intent.payment_failed";
              ev_object := intent |}).
  reflexivity.
Defined.

Lemma X12_unknown_order_witness :
  w_db (after (handlePaymentSuccess {| so_id := "pi_3Ny"; so_orderId := 42 |})
              (quiet 2000) booked)
  = w_db booked /\
  w_queue (after (handlePaymentSuccess {| so_id := "pi_3Ny"; so_orderId := 42 |})
                 (quiet 2000) booked)
  = w_queue booked.
Proof.
  apply (X12_success_for_unknown_order_is_void
           {| so_id := "pi_3Ny"; so_orderId := 42 |} (quiet 2000) booked).
  vm_compute. intros o [<- | []]. discriminate.
Defined.

Lemma X16_replayed_generation_witness :
  w_db (after (processTicketGeneration qr 1 printed) (quiet 4000)
              (after (processTicketGeneration qr 1 printed) (quiet 4000) booked))
  = w_db (after (processTicketGeneration qr 1 printed) (quiet 4000) booked) /\
  forall t,
    In t (tickets (w_db (after (processTicketGeneration qr 1 printed)
                               (quiet 4000) booked))) ->
    forall url, last_url qr 1 printed (t_id t) = Some url ->
                t_qr_code t = Some url.
Proof.
  apply (X16_ticket_generation_is_idempotent qr 1 printed (quiet 4000) booked).
  intros n. reflexivity.
Defined.

Lemma X18_second_check_in_witness :
  w_db (after (validate_ticket the_organizer 1) (quiet 3100) admitted)
  = w_db admitted /\
  exists r2,
    snd (validate_ticket the_organizer 1 (quiet 3100) admitted) = Val r2 /\
    (ck_status r2 = 400 \/ ck_status r2 = 403 \/ ck_status r2 = 500) /\
    (the_organizer = the_organizer ->
     env_fault (quiet 3100) (w_calls admitted) = false ->
     r2 = checkin_failure 400 "Ticket already used").
Proof.
  apply (X18_check_in_is_one_shot the_organizer 1 (quiet 3000) booked admitted
           pass the_organizer (quiet 3100)).
  - vm_compute. reflexivity.
  - reflexivity.
Defined.

Lemma X21_round_trip_witness :
  ticket_tiers (w_db unpaired)
  = map (cancelled_tier (rq_tickets (request [seats 1 1; seats 2 1])))
        (ticket_tiers (w_db (start two_tiers))) /\
  (Forall (fun item => quantity item = 1)
          (rq_tickets (request [seats 1 1; seats 2 1])) ->
   NoDup (map tierId (rq_tickets (request [seats 1 1; seats 2 1]))) ->
   ticket_tiers (w_db unpaired) = ticket_tiers (w_db (start two_tiers))).
Proof.
  apply (X21_reserve_then_cancel 3 (request [seats 1 1; seats 2 1])
           (quiet 1000) (start two_tiers) paired paired_receipt (quiet 1500)
           unpaired cancelled_answer).
  - reflexivity.
  - apply Forall_nil.
  - apply Forall_cons; [reflexivity |].
    apply Forall_cons; [reflexivity | apply Forall_nil].
  - vm_compute. reflexivity.
  - reflexivity.
  - vm_compute. reflexivity.
  - reflexivity.
Defined.

Lemma X3_distinct_tiers_witness :
  ledger_ok (w_db (after (create_order_sent 3 (sent [seats 1 2; seats 2 1]))
                         (quiet 1000) (start two_tiers))) = true.
Proof.
  apply (X3_distinct_tiers_are_never_oversold 3 (sent [seats 1 2; seats 2 1])
           (quiet 1000) (start two_tiers)).
  - reflexivity.
  - vm_compute. apply NoDup_cons; [intros [H | []]; discriminate H |].
    apply NoDup_cons; [intros [] | apply NoDup_nil].
  - vm_compute. apply NoDup_cons; [intros [H | []]; discriminate H |].
    apply NoDup_cons; [intros [] | apply NoDup_nil].
  - apply Forall_cons; [reflexivity |].
    apply Forall_cons; [reflexivity | apply Forall_nil].
  - apply Forall_cons; [reflexivity |].
    apply Forall_cons; [reflexivity | apply Forall_nil].
  - reflexivity.
Defined.

Lemma X23_capacity_witness :
  refusal_answer (typed (as_sent (seats 1 11)))
    (judge (w_db (start fresh)) (sr_eventId (sent [seats 1 2; seats 1 11;
                                                   seats 1 1]))
           (env_now (quiet 1000)) (typed (as_sent (seats 1 11))))
    (snd (answer (create_order_sent 3 (sent [seats 1 2; seats 1 11; seats 1 1]))
                 (quiet 1000) (start fresh)))
  /\ same_rows (w_db (start fresh))
       (w_db (fst (answer (create_order_sent 3
                             (sent [seats 1 2; seats 1 11; seats 1 1]))
                          (quiet 1000) (start fresh)))).
Proof.
  apply (X23_line_items_are_judged_in_order 3
           (sent [seats 1 2; seats 1 11; seats 1 1])
           (quiet 1000) (start fresh) [as_sent (seats 1 2)]
           (as_sent (seats 1 11)) [as_sent (seats 1 1)]
           {| e_id := 1; e_organizer_id := 2; e_title := "Tech Conference 2024";
              e_status := published |} []).
  - intros n. reflexivity.
  - reflexivity.
  - repeat (apply Forall_cons; [reflexivity |]). apply Forall_nil.
  - reflexivity.
  - reflexivity.
  - apply Forall_cons; [exists regular; reflexivity | apply Forall_nil].
  - intros tier. vm_compute. discriminate.
Defined.

Lemma X24_sale_before_the_update_witness :
  snd (answer (update_tier_amid (create_order 3 (request [seats 1 1]))
                 the_organizer 1 reprice) (quiet 1000) (start fresh))
  = Some (success 200 "Ticket tier updated successfully") /\
  w_db (fst (answer (update_tier_amid (create_order 3 (request [seats 1 1]))
                       the_organizer 1 reprice) (quiet 1000) (start fresh)))
  = update_tier_row 1 reprice
      (w_db (after (create_order 3 (request [seats 1 1])) (quiet 1000)
                   (tick (start fresh)))) /\
  (forall e' w', update_tier_amid (ret tt) the_organizer 1 reprice e' w'
                 = update_tier the_organizer 1 reprice e' w').
Proof.
  apply (X24_tier_guard_is_not_atomic (create_order 3 (request [seats 1 1]))
           the_organizer 1 reprice (quiet 1000) (start fresh) regular 2 []).
  - intros n. reflexivity.
  - reflexivity.
  - reflexivity.
  - vm_compute. discriminate.
Defined.
